(** * FEA model generator: the Abaqus input writer of [main.py]

    A shallow embedding of [generate_abaqus_input] and of the Python
    operations it relies on (float arithmetic, [int()], true division,
    f-string formatting, [str.encode]), followed by the properties of the
    generated mesh and document.

    Python floats are IEEE binary64 values and are modelled by Rocq's
    primitive [float]; Python ints are modelled by [Z]; a Python [str] is
    modelled by [string], one [ascii] per code point. *)

From Stdlib Require Import ZArith List String Ascii Lia Bool.
From Stdlib Require Import Reals Lra Machin.
From Stdlib Require Import Floats.
From Stdlib Require Import DecimalString DecimalPos DecimalZ.
From stdpp Require Import gmap.

Open Scope Z_scope.

(** ** Exceptions and the error monad *)

Inductive exn : Type :=
| ZeroDivisionError
| OverflowError
| ValueError
| KeyError
| UnicodeEncodeError.

Inductive result (A : Type) : Type :=
| Ok (a : A)
| Raise (e : exn).

Arguments Ok {A} a.
Arguments Raise {A} e.

Definition bind {A B : Type} (c : result A) (k : A -> result B) : result B :=
  match c with
  | Ok a => k a
  | Raise e => Raise e
  end.

Notation "'let*' x ':=' c 'in' k" := (bind c (fun x => k))
  (at level 10, x name, c at level 200, k at level 200, only parsing).

(** ** Python numbers *)

Module Py.

(** A binary64 value taken apart: zero, infinity, NaN, or a sign, a
    mantissa and an exponent. *)
Definition SF (x : float) : spec_float := Prim2SF x.

Definition round_SF (sx : bool) (m e : Z) (l : location) : spec_float :=
  binary_round_aux prec emax sx m e l.

(** [float(n)] for an int [n] ([PyLong_AsDouble]): the nearest double,
    ties to even; [OverflowError] beyond the largest double. *)
Definition SF_of_int (n : Z) : spec_float :=
  binary_normalize prec emax n 0 false.

Definition float_of_int (n : Z) : result float :=
  match SF_of_int n with
  | S754_infinity _ => Raise OverflowError
  | sf => Ok (SF2Prim sf)
  end.

(** [int(x)] for a float [x]: truncation toward zero; [ValueError] on a
    NaN, [OverflowError] on an infinity. *)
Definition float_int (x : float) : result Z :=
  match SF x with
  | S754_nan => Raise ValueError
  | S754_infinity _ => Raise OverflowError
  | S754_zero _ => Ok 0
  | S754_finite s m e =>
      let a := Z.shiftl (Z.pos m) e in
      Ok (if s then - a else a)
  end.

(** [x / y] on floats: [ZeroDivisionError] when [y == 0.0], otherwise
    the IEEE quotient (which may be infinite or NaN). *)
Definition float_truediv (x y : float) : result float :=
  if PrimFloat.eqb y 0%float then Raise ZeroDivisionError
  else Ok (x / y)%float.

(** [x / n] and [n * x] with an int [n]: the int is converted first. *)
Definition float_truediv_int (x : float) (n : Z) : result float :=
  let* y := float_of_int n in float_truediv x y.

Definition int_mul_float (n : Z) (x : float) : result float :=
  let* y := float_of_int n in Ok (y * x)%float.

(** [a / b] on ints ([long_true_divide]): the correctly rounded
    quotient of the two integers. *)
Definition SF_of_ratio (a b : Z) : spec_float :=
  let s := xorb (a <? 0) (b <? 0) in
  match a with
  | 0 => S754_zero s
  | _ =>
      let '(q, e, l) := SFdiv_core_binary prec emax (Z.abs a) 0 (Z.abs b) 0 in
      round_SF s q e l
  end.

Definition int_truediv (a b : Z) : result float :=
  if b =? 0 then Raise ZeroDivisionError
  else match SF_of_ratio a b with
       | S754_infinity _ => Raise OverflowError
       | sf => Ok (SF2Prim sf)
       end.

(** [a % b] on ints: the remainder has the sign of the divisor. *)
Definition int_mod (a b : Z) : result Z :=
  if b =? 0 then Raise ZeroDivisionError else Ok (a mod b).

End Py.

(** ** Python strings and number formatting *)

Module Fmt.

Open Scope string_scope.

Definition nl : string := String "010"%char "".

(** [str(n)] for an int. *)
Definition str_int (n : Z) : string :=
  NilZero.string_of_int (Z.to_int n).

Definition sign (s : bool) : string := if s then "-" else "".

Definition digit (n : Z) : string :=
  String (ascii_of_nat (48 + Z.to_nat n)) "".

(** [n / d] rounded to the nearest integer, ties to even
    ([0 <= n], [0 < d]). *)
Definition round_half_even (n d : Z) : Z :=
  let q := (n / d)%Z in
  match (2 * (n mod d) ?= d)%Z with
  | Lt => q
  | Gt => (q + 1)%Z
  | Eq => if Z.even q then q else (q + 1)%Z
  end.

(** The magnitude [m * 2^e] in thousandths, correctly rounded. *)
Definition thousandths (m : positive) (e : Z) : Z :=
  if (0 <=? e)%Z then (Z.pos m * 1000 * 2 ^ e)%Z
  else round_half_even (Z.pos m * 1000) (2 ^ (- e)).

Definition pad3 (n : Z) : string :=
  digit (n / 100) ++ digit ((n / 10) mod 10) ++ digit (n mod 10).

(** [f"{x:.3f}"]. *)
Definition format_3f (x : float) : string :=
  match Py.SF x with
  | S754_nan => "nan"
  | S754_infinity s => sign s ++ "inf"
  | S754_zero s => sign s ++ "0.000"
  | S754_finite s m e =>
      let n := thousandths m e in
      sign s ++ str_int (n / 1000) ++ "." ++ pad3 (n mod 1000)
  end.

(** *** [str(x)] for a float: the shortest decimal that reads back as [x] *)

(** [D * 10^p] compared with [X * 2^q], exactly. *)
Definition cmp_dec_bin (D p X q : Z) : comparison :=
  (D * 10 ^ Z.max p 0 * 2 ^ Z.max (- q) 0
     ?= X * 2 ^ Z.max q 0 * 10 ^ Z.max (- p) 0)%Z.

(** Does the decimal [D * 10^p] round (to nearest, ties to even) to the
    double [m * 2^e]?  The bounds are the midpoints to the neighbouring
    doubles, in units of [2^(e-2)]. *)
Definition reads_back (m : positive) (e : Z) (D p : Z) : bool :=
  let v := (4 * Z.pos m)%Z in
  let lo := if ((Z.pos m =? 2 ^ 52) && (-1074 <? e))%Z then (v - 1)%Z else (v - 2)%Z in
  let hi := (v + 2)%Z in
  let cl := cmp_dec_bin D p lo (e - 2) in
  let ch := cmp_dec_bin D p hi (e - 2) in
  if Z.even (Z.pos m)
  then match cl, ch with Lt, _ | _, Gt => false | _, _ => true end
  else match cl, ch with Gt, Lt => true | _, _ => false end.

(** The least [j' >= j] with [d <= m * 10^j']. *)
Fixpoint first_scale (fuel : nat) (j m d : Z) : Z :=
  match fuel with
  | O => j
  | S fuel' => if (d <=? m * 10 ^ j)%Z then j else first_scale fuel' (j + 1)%Z m d
  end.

(** The decimal exponent [k] of [m * 2^e]: [10^(k-1) <= m * 2^e < 10^k]. *)
Definition decimal_exponent (m : positive) (e : Z) : Z :=
  let ip := Z.shiftl (Z.pos m) e in
  if (0 <? ip)%Z then Z.of_nat (String.length (str_int ip))
  else (1 - first_scale (Z.to_nat (- e)) 1 (Z.pos m) (2 ^ (- e)))%Z.

(** [floor (m * 2^e / 10^p)]. *)
Definition floor_scaled (m : positive) (e p : Z) : Z :=
  ((Z.pos m * 2 ^ Z.max e 0 * 10 ^ Z.max (- p) 0)
     / (2 ^ Z.max (- e) 0 * 10 ^ Z.max p 0))%Z.

(** The [n]-digit decimal nearest to [m * 2^e] that reads back, if any. *)
Definition candidate (m : positive) (e k n : Z) : option (Z * Z) :=
  let p := (k - n)%Z in
  let D := floor_scaled m e p in
  match reads_back m e D p, reads_back m e (D + 1) p with
  | true, true =>
      match cmp_dec_bin (2 * D + 1) p (2 * Z.pos m) e with
      | Gt => Some (D, p)
      | Lt => Some ((D + 1)%Z, p)
      | Eq => Some ((if Z.even D then D else D + 1)%Z, p)
      end
  | true, false => Some (D, p)
  | false, true => Some ((D + 1)%Z, p)
  | false, false => None
  end.

Fixpoint shortest (fuel : nat) (m : positive) (e k n : Z) : Z * Z :=
  match fuel with
  | O => (floor_scaled m e (k - n), (k - n)%Z)
  | S fuel' =>
      match candidate m e k n with
      | Some c => c
      | None => shortest fuel' m e k (n + 1)%Z
      end
  end.

Fixpoint strip_zeros (fuel : nat) (D p : Z) : Z * Z :=
  match fuel with
  | O => (D, p)
  | S fuel' =>
      if (D mod 10 =? 0)%Z then strip_zeros fuel' (D / 10)%Z (p + 1)%Z else (D, p)
  end.

Fixpoint zeros (n : nat) : string :=
  match n with
  | O => ""
  | S n' => "0" ++ zeros n'
  end.

Definition exponent_suffix (x : Z) : string :=
  let a := str_int (Z.abs x) in
  "e" ++ (if (x <? 0)%Z then "-" else "+")
      ++ (if (Z.abs x <? 10)%Z then "0" ++ a else a).

(** The layout of [repr]: digits [ds] with the decimal point after the
    first [decpt] of them. *)
Definition repr_layout (ds : string) (decpt : Z) : string :=
  let len := Z.of_nat (String.length ds) in
  if ((decpt <=? -4) || (16 <? decpt))%Z then
    substring 0 1 ds
      ++ (if (1 <? len)%Z then "." ++ substring 1 (String.length ds - 1) ds else "")
      ++ exponent_suffix (decpt - 1)
  else if (decpt <=? 0)%Z then
    "0." ++ zeros (Z.to_nat (- decpt)) ++ ds
  else if (len <=? decpt)%Z then
    ds ++ zeros (Z.to_nat (decpt - len)) ++ ".0"
  else
    substring 0 (Z.to_nat decpt) ds ++ "."
      ++ substring (Z.to_nat decpt) (String.length ds - Z.to_nat decpt) ds.

Definition repr_finite (m : positive) (e : Z) : string :=
  let k := decimal_exponent m e in
  let '(D0, p0) := shortest 17 m e k 1 in
  let '(D, p) := strip_zeros 17 D0 p0 in
  let ds := str_int D in
  repr_layout ds (Z.of_nat (String.length ds) + p).

(** [f"{x}"], that is [str(x)] and [repr(x)]. *)
Definition float_repr (x : float) : string :=
  match Py.SF x with
  | S754_nan => "nan"
  | S754_infinity s => sign s ++ "inf"
  | S754_zero s => sign s ++ "0.0"
  | S754_finite s m e => sign s ++ repr_finite m e
  end.

End Fmt.

(** ** [str.encode('utf-8')] *)

Module Utf8.

Open Scope N_scope.

Definition byte_of (n : N) : Byte.byte := byte_of_ascii (ascii_of_N n).

(** The UTF-8 bytes of one code point; surrogates cannot be encoded. *)
Definition encode_code_point (c : N) : result (list Byte.byte) :=
  if c <? 0x80 then
    Ok [byte_of c]
  else if c <? 0x800 then
    Ok [byte_of (N.lor 0xC0 (N.shiftr c 6));
        byte_of (N.lor 0x80 (N.land c 0x3F))]
  else if (0xD800 <=? c) && (c <=? 0xDFFF) then
    Raise UnicodeEncodeError
  else if c <? 0x10000 then
    Ok [byte_of (N.lor 0xE0 (N.shiftr c 12));
        byte_of (N.lor 0x80 (N.land (N.shiftr c 6) 0x3F));
        byte_of (N.lor 0x80 (N.land c 0x3F))]
  else if c <? 0x110000 then
    Ok [byte_of (N.lor 0xF0 (N.shiftr c 18));
        byte_of (N.lor 0x80 (N.land (N.shiftr c 12) 0x3F));
        byte_of (N.lor 0x80 (N.land (N.shiftr c 6) 0x3F));
        byte_of (N.lor 0x80 (N.land c 0x3F))]
  else
    Raise ValueError.

Fixpoint encode (s : string) : result (list Byte.byte) :=
  match s with
  | EmptyString => Ok []
  | String c s' =>
      let* b := encode_code_point (N_of_ascii c) in
      let* bs := encode s' in
      Ok (b ++ bs)%list
  end.

Definition is_ascii (c : ascii) : bool := N_of_ascii c <? 0x80.

Fixpoint all_ascii (s : string) : bool :=
  match s with
  | EmptyString => true
  | String c s' => is_ascii c && all_ascii s'
  end.

End Utf8.

(** ** [range] loops *)

(** [for i in range(n): s = body(i, s)], stopping at the first exception;
    [range(n)] is empty when [n <= 0]. *)
Fixpoint for_from {S : Type} (body : Z -> S -> result S) (i : Z) (k : nat) (s : S)
  : result S :=
  match k with
  | O => Ok s
  | S k' => let* s' := body i s in for_from body (i + 1) k' s'
  end.

Definition for_range {S : Type} (n : Z) (body : Z -> S -> result S) (s : S)
  : result S :=
  for_from body 0 (Z.to_nat n) s.

(** ** The generator *)

Section Generator.

Import Fmt.
Open Scope string_scope.

(** numpy's [radians], [cos] and [sin] on a float: their values are the
    platform's, so the model takes them as they come. *)
Variables np_radians np_cos np_sin : float -> float.

Definition point : Type := float * float * float.

(** The double written [3.1416] in the source. *)
Definition lit_3_1416 : float := 0x1.921ff2e48e8a7p+1%float.

(** The locals of the node pass. *)
Record node_locals : Type := {
  n_output : string;
  node_id : Z;
  nodes : gmap (Z * Z) Z;
  node_coordinates : list point
}.

(** The locals of the element pass. *)
Record element_locals : Type := {
  e_output : string;
  element_id : Z
}.

(** [output.write(s)] on the [io.StringIO] buffer. *)
Definition write (output s : string) : string := output ++ s.

(** [nodes[key]]. *)
Definition subscript (nodes : gmap (Z * Z) Z) (key : Z * Z) : result Z :=
  match nodes !! key with
  | Some v => Ok v
  | None => Raise KeyError
  end.

(** The f-strings of lines 29 and 42. *)
Definition node_line (id : Z) (x y z : float) : string :=
  str_int id ++ ", " ++ format_3f x ++ ", " ++ format_3f y ++ ", "
    ++ format_3f z ++ nl.

Definition element_line (id n1 n2 n3 n4 : Z) : string :=
  str_int id ++ ", " ++ str_int n1 ++ ", " ++ str_int n2 ++ ", "
    ++ str_int n3 ++ ", " ++ str_int n4 ++ nl.

(** Line 9: [int((3.1416 * diameter) / element_size)], and line 10:
    [int(height / element_size)]. *)
Definition num_circumferential (diameter element_size : float) : result Z :=
  let* q := Py.float_truediv (lit_3_1416 * diameter)%float element_size in
  Py.float_int q.

Definition num_vertical (height element_size : float) : result Z :=
  let* q := Py.float_truediv height element_size in
  Py.float_int q.

(** Lines 26-32: the body of the inner loop of the node pass. *)
Definition node_step (radius : float) (num_circumferential_elements : Z)
    (i : Z) (z : float) (j : Z) (st : node_locals) : result node_locals :=
  let* q := Py.int_truediv j num_circumferential_elements in
  let theta := (q * 360)%float in
  let x := (radius * np_cos (np_radians theta))%float in
  let y := (radius * np_sin (np_radians theta))%float in
  Ok {| n_output := write (n_output st) (node_line (node_id st) x y z);
        node_id := node_id st + 1;
        nodes := <[(i, j) := node_id st]> (nodes st);
        node_coordinates := (node_coordinates st ++ [(x, y, z)])%list |}.

(** Lines 24-32: the body of the outer loop of the node pass. *)
Definition node_ring (radius element_size : float)
    (num_circumferential_elements : Z) (i : Z) (st : node_locals)
  : result node_locals :=
  let* z := Py.int_mul_float i element_size in
  for_range num_circumferential_elements
    (node_step radius num_circumferential_elements i z) st.

(** Lines 38-43: the body of the inner loop of the element pass. *)
Definition element_step (nodes : gmap (Z * Z) Z)
    (num_circumferential_elements : Z) (i j : Z) (st : element_locals)
  : result element_locals :=
  let* n1 := subscript nodes (i, j) in
  let* c2 := Py.int_mod (j + 1) num_circumferential_elements in
  let* n2 := subscript nodes (i, c2) in
  let* c3 := Py.int_mod (j + 1) num_circumferential_elements in
  let* n3 := subscript nodes (i + 1, c3) in
  let* n4 := subscript nodes (i + 1, j) in
  Ok {| e_output := write (e_output st) (element_line (element_id st) n1 n2 n3 n4);
        element_id := element_id st + 1 |}.

(** Lines 37-43: the body of the outer loop of the element pass. *)
Definition element_ring (nodes : gmap (Z * Z) Z)
    (num_circumferential_elements : Z) (i : Z) (st : element_locals)
  : result element_locals :=
  for_range num_circumferential_elements
    (element_step nodes num_circumferential_elements i) st.

(** Lines 7-63.  The result is an exception or the triple
    [(inp_content, byte_data, node_coordinates)]. *)
Definition generate_abaqus_input
    (diameter thickness height youngs_modulus element_size : float)
  : result (string * list Byte.byte * list point) :=
  let* radius := Py.float_truediv_int diameter 2 in
  let* num_circumferential_elements := num_circumferential diameter element_size in
  let* num_vertical_elements := num_vertical height element_size in
  let output := "" in
  let output := write output ("** Abaqus Input File for Shell Model of a Vessel" ++ nl) in
  let output := write output ("*Heading" ++ nl) in
  let output := write output ("Pressure Vessel Model" ++ nl ++ nl) in
  let output := write output ("*Part, name=Vessel" ++ nl) in
  let output := write output ("*Node" ++ nl) in
  let* st :=
    for_range (num_vertical_elements + 1)
      (node_ring radius element_size num_circumferential_elements)
      {| n_output := output; node_id := 1; nodes := ∅; node_coordinates := [] |} in
  let output := write (n_output st) ("*Element, type=S4" ++ nl) in
  let* est :=
    for_range num_vertical_elements
      (element_ring (nodes st) num_circumferential_elements)
      {| e_output := output; element_id := 1 |} in
  let output := e_output est in
  let output := write output ("*End Part" ++ nl ++ nl) in
  let output := write output ("*Material, name=Steel" ++ nl) in
  let output := write output ("*Elastic" ++ nl) in
  let output := write output (float_repr youngs_modulus ++ ", 0.3" ++ nl ++ nl) in
  let output :=
    write output
      ("*Shell Section, elset=ALL_ELEMENTS, material=Steel, thickness="
         ++ float_repr thickness ++ nl) in
  let output := write output ("*Assembly, name=Assembly" ++ nl) in
  let output := write output ("*Instance, name=Vessel-1, part=Vessel" ++ nl) in
  let output := write output ("*End Instance" ++ nl) in
  let output := write output ("*End Assembly" ++ nl ++ nl) in
  let output := write output ("*Step, name=StaticStep, nlgeom=YES" ++ nl) in
  let output := write output ("*Static" ++ nl) in
  let output := write output ("1.0, 1.0, 1e-05, 1.0" ++ nl ++ nl) in
  let output := write output ("*End Step" ++ nl) in
  let inp_content := output in
  let* byte_data := Utf8.encode inp_content in
  Ok (inp_content, byte_data, node_coordinates st).

End Generator.

(** ** The mesh and the document, as the properties below state them *)

(** The text of the writes of lines 13-17, of line 34 and of lines 45-57. *)
Definition header : string :=
  ("** Abaqus Input File for Shell Model of a Vessel" ++ Fmt.nl
    ++ "*Heading" ++ Fmt.nl
    ++ "Pressure Vessel Model" ++ Fmt.nl ++ Fmt.nl
    ++ "*Part, name=Vessel" ++ Fmt.nl
    ++ "*Node" ++ Fmt.nl)%string.

Definition element_header : string := ("*Element, type=S4" ++ Fmt.nl)%string.

Definition trailer (thickness youngs_modulus : float) : string :=
  ("*End Part" ++ Fmt.nl ++ Fmt.nl
    ++ "*Material, name=Steel" ++ Fmt.nl
    ++ "*Elastic" ++ Fmt.nl
    ++ (Fmt.float_repr youngs_modulus ++ ", 0.3" ++ Fmt.nl ++ Fmt.nl)
    ++ ("*Shell Section, elset=ALL_ELEMENTS, material=Steel, thickness="
          ++ Fmt.float_repr thickness ++ Fmt.nl)
    ++ "*Assembly, name=Assembly" ++ Fmt.nl
    ++ "*Instance, name=Vessel-1, part=Vessel" ++ Fmt.nl
    ++ "*End Instance" ++ Fmt.nl
    ++ "*End Assembly" ++ Fmt.nl ++ Fmt.nl
    ++ "*Step, name=StaticStep, nlgeom=YES" ++ Fmt.nl
    ++ "*Static" ++ Fmt.nl
    ++ "1.0, 1.0, 1e-05, 1.0" ++ Fmt.nl ++ Fmt.nl
    ++ "*End Step" ++ Fmt.nl)%string.

(** The positions [(i, j)] of a grid of [rows] rings of [cols] columns, in
    the order of the two nested loops. *)
Definition grid (rows cols : Z) : list (Z * Z) :=
  flat_map (fun i => map (fun j => (i, j)) (seqZ 0 cols)) (seqZ 0 rows).

(** The id of the node at ring [i], column [j] of a mesh of [nc] columns. *)
Definition grid_id (nc i j : Z) : Z := i * nc + j + 1.

(** The four corners of the element at ring [i], column [j]. *)
Definition quad (nc i j : Z) : list Z :=
  [grid_id nc i j;
   grid_id nc i ((j + 1) mod nc);
   grid_id nc (i + 1) ((j + 1) mod nc);
   grid_id nc (i + 1) j].

Definition element_table (nc nv : Z) : list (Z * list Z) :=
  map (fun ij => (grid_id nc ij.1 ij.2, quad nc ij.1 ij.2)) (grid nv nc).

Definition join (l : list string) : string := fold_right append EmptyString l.

Definition render_element (e : Z * list Z) : string :=
  match e.2 with
  | [n1; n2; n3; n4] => element_line e.1 n1 n2 n3 n4
  | _ => EmptyString
  end.

Section Mesh.

Variables np_radians np_cos np_sin : float -> float.

(** [i * element_size] and [(j / nc) * 360.0], past the checks of the
    two conversions. *)
Definition ring_z (element_size : float) (i : Z) : float :=
  (SF2Prim (Py.SF_of_int i) * element_size)%float.

Definition angle (nc j : Z) : float :=
  (SF2Prim (Py.SF_of_ratio j nc) * 360)%float.

(** The coordinates of the node at ring [i], column [j]. *)
Definition node_point (radius element_size : float) (nc i j : Z) : point :=
  ((radius * np_cos (np_radians (angle nc j)))%float,
   (radius * np_sin (np_radians (angle nc j)))%float,
   ring_z element_size i).

(** The nodes, and above the elements, with their ids, in the order of
    the loops. *)
Definition node_table (radius element_size : float) (nc nv : Z)
  : list (Z * point) :=
  map (fun ij => (grid_id nc ij.1 ij.2, node_point radius element_size nc ij.1 ij.2))
    (grid (nv + 1) nc).

Definition render_node (n : Z * point) : string :=
  node_line n.1 n.2.1.1 n.2.1.2 n.2.2.

(** The document written for a mesh of [nc] by [nv] elements. *)
Definition document (diameter thickness youngs_modulus element_size : float)
    (nc nv : Z) : string :=
  (header
     ++ join (map render_node (node_table (diameter / 2)%float element_size nc nv))
     ++ element_header
     ++ join (map render_element (element_table nc nv))
     ++ trailer thickness youngs_modulus)%string.

End Mesh.

(** The layout of section 6 of the specification, line by line. *)
Definition unlines (l : list string) : string :=
  join (map (fun s => (s ++ Fmt.nl)%string) l).

Definition node_text (n : Z * point) : string :=
  String.concat ", "
    [Fmt.str_int n.1; Fmt.format_3f n.2.1.1; Fmt.format_3f n.2.1.2; Fmt.format_3f n.2.2].

Definition element_text (e : Z * list Z) : string :=
  String.concat ", " (map Fmt.str_int (e.1 :: e.2)).

Definition section6_document (file_comment title : string)
    (ns : list (Z * point)) (es : list (Z * list Z))
    (modulus thickness : string) : string :=
  unlines
    (["** " ++ file_comment;
      "*Heading";
      title;
      "";
      "*Part, name=Vessel";
      "*Node"]%string
     ++ map node_text ns
     ++ ["*Element, type=S4"%string]
     ++ map element_text es
     ++ ["*End Part";
         "";
         "*Material, name=Steel";
         "*Elastic";
         modulus ++ ", 0.3";
         "";
         "*Shell Section, elset=ALL_ELEMENTS, material=Steel, thickness=" ++ thickness;
         "*Assembly, name=Assembly";
         "*Instance, name=Vessel-1, part=Vessel";
         "*End Instance";
         "*End Assembly";
         "";
         "*Step, name=StaticStep, nlgeom=YES";
         "*Static";
         "1.0, 1.0, 1e-05, 1.0";
         "";
         "*End Step"]%string)%list.

(** ** What the loops have done, at each of their steps *)

Section Invariants.

Variables np_radians np_cos np_sin : float -> float.
Variables (radius element_size : float) (nc : Z).

Open Scope string_scope.

Abbreviation pt := (node_point np_radians np_cos np_sin radius element_size nc).

(** The nodes of ring [i], columns [0 .. cols-1], and of the first
    [rows] rings. *)
Definition ring_nodes (i cols : Z) : list (Z * point) :=
  map (fun j => (grid_id nc i j, pt i j)) (seqZ 0 cols).

Definition rings_nodes (rows : Z) : list (Z * point) :=
  map (fun ij => (grid_id nc ij.1 ij.2, pt ij.1 ij.2)) (grid rows nc).

(** What the inner loop has done to the locals [st0] when it reaches
    column [j] of ring [i]. *)
Definition ring_inv (i : Z) (st0 : node_locals) (j : Z) (st : node_locals) : Prop :=
  n_output st = n_output st0 ++ join (map (render_node) (ring_nodes i j))
  /\ node_id st = grid_id nc i j
  /\ node_coordinates st = (node_coordinates st0 ++ map snd (ring_nodes i j))%list
  /\ forall key, nodes st !! key
                 = if decide (key.1 = i /\ 0 <= key.2 < j)
                   then Some (grid_id nc key.1 key.2)
                   else nodes st0 !! key.

(** What the outer loop has done when it reaches ring [i]. *)
Definition rings_inv (out0 : string) (i : Z) (st : node_locals) : Prop :=
  n_output st = out0 ++ join (map render_node (rings_nodes i))
  /\ node_id st = grid_id nc i 0
  /\ node_coordinates st = map snd (rings_nodes i)
  /\ forall key, nodes st !! key
                 = if decide (0 <= key.1 < i /\ 0 <= key.2 < nc)
                   then Some (grid_id nc key.1 key.2)
                   else None.

(** The elements of ring [i], columns [0 .. cols-1]. *)
Definition ring_elements (i cols : Z) : list (Z * list Z) :=
  map (fun j => (grid_id nc i j, quad nc i j)) (seqZ 0 cols).

(** What the element loops have done at column [j] of ring [i], and at
    ring [i]. *)
Definition element_ring_inv (i : Z) (st0 : element_locals) (j : Z)
    (st : element_locals) : Prop :=
  e_output st = e_output st0 ++ join (map render_element (ring_elements i j))
  /\ element_id st = grid_id nc i j.

Definition elements_inv (out0 : string) (i : Z) (st : element_locals) : Prop :=
  e_output st = out0 ++ join (map render_element (element_table nc i))
  /\ element_id st = grid_id nc i 0.

End Invariants.

(** ** Signs of doubles *)

(** A double that compares above [0.0] is a positive finite value or
    [+inf]. *)
Definition positive_SF (x : spec_float) : Prop :=
  match x with
  | S754_finite false _ _ | S754_infinity false => True
  | _ => False
  end.

(** A value that is not negative: [+0.0], a positive value, [+inf] or a
    NaN. *)
Definition unsigned_SF (x : spec_float) : Prop :=
  match x with
  | S754_zero s | S754_finite s _ _ | S754_infinity s => s = false
  | S754_nan => True
  end.

(** The bytes of an ASCII string. *)
Definition ascii_bytes (s : string) : list Byte.byte :=
  map byte_of_ascii (list_ascii_of_string s).

(** The largest int whose conversion to a float does not overflow from a
    finite double: the largest double itself. *)
Definition max_double : Z := (2 ^ 53 - 1) * 2 ^ 971.

Definition not_inf (x : spec_float) : Prop :=
  match x with
  | S754_infinity _ => False
  | _ => True
  end.

(** A finite quotient: what [int()] accepts. *)
Definition finite (x : float) : Prop :=
  match Py.SF x with
  | S754_zero _ | S754_finite _ _ _ => True
  | _ => False
  end.

(** The real number a finite double stands for. *)
Definition F2R (x : float) : R :=
  match Py.SF x with
  | S754_finite s m e =>
      ((if s then -1 else 1) * IZR (Z.pos m) * powerRZ 2 e)%R
  | _ => 0%R
  end.

(** [n] is the floor of the real [r]. *)
Definition is_floor (r : R) (n : Z) : Prop := (IZR n <= r < IZR n + 1)%R.

(** A reference instance of the three numpy functions, to run the model:
    [radians] multiplies by the double nearest pi/180, and [cos] and [sin]
    are the Taylor polynomials of degree 48 and 49.  No property below
    depends on it. *)
Module Ref.

Definition radians (x : float) : float := (x * 0x1.1df46a2529d39p-6)%float.

(** [term + ...], each term being the previous one times
    [- x^2 / ((k + 1) (k + 2))]. *)
Fixpoint series (n : nat) (x2 term k : float) : float :=
  match n with
  | O => term
  | S n' => (term + series n' x2 (- term * x2 / ((k + 1) * (k + 2))) (k + 2))%float
  end.

Definition cos (x : float) : float := series 24 (x * x) 1 0.

Definition sin (x : float) : float := series 24 (x * x) x 1.

End Ref.

(** ** The caller: lines 79 and 97 of the script *)

(** [zip] over the unpacked [node_coordinates]: the three columns of a
    list of triples, and nothing at all for an empty list. *)
Definition zip_star (l : list point) : list (list float) :=
  match l with
  | [] => []
  | _ :: _ => [map (fun p => p.1.1) l; map (fun p => p.1.2) l; map (fun p => p.2) l]
  end.

(** [a, b, c = items]: exactly three items, or ValueError. *)
Definition unpack3 {A : Type} (items : list A) : result (A * A * A) :=
  match items with
  | [a; b; c] => Ok (a, b, c)
  | _ => Raise ValueError
  end.

Section Caller.

Variables np_radians np_cos np_sin : float -> float.

(** Line 79, the call, and line 97, where [x_vals, y_vals, z_vals] are
    unpacked from that [zip]. *)
Definition mesh_columns
    (diameter thickness height youngs_modulus element_size : float)
  : result (list float * list float * list float) :=
  let* r :=
    generate_abaqus_input np_radians np_cos np_sin
      diameter thickness height youngs_modulus element_size in
  let node_coordinates := r.2 in
  unpack3 (zip_star node_coordinates).

End Caller.

(** ** Measures of the text and of the mesh *)

(** The number of newline characters of a text. *)
Fixpoint newlines (s : string) : nat :=
  match s with
  | EmptyString => O
  | String c s' => ((if Ascii.eqb c "010" then 1 else 0) + newlines s')%nat
  end.

(** The elements that have the node [n] as a corner. *)
Definition has_corner (n : Z) (el : Z * list Z) : bool :=
  existsb (Z.eqb n) el.2.

Definition elements_at (nc nv n : Z) : list (Z * list Z) :=
  List.filter (has_corner n) (element_table nc nv).

(** A value of sign [s] (true for minus), or a NaN. *)
Definition signed_SF (s : bool) (x : spec_float) : Prop :=
  match x with
  | S754_zero s' | S754_finite s' _ _ | S754_infinity s' => s' = s
  | S754_nan => True
  end.

(** A double that compares below [0.0]: a negative finite value or
    [-inf]. *)
Definition negative_SF (x : spec_float) : Prop :=
  match x with
  | S754_finite true _ _ | S754_infinity true => True
  | _ => False
  end.

(** * Reading the text back

    Sections 6 and 8 of the specification: the text is a sequence of
    lines; the lines that follow the line [*Node], and those that follow
    the line [*Element, type=S4], up to the next keyword line, are the
    node and the element records, whose fields are separated by a comma
    and a space.  The readers below follow these words, and nothing of the
    generator: they are what a consumer of the file does. *)

Module Reader.

Open Scope string_scope.

(** The lines of a text: its pieces up to each newline, and what follows
    the last newline when that is not empty. *)
Fixpoint lines_from (cur s : string) : list string :=
  match s with
  | EmptyString => match cur with EmptyString => [] | _ => [cur] end
  | String c s' =>
      if Ascii.eqb c "010" then cur :: lines_from EmptyString s'
      else lines_from (cur ++ String c EmptyString) s'
  end.

Definition lines (s : string) : list string := lines_from EmptyString s.

(** The fields of a line: its pieces between the separators [", "]. *)
Fixpoint fields_from (cur s : string) : list string :=
  match s with
  | EmptyString => [cur]
  | String c s' =>
      match s' with
      | EmptyString => [cur ++ String c EmptyString]
      | String c' s'' =>
          if Ascii.eqb c "," && Ascii.eqb c' " "
          then cur :: fields_from EmptyString s''
          else fields_from (cur ++ String c EmptyString) s'
      end
  end.

Definition fields (s : string) : list string := fields_from EmptyString s.

(** A decimal integer: an optional minus sign and digits, nothing else. *)
Definition read_int (s : string) : option Z :=
  option_map Z.of_int (NilZero.int_of_string s).

(** A node record: an id and three coordinates, kept as they are
    written. *)
Definition read_node_line (l : string) : option (Z * (string * string * string)) :=
  match fields l with
  | [a; x; y; z] => option_map (fun id => (id, (x, y, z))) (read_int a)
  | _ => None
  end.

(** An element record: an id and four node ids. *)
Definition read_element_line (l : string) : option (Z * list Z) :=
  match fields l with
  | [a; b; c; d; e] =>
      match read_int a, read_int b, read_int c, read_int d, read_int e with
      | Some id, Some n1, Some n2, Some n3, Some n4 => Some (id, [n1; n2; n3; n4])
      | _, _, _, _, _ => None
      end
  | _ => None
  end.

(** A keyword line begins with a star. *)
Definition is_keyword (l : string) : bool :=
  match l with
  | String c _ => Ascii.eqb c "*"
  | EmptyString => false
  end.

(** The lines after the first line [keyword]. *)
Fixpoint after (keyword : string) (ls : list string) : option (list string) :=
  match ls with
  | [] => None
  | l :: ls' => if String.eqb l keyword then Some ls' else after keyword ls'
  end.

(** The records of a block: the lines up to the next keyword line. *)
Fixpoint records (ls : list string) : list string :=
  match ls with
  | [] => []
  | l :: ls' => if is_keyword l then [] else l :: records ls'
  end.

Fixpoint read_all {A : Type} (read : string -> option A) (ls : list string)
  : option (list A) :=
  match ls with
  | [] => Some []
  | l :: ls' =>
      match read l, read_all read ls' with
      | Some a, Some l' => Some (a :: l')
      | _, _ => None
      end
  end.

Definition block (keyword text : string) : option (list string) :=
  option_map records (after keyword (lines text)).

(** The nodes and the elements a text holds; [None] when the block is
    missing or one of its records is not well formed. *)
Definition read_nodes (text : string) : option (list (Z * (string * string * string))) :=
  match block "*Node" text with
  | Some ls => read_all read_node_line ls
  | None => None
  end.

Definition read_elements (text : string) : option (list (Z * list Z)) :=
  match block "*Element, type=S4" text with
  | Some ls => read_all read_element_line ls
  | None => None
  end.

(** A fixed-point decimal with exactly three decimals: an optional minus
    sign, digits, a point and three digits.  The result is the sign and
    the number of thousandths. *)
Fixpoint split_point (cur s : string) : option (string * string) :=
  match s with
  | EmptyString => None
  | String c s' =>
      if Ascii.eqb c "." then Some (cur, s')
      else split_point (cur ++ String c EmptyString) s'
  end.

Definition read_digits (s : string) : option Z :=
  option_map Z.of_uint (NilZero.uint_of_string s).

Definition read_fixed3 (s : string) : option (bool * Z) :=
  let '(neg, body) :=
    match s with
    | String c s' => if Ascii.eqb c "-" then (true, s') else (false, s)
    | EmptyString => (false, s)
    end in
  match split_point EmptyString body with
  | Some (ip, fr) =>
      if Nat.eqb (String.length fr) 3 then
        match read_digits ip, read_digits fr with
        | Some a, Some b => Some (neg, a * 1000 + b)
        | _, _ => None
        end
      else None
  | None => None
  end.

End Reader.

(** The character [c] does not occur in [s]. *)
Fixpoint lacks (c : ascii) (s : string) : bool :=
  match s with
  | EmptyString => true
  | String a s' => negb (Ascii.eqb a c) && lacks c s'
  end.

(** The three coordinates of a node as the text carries them. *)
Definition node_fields (n : Z * point) : Z * (string * string * string) :=
  (n.1, (Fmt.format_3f n.2.1.1, Fmt.format_3f n.2.1.2, Fmt.format_3f n.2.2)).

(** The value of a sign and a number of thousandths. *)
Definition fixed3_value (v : bool * Z) : R :=
  ((if v.1 then -1 else 1) * (IZR v.2 / 1000))%R.

(** A coordinate [x] as the format [.3f] of section 6 writes it: a finite
    value as a decimal with exactly three decimals, the nearest to [x]
    (of two nearest, the one with an even last digit); an infinity or a
    NaN, which has no decimal, by its name. *)
Definition written_3f (x : float) (field : string) : Prop :=
  match Py.SF x with
  | S754_nan => field = "nan"%string
  | S754_infinity s => field = (if s then "-inf" else "inf")%string
  | S754_zero _ | S754_finite _ _ _ =>
      exists v,
        Reader.read_fixed3 field = Some v
        /\ 0 <= v.2
        /\ (Rabs (fixed3_value v - F2R x) <= 1 / 2000)%R
        /\ (Rabs (fixed3_value v - F2R x) = 1 / 2000 -> Z.even v.2 = true)%R
  end.

(** * Properties *)

(** ** The model at work *)

Example float_int_examples :
  map Py.float_int [62.75; -62.75; 0x1.8p+60; -0; 0x1p-1074]%float
  = map Ok [62; -62; 1729382256910270464; 0; 0].
Proof. vm_compute. reflexivity. Qed.

Example int_truediv_examples :
  map (fun ab => Py.int_truediv ab.1 ab.2) [(61, 62); (1, 3); (0, 62); (7, 0)]
  = [Ok 0x1.f7bdef7bdef7cp-1; Ok 0x1.5555555555555p-2; Ok 0; Raise ZeroDivisionError]%float.
Proof. vm_compute. reflexivity. Qed.

Example format_3f_examples :
  map Fmt.format_3f [60; 0.5; 2.0625; -0; -59.75; 0x1p-20; 0.1875; infinity; nan]%float
  = ["60.000"; "0.500"; "2.062"; "-0.000"; "-59.750"; "0.000"; "0.188"; "inf"; "nan"]%string.
Proof. vm_compute. reflexivity. Qed.

Example float_repr_examples :
  map Fmt.float_repr
    [29000000; 1.125; 6; 0.5; 0x1p-20; 0x1p70; lit_3_1416; 0x1.4f8b588e368f1p-17]%float
  = ["29000000.0"; "1.125"; "6.0"; "0.5"; "9.5367431640625e-07";
     "1.1805916207174113e+21"; "3.1416"; "1e-05"]%string.
Proof. vm_compute. reflexivity. Qed.

Example default_counts :
  num_circumferential 120 6 = Ok 62 /\ num_vertical 270 6 = Ok 45.
Proof. split; reflexivity. Qed.

Example element_table_3_1 :
  element_table 3 1 = [(1, [1; 2; 5; 4]); (2, [2; 3; 6; 5]); (3, [3; 1; 4; 6])].
Proof. reflexivity. Qed.

(** A whole run: diameter 1.0, thickness 0.125, height 1.0, modulus
    200000.0, element size 1.0, that is 3 columns and 1 ring of elements. *)
Example small_mesh :
  match generate_abaqus_input Ref.radians Ref.cos Ref.sin 1 0.125 1 200000 1 with
  | Ok (inp_content, byte_data, node_coordinates) =>
      inp_content
      = unlines
          ["** Abaqus Input File for Shell Model of a Vessel";
           "*Heading";
           "Pressure Vessel Model";
           "";
           "*Part, name=Vessel";
           "*Node";
           "1, 0.500, 0.000, 0.000";
           "2, -0.250, 0.433, 0.000";
           "3, -0.250, -0.433, 0.000";
           "4, 0.500, 0.000, 1.000";
           "5, -0.250, 0.433, 1.000";
           "6, -0.250, -0.433, 1.000";
           "*Element, type=S4";
           "1, 1, 2, 5, 4";
           "2, 2, 3, 6, 5";
           "3, 3, 1, 4, 6";
           "*End Part";
           "";
           "*Material, name=Steel";
           "*Elastic";
           "200000.0, 0.3";
           "";
           "*Shell Section, elset=ALL_ELEMENTS, material=Steel, thickness=0.125";
           "*Assembly, name=Assembly";
           "*Instance, name=Vessel-1, part=Vessel";
           "*End Instance";
           "*End Assembly";
           "";
           "*Step, name=StaticStep, nlgeom=YES";
           "*Static";
           "1.0, 1.0, 1e-05, 1.0";
           "";
           "*End Step"]%string
      /\ length byte_data = String.length inp_content
      /\ length node_coordinates = 6%nat
  | Raise _ => False
  end.
Proof. vm_compute. repeat split. Qed.

Example zero_element_size :
  generate_abaqus_input Ref.radians Ref.cos Ref.sin 120 1.125 270 29000000 0
  = Raise ZeroDivisionError.
Proof. reflexivity. Qed.


(** ** Rounding to binary64 *)

Section Rounding.

Lemma digits2_pos_log2 p : Z.pos (digits2_pos p) = Z.log2 (Z.pos p) + 1.
Proof.
induction p as [p IH|p IH|]; simpl digits2_pos; rewrite ?Pos2Z.inj_succ, ?IH.
- rewrite (Pos2Z.inj_xI p), Z.log2_succ_double by lia. lia.
- rewrite (Pos2Z.inj_xO p), Z.log2_double by lia. lia.
- reflexivity.
Qed.

Lemma Zdigits2_nonneg m : 0 <= Zdigits2 m.
Proof. destruct m; simpl; lia. Qed.

Lemma Zdigits2_bound m d : 0 <= m -> 0 <= d -> m < 2 ^ d -> Zdigits2 m <= d.
Proof.
intros Hm Hd Hlt. destruct m as [|p|p]; simpl; [lia| |lia].
rewrite digits2_pos_log2.
assert (Z.log2 (Z.pos p) < d) by (apply Z.log2_lt_pow2; lia). lia.
Qed.

Lemma Zdigits2_lt_pow2 m : 0 <= m -> m < 2 ^ Zdigits2 m.
Proof.
intros Hm. destruct m as [|p|p]; simpl; [lia| |lia].
rewrite digits2_pos_log2. apply Z.log2_spec. lia.
Qed.

Lemma Zdigits2_ge_pow2 m : 0 < m -> 2 ^ (Zdigits2 m - 1) <= m.
Proof.
intros Hm. destruct m as [|p|p]; simpl; try lia.
rewrite digits2_pos_log2. replace (Z.log2 (Z.pos p) + 1 - 1) with (Z.log2 (Z.pos p)) by lia.
apply Z.log2_spec. lia.
Qed.

Lemma shr_1_m mrs : 0 <= shr_m mrs -> shr_m (shr_1 mrs) = shr_m mrs / 2.
Proof.
destruct mrs as [m r s]. cbn [shr_m]. intros Hm.
destruct m as [|[p|p|]|p]; cbn [shr_1 shr_m]; try lia.
- reflexivity.
- apply Z.div_unique with 1; lia.
- apply Z.div_unique with 0; lia.
- reflexivity.
Qed.

Lemma pow2_xO p : 2 ^ Z.pos p~0 = 2 ^ Z.pos p * 2 ^ Z.pos p.
Proof. replace (Z.pos p~0) with (Z.pos p + Z.pos p) by lia. apply Z.pow_add_r; lia. Qed.

Lemma pow2_xI p : 2 ^ Z.pos p~1 = 2 * (2 ^ Z.pos p * 2 ^ Z.pos p).
Proof.
replace (Z.pos p~1) with (1 + (Z.pos p + Z.pos p)) by lia.
rewrite Z.pow_add_r, Z.pow_add_r by lia. reflexivity.
Qed.

Lemma iter_shr_1_m p : forall mrs, 0 <= shr_m mrs ->
shr_m (SpecFloat.iter_pos shr_1 p mrs) = shr_m mrs / 2 ^ Z.pos p.
Proof.
induction p as [p IH|p IH|]; intros mrs Hm; cbn [SpecFloat.iter_pos].
- assert (H1 : 0 <= shr_m (shr_1 mrs)) by (rewrite shr_1_m by lia; apply Z.div_pos; lia).
  assert (H2 : 0 <= shr_m (SpecFloat.iter_pos shr_1 p (shr_1 mrs)))
    by (rewrite IH by lia; apply Z.div_pos; lia).
  rewrite IH, IH, shr_1_m by lia.
  rewrite !Z.div_div by lia.
  rewrite pow2_xI. reflexivity.
- assert (H2 : 0 <= shr_m (SpecFloat.iter_pos shr_1 p mrs))
    by (rewrite IH by lia; apply Z.div_pos; lia).
  rewrite IH, IH by lia.
  rewrite !Z.div_div by lia.
  rewrite pow2_xO. reflexivity.
- rewrite shr_1_m by lia. reflexivity.
Qed.

Lemma fexp_eq e : fexp prec emax e = Z.max (e - 53) (-1074).
Proof. reflexivity. Qed.

Lemma shr_record_of_loc_m m l : shr_m (shr_record_of_loc m l) = m.
Proof. destruct l as [|[]]; reflexivity. Qed.

Lemma shr_fexp_snd m e l :
snd (shr_fexp prec emax m e l) = Z.max e (fexp prec emax (Zdigits2 m + e)).
Proof.
unfold shr_fexp, shr.
destruct (fexp prec emax (Zdigits2 m + e) - e) eqn:E; cbn [snd]; lia.
Qed.

Lemma shr_fexp_fst m e l : 0 <= m ->
shr_m (fst (shr_fexp prec emax m e l))
= m / 2 ^ (Z.max e (fexp prec emax (Zdigits2 m + e)) - e).
Proof.
intros Hm. unfold shr_fexp, shr.
destruct (fexp prec emax (Zdigits2 m + e) - e) eqn:E; cbn [fst].
- rewrite shr_record_of_loc_m. replace (Z.max _ _ - e) with 0 by lia.
  rewrite Z.div_1_r. reflexivity.
- rewrite iter_shr_1_m by (rewrite shr_record_of_loc_m; lia).
  rewrite shr_record_of_loc_m. f_equal. f_equal. lia.
- rewrite shr_record_of_loc_m. replace (Z.max _ _ - e) with 0 by lia.
  rewrite Z.div_1_r. reflexivity.
Qed.

Lemma round_nearest_even_bounds m l :
m <= round_nearest_even m l <= m + 1.
Proof.
unfold round_nearest_even. destruct l as [|[]]; try lia.
destruct (Z.even m); lia.
Qed.

(** The rounding step yields a finite value as soon as the second
  alignment ends at an exponent not above [emax - prec]. *)
Lemma binary_round_aux_not_inf sx mx ex lx :
(forall mrs e1, shr_fexp prec emax mx ex lx = (mrs, e1) ->
   snd (shr_fexp prec emax
          (round_nearest_even (shr_m mrs) (loc_of_shr_record mrs)) e1 loc_Exact)
     <= 971) ->
not_inf (binary_round_aux prec emax sx mx ex lx).
Proof.
intros H. unfold binary_round_aux.
destruct (shr_fexp prec emax mx ex lx) as [mrs e1] eqn:E1.
specialize (H mrs e1 eq_refl).
destruct (shr_fexp prec emax _ e1 loc_Exact) as [mrs2 e2] eqn:E2.
cbn [snd] in H.
destruct (shr_m mrs2); cbn; auto.
replace (e2 <=? emax - prec) with true; [exact I|].
symmetry. apply Z.leb_le. change (emax - prec) with 971. lia.
Qed.

Lemma binary_round_aux_small sx mx ex lx B :
0 <= mx -> 0 <= B -> mx < 2 ^ B -> B + ex <= 1023 -> ex <= 970 ->
not_inf (binary_round_aux prec emax sx mx ex lx).
Proof.
intros Hm HB Hlt HBe He.
apply binary_round_aux_not_inf. intros mrs e1 E1.
assert (He1 : e1 = Z.max ex (fexp prec emax (Zdigits2 mx + ex))).
{ rewrite <- (shr_fexp_snd mx ex lx), E1. reflexivity. }
assert (Hm1 : shr_m mrs = mx / 2 ^ (e1 - ex)).
{ rewrite He1, <- (shr_fexp_fst mx ex lx Hm), E1. reflexivity. }
assert (Hd : Zdigits2 mx <= B) by (apply Zdigits2_bound; lia).
rewrite fexp_eq in He1.
assert (He1' : ex <= e1 <= 970) by lia.
rewrite shr_fexp_snd.
set (m2 := round_nearest_even (shr_m mrs) (loc_of_shr_record mrs)).
assert (Hm2 : shr_m mrs <= m2 <= shr_m mrs + 1) by apply round_nearest_even_bounds.
assert (Hq : 0 <= shr_m mrs < 2 ^ (1023 - e1)).
{ rewrite Hm1. split.
  - apply Z.div_pos; [lia|]. apply Z.pow_pos_nonneg; lia.
  - apply Z.div_lt_upper_bound; [apply Z.pow_pos_nonneg; lia|].
    rewrite <- Z.pow_add_r by lia.
    apply Z.lt_le_trans with (2 ^ B); [exact Hlt|].
    apply Z.pow_le_mono_r; lia. }
assert (Hd2 : Zdigits2 m2 <= 1024 - e1).
{ apply Zdigits2_bound; [lia|lia|].
  replace (1024 - e1) with (Z.succ (1023 - e1)) by lia.
  rewrite Z.pow_succ_r by lia. lia. }
rewrite fexp_eq. lia.
Qed.

Lemma SF_of_ratio_not_inf a b : 0 <= a < b -> not_inf (Py.SF_of_ratio a b).
Proof.
intros Hab. unfold Py.SF_of_ratio, Py.round_SF.
destruct a as [|p|p]; [exact I| |lia].
unfold SFdiv_core_binary.
rewrite (Z.abs_eq (Z.pos p)), (Z.abs_eq b) by lia.
set (e' := Z.min (fexp prec emax (Zdigits2 (Z.pos p) + 0 - (Zdigits2 b + 0))) (0 - 0)).
assert (He' : -1074 <= e' <= 0) by (unfold e'; rewrite fexp_eq; lia).
set (m' := match 0 - 0 - e' with
           | 0 => Z.pos p
           | Z.pos _ => Z.shiftl (Z.pos p) (0 - 0 - e')
           | Z.neg _ => 0
           end).
assert (Hm' : m' = Z.pos p * 2 ^ (- e')).
{ unfold m'. destruct (0 - 0 - e') eqn:E.
  - replace (- e') with 0 by lia. lia.
  - rewrite Z.shiftl_mul_pow2 by lia. f_equal. f_equal. lia.
  - lia. }
pose proof (Z.div_eucl_eq m' b ltac:(lia)) as Heq.
pose proof (Z.mod_pos_bound m' b ltac:(lia)) as Hr.
unfold Z.modulo in Hr.
destruct (Z.div_eucl m' b) as [q r].
assert (Hp : 0 < 2 ^ (- e')) by (apply Z.pow_pos_nonneg; lia).
assert (Hq : 0 <= q < 2 ^ (- e')) by nia.
apply binary_round_aux_small with (B := - e'); lia.
Qed.

Lemma pos_iter_xO p k : Z.pos (Pos.iter xO p k) = Z.pos p * 2 ^ Z.pos k.
Proof.
induction k as [|k IH] using Pos.peano_ind.
- cbn [Pos.iter]. lia.
- rewrite Pos.iter_succ, Pos2Z.inj_xO, IH, Pos2Z.inj_succ, Z.pow_succ_r by lia. lia.
Qed.

Lemma divide_pow2_split m a b :
0 <= a -> 0 <= b -> (2 ^ (a + b) | m) -> (2 ^ a | m) /\ (2 ^ b | m / 2 ^ a).
Proof.
intros Ha Hb [c Hc]. rewrite Z.pow_add_r in Hc by lia.
assert (0 < 2 ^ a) by (apply Z.pow_pos_nonneg; lia).
split.
- exists (c * 2 ^ b). lia.
- exists c. subst m. replace (c * (2 ^ a * 2 ^ b)) with (c * 2 ^ b * 2 ^ a) by lia.
  rewrite Z.div_mul by lia. reflexivity.
Qed.

Lemma shr_1_exact mrs :
0 <= shr_m mrs -> (2 | shr_m mrs) -> shr_r mrs = false -> shr_s mrs = false ->
shr_r (shr_1 mrs) = false /\ shr_s (shr_1 mrs) = false.
Proof.
destruct mrs as [m r s]. cbn [shr_m shr_r shr_s]. intros Hm [c Hc] -> ->.
destruct m as [|[p|p|]|p]; cbn [shr_1 shr_r shr_s orb]; auto; lia.
Qed.

Lemma iter_shr_1_exact p : forall mrs,
0 <= shr_m mrs -> (2 ^ Z.pos p | shr_m mrs) ->
shr_r mrs = false -> shr_s mrs = false ->
shr_r (SpecFloat.iter_pos shr_1 p mrs) = false
/\ shr_s (SpecFloat.iter_pos shr_1 p mrs) = false.
Proof.
induction p as [p IH|p IH|]; intros mrs Hm Hdiv Hr Hs; cbn [SpecFloat.iter_pos].
- replace (Z.pos p~1) with (1 + (Z.pos p + Z.pos p)) in Hdiv by lia.
  apply divide_pow2_split in Hdiv as [H1 H2]; [|lia|lia].
  apply divide_pow2_split in H2 as [H2 H3]; [|lia|lia].
  change (2 ^ 1) with 2 in *.
  destruct (shr_1_exact mrs Hm H1 Hr Hs) as [Hr1 Hs1].
  assert (Hm1 : shr_m (shr_1 mrs) = shr_m mrs / 2) by (apply shr_1_m; lia).
  assert (0 <= shr_m mrs / 2) by (apply Z.div_pos; lia).
  destruct (IH (shr_1 mrs)) as [Hr2 Hs2]; try (rewrite ?Hm1; assumption).
  apply IH; try assumption.
  + rewrite iter_shr_1_m, Hm1 by lia. apply Z.div_pos; [lia|]. apply Z.pow_pos_nonneg; lia.
  + rewrite iter_shr_1_m, Hm1 by lia. exact H3.
- replace (Z.pos p~0) with (Z.pos p + Z.pos p) in Hdiv by lia.
  apply divide_pow2_split in Hdiv as [H1 H2]; [|lia|lia].
  destruct (IH mrs) as [Hr2 Hs2]; try assumption.
  apply IH; try assumption.
  + rewrite iter_shr_1_m by lia. apply Z.div_pos; [lia|]. apply Z.pow_pos_nonneg; lia.
  + rewrite iter_shr_1_m by lia. exact H2.
- apply shr_1_exact; assumption.
Qed.

Lemma shr_fexp_exact m e :
0 <= m ->
(2 ^ (Z.max e (fexp prec emax (Zdigits2 m + e)) - e) | m) ->
loc_of_shr_record (fst (shr_fexp prec emax m e loc_Exact)) = loc_Exact.
Proof.
intros Hm Hdiv. unfold shr_fexp, shr in *.
destruct (fexp prec emax (Zdigits2 m + e) - e) eqn:E; cbn [fst]; try reflexivity.
replace (Z.max _ _ - e) with (Z.pos p) in Hdiv by lia.
destruct (iter_shr_1_exact p (shr_record_of_loc m loc_Exact)) as [Hr Hs];
  try reflexivity; try assumption.
destruct (SpecFloat.iter_pos shr_1 p _) as [m' r s]. cbn in Hr, Hs. subst. reflexivity.
Qed.

Lemma max_double_lt : max_double < 2 ^ 1024.
Proof. reflexivity. Qed.

Lemma SF_of_int_not_inf n : 0 <= n <= max_double -> not_inf (Py.SF_of_int n).
Proof.
intros Hn. unfold Py.SF_of_int, binary_normalize.
destruct n as [|p|p]; [exact I| |lia].
unfold binary_round, shl_align.
change (Z.pos (digits2_pos p)) with (Zdigits2 (Z.pos p)).
set (d := Zdigits2 (Z.pos p)).
assert (Hd1 : d <= 1024).
{ apply Zdigits2_bound; [lia|lia|]. pose proof max_double_lt. lia. }
assert (Hd0 : Z.pos p < 2 ^ d) by (apply Zdigits2_lt_pow2; lia).
assert (Hd2 : 0 <= d) by apply Zdigits2_nonneg.
rewrite fexp_eq.
destruct (Z.max (d + 0 - 53) (-1074) - 0) as [|k|k] eqn:E.
- apply binary_round_aux_small with (B := d); lia.
- destruct (Z_le_gt_dec d 1023) as [Hle|Hgt].
  + apply binary_round_aux_small with (B := d); lia.
  + assert (d = 1024) by lia.
    apply binary_round_aux_not_inf. intros mrs e1 E1.
    assert (He1 : e1 = 971).
    { pose proof (shr_fexp_snd (Z.pos p) 0 loc_Exact) as Hs.
      rewrite E1 in Hs. cbn [snd] in Hs. rewrite Hs, fexp_eq. fold d. lia. }
    assert (Hm1 : shr_m mrs = Z.pos p / 2 ^ 971).
    { pose proof (shr_fexp_fst (Z.pos p) 0 loc_Exact ltac:(lia)) as Hs.
      rewrite E1 in Hs. cbn [fst] in Hs. rewrite Hs, fexp_eq. fold d.
      f_equal. f_equal. lia. }
    assert (Hq : 0 <= shr_m mrs <= 2 ^ 53 - 1).
    { rewrite Hm1. split; [apply Z.div_pos; lia|].
      apply Z.lt_succ_r. apply Z.div_lt_upper_bound; [lia|].
      unfold max_double in Hn. lia. }
    set (m2 := round_nearest_even (shr_m mrs) (loc_of_shr_record mrs)).
    assert (Hm2 : 0 <= m2 < 2 ^ 53).
    { pose proof (round_nearest_even_bounds (shr_m mrs) (loc_of_shr_record mrs)) as Hb.
      fold m2 in Hb.
      destruct (Z.eq_dec (shr_m mrs) (2 ^ 53 - 1)) as [Heq|Hne]; [|lia].
      assert (Hp : Z.pos p = max_double).
      { pose proof (Z.div_mod (Z.pos p) (2 ^ 971) ltac:(lia)) as Hdm.
        pose proof (Z.mod_pos_bound (Z.pos p) (2 ^ 971) ltac:(lia)) as Hmb.
        rewrite <- Hm1, Heq in Hdm. unfold max_double in *. lia. }
      assert (Hx : loc_of_shr_record mrs = loc_Exact).
      { replace mrs with (fst (shr_fexp prec emax (Z.pos p) 0 loc_Exact))
          by (rewrite E1; reflexivity).
        apply shr_fexp_exact; [lia|].
        rewrite fexp_eq. fold d. replace (Z.max 0 (Z.max (d + 0 - 53) (-1074)) - 0) with 971 by lia.
        exists (2 ^ 53 - 1). rewrite Hp. reflexivity. }
      unfold m2. rewrite Hx. cbn [round_nearest_even]. lia. }
    rewrite shr_fexp_snd, fexp_eq, He1.
    assert (Zdigits2 m2 <= 53) by (apply Zdigits2_bound; lia).
    lia.
- rewrite pos_iter_xO.
  assert (0 < 2 ^ Z.pos k) by (apply Z.pow_pos_nonneg; lia).
  apply binary_round_aux_small with (B := d + Z.pos k); try lia.
  rewrite Z.pow_add_r by lia. nia.
Qed.

End Rounding.

(** ** The Python number operations *)

Section PyFacts.

Lemma float_of_int_ok n :
  0 <= n <= max_double ->
  Py.float_of_int n = Ok (SF2Prim (Py.SF_of_int n)).
Proof.
  intros Hn. unfold Py.float_of_int.
  pose proof (SF_of_int_not_inf n Hn) as Hf.
  destruct (Py.SF_of_int n); try reflexivity. destruct Hf.
Qed.

Lemma int_truediv_ok a b :
  0 <= a < b ->
  Py.int_truediv a b = Ok (SF2Prim (Py.SF_of_ratio a b)).
Proof.
  intros Hab. unfold Py.int_truediv.
  destruct (Z.eqb_spec b 0) as [->|_]; [lia|].
  pose proof (SF_of_ratio_not_inf a b Hab) as Hf.
  destruct (Py.SF_of_ratio a b); try reflexivity. destruct Hf.
Qed.

Lemma int_mul_float_ok n x :
  0 <= n <= max_double ->
  Py.int_mul_float n x = Ok (SF2Prim (Py.SF_of_int n) * x)%float.
Proof.
  intros Hn. unfold Py.int_mul_float. rewrite float_of_int_ok by exact Hn.
  reflexivity.
Qed.

Lemma int_mod_ok a b : b <> 0 -> Py.int_mod a b = Ok (a mod b).
Proof.
  intros Hb. unfold Py.int_mod.
  destruct (Z.eqb_spec b 0); [contradiction|reflexivity].
Qed.

Lemma float_truediv_int_2 x : Py.float_truediv_int x 2 = Ok (x / 2)%float.
Proof. reflexivity. Qed.

(** A finite double has a mantissa below [2^53] and an exponent in
    [-1074 .. 971]. *)
Lemma finite_bounds x s m e :
  Py.SF x = S754_finite s m e -> Z.pos m < 2 ^ 53 /\ -1074 <= e <= 971.
Proof.
  intros Hx. pose proof (Prim2SF_valid x) as Hv.
  unfold Py.SF in Hx. rewrite Hx in Hv.
  unfold SpecFloat.valid_binary, bounded, canonical_mantissa in Hv.
  apply andb_prop in Hv as [Hc He].
  apply Z.eqb_eq in Hc. apply Z.leb_le in He.
  change (emax - prec) with 971 in He. rewrite fexp_eq in Hc.
  change (Z.pos (digits2_pos m)) with (Zdigits2 (Z.pos m)) in Hc.
  pose proof (Zdigits2_lt_pow2 (Z.pos m) ltac:(lia)) as Hlt.
  split; [|lia].
  apply Z.lt_le_trans with (1 := Hlt). apply Z.pow_le_mono_r; lia.
Qed.

Lemma shiftl_magnitude m e :
  Z.pos m < 2 ^ 53 -> e <= 971 -> 0 <= Z.shiftl (Z.pos m) e <= max_double.
Proof.
  intros Hm He. unfold max_double.
  destruct (Z_le_gt_dec 0 e) as [Hpos|Hneg].
  - rewrite Z.shiftl_mul_pow2 by lia.
    assert (0 < 2 ^ e <= 2 ^ 971)
      by (split; [apply Z.pow_pos_nonneg; lia|apply Z.pow_le_mono_r; lia]).
    nia.
  - rewrite Z.shiftl_div_pow2 by lia.
    assert (0 < 2 ^ (- e)) by (apply Z.pow_pos_nonneg; lia).
    assert (0 <= Z.pos m / 2 ^ (- e) <= Z.pos m).
    { split; [apply Z.div_pos; lia|]. apply Z.div_le_upper_bound; nia. }
    assert (0 < 2 ^ 971) by (apply Z.pow_pos_nonneg; lia).
    nia.
Qed.

Lemma float_int_bound x n :
  Py.float_int x = Ok n -> - max_double <= n <= max_double.
Proof.
  unfold Py.float_int. intros H.
  destruct (Py.SF x) as [s|s| |s m e] eqn:Hx; try discriminate.
  - inversion H. unfold max_double. lia.
  - destruct (finite_bounds x s m e Hx) as [Hm He].
    pose proof (shiftl_magnitude m e Hm ltac:(lia)).
    destruct s; inversion H; lia.
Qed.

Lemma float_int_finite x : finite x -> exists n, Py.float_int x = Ok n.
Proof.
  unfold finite, Py.float_int. destruct (Py.SF x); intros H; try destruct H; eauto.
Qed.

Lemma float_int_Ok_finite x n : Py.float_int x = Ok n -> finite x.
Proof.
  unfold finite, Py.float_int. destruct (Py.SF x); intros H; try discriminate; exact I.
Qed.

End PyFacts.

(** ** Strings *)

Section Strings.

Open Scope string_scope.

Lemma append_cons c s t : String c s ++ t = String c (s ++ t).
Proof. reflexivity. Qed.

Lemma append_nil_l s : "" ++ s = s.
Proof. reflexivity. Qed.

Lemma append_nil_r s : s ++ "" = s.
Proof.
  induction s as [|c s IH]; [reflexivity|]. now rewrite append_cons, IH.
Qed.

Lemma append_assoc s1 s2 s3 : (s1 ++ s2) ++ s3 = s1 ++ (s2 ++ s3).
Proof.
  induction s1 as [|c s1 IH]; [reflexivity|]. now rewrite !append_cons, IH.
Qed.

Lemma join_app l1 l2 : join (l1 ++ l2)%list = join l1 ++ join l2.
Proof.
  induction l1 as [|s l1 IH]; cbn [join fold_right app]; [reflexivity|].
  fold (join (l1 ++ l2)%list). fold (join l1). now rewrite IH, append_assoc.
Qed.

Lemma join_flat_map {A B : Type} (f : B -> string) (g : A -> list B) l :
  join (map f (flat_map g l)) = join (map (fun a => join (map f (g a))) l).
Proof.
  induction l as [|a l IH]; cbn [flat_map map]; [reflexivity|].
  rewrite map_app, join_app, IH. reflexivity.
Qed.

Lemma all_ascii_app s1 s2 :
  Utf8.all_ascii (s1 ++ s2) = Utf8.all_ascii s1 && Utf8.all_ascii s2.
Proof.
  induction s1 as [|c s1 IH]; [reflexivity|].
  rewrite append_cons. cbn [Utf8.all_ascii]. now rewrite IH, andb_assoc.
Qed.

Lemma all_ascii_join l :
  Forall (fun s => Utf8.all_ascii s = true) l -> Utf8.all_ascii (join l) = true.
Proof.
  induction 1 as [|s l Hs _ IH]; [reflexivity|].
  change (join (s :: l)) with (s ++ join l).
  now rewrite all_ascii_app, Hs, IH.
Qed.

Lemma all_ascii_substring s : Utf8.all_ascii s = true ->
  forall n m, Utf8.all_ascii (substring n m s) = true.
Proof.
  induction s as [|c s IH]; intros Hs n m.
  - destruct n, m; reflexivity.
  - cbn in Hs. apply andb_prop in Hs as [Hc Hs].
    destruct n as [|n]; cbn.
    + destruct m as [|m]; cbn; [reflexivity|]. now rewrite Hc, IH.
    + now apply IH.
Qed.

(** UTF-8 leaves an ASCII string as it is, one byte per character. *)
Lemma encode_ascii s :
  Utf8.all_ascii s = true -> Utf8.encode s = Ok (ascii_bytes s).
Proof.
  unfold ascii_bytes. induction s as [|c s IH]; cbn; [reflexivity|].
  intros H. apply andb_prop in H as [Hc Hs].
  rewrite (IH Hs). unfold Utf8.encode_code_point.
  unfold Utf8.is_ascii in Hc. rewrite Hc. cbn.
  unfold Utf8.byte_of. now rewrite ascii_N_embedding.
Qed.

End Strings.

(** ** Loops *)

Section Loops.

Context {S : Type}.

Lemma for_from_S (body : Z -> S -> result S) i k s :
  for_from body i (Datatypes.S k) s
  = (let* s' := body i s in for_from body (i + 1) k s').
Proof. reflexivity. Qed.

Lemma for_range_nonpos (body : Z -> S -> result S) n s :
  n <= 0 -> for_range n body s = Ok s.
Proof.
  intros Hn. unfold for_range. replace (Z.to_nat n) with O by lia. reflexivity.
Qed.

(** A loop whose body preserves an invariant indexed by the loop counter
    runs to its end and establishes the invariant there. *)
Lemma for_from_invariant (Inv : Z -> S -> Prop) (body : Z -> S -> result S) :
  forall k i s,
    Inv i s ->
    (forall j t, i <= j < i + Z.of_nat k -> Inv j t ->
       exists t', body j t = Ok t' /\ Inv (j + 1) t') ->
    exists s', for_from body i k s = Ok s' /\ Inv (i + Z.of_nat k) s'.
Proof.
  induction k as [|k IH]; intros i s Hs Hbody.
  - exists s. split; [reflexivity|]. now replace (i + Z.of_nat 0) with i by lia.
  - destruct (Hbody i s ltac:(lia) Hs) as (t & Ht & Hinv).
    destruct (IH (i + 1) t Hinv) as (s' & Hs' & Hinv').
    { intros j u Hj Hu. apply Hbody; [lia|exact Hu]. }
    exists s'. rewrite for_from_S, Ht. cbn. split; [exact Hs'|].
    now replace (i + Z.of_nat (Datatypes.S k)) with (i + 1 + Z.of_nat k) by lia.
Qed.

End Loops.

(** ** The grid *)

Section Grid.

Lemma seqZ_snoc n : 0 <= n -> seqZ 0 (n + 1) = seqZ 0 n ++ [n].
Proof.
  intros Hn. rewrite seqZ_app by lia. reflexivity.
Qed.

Lemma grid_snoc rows cols :
  0 <= rows ->
  grid (rows + 1) cols = grid rows cols ++ map (fun j => (rows, j)) (seqZ 0 cols).
Proof.
  intros Hr. unfold grid. rewrite seqZ_snoc by lia.
  rewrite flat_map_app. cbn [flat_map]. now rewrite app_nil_r.
Qed.

Lemma grid_nil_rows rows cols : rows <= 0 -> grid rows cols = [].
Proof. intros H. unfold grid. now rewrite (seqZ_nil 0 rows). Qed.

Lemma grid_nil_cols rows cols : cols <= 0 -> grid rows cols = [].
Proof.
  intros H. unfold grid. rewrite (seqZ_nil 0 cols) by lia.
  induction (seqZ 0 rows) as [|i l IH]; [reflexivity|exact IH].
Qed.

Lemma nth_error_list_lookup {A : Type} (l : list A) n : nth_error l n = l !! n.
Proof. revert n. induction l as [|a l IH]; intros [|n]; cbn; auto. Qed.

Lemma in_seqZ m n k : In k (seqZ m n) <-> m <= k < m + n.
Proof. rewrite <- list_elem_of_In. apply elem_of_seqZ. Qed.

Lemma in_grid rows cols i j :
  In (i, j) (grid rows cols) <-> 0 <= i < rows /\ 0 <= j < cols.
Proof.
  unfold grid. rewrite in_flat_map. split.
  - intros (i' & Hi & Hj). apply in_map_iff in Hj as (j' & Heq & Hj).
    inversion Heq; subst. apply in_seqZ in Hi, Hj. lia.
  - intros [Hi Hj]. exists i. split; [apply in_seqZ; lia|].
    apply in_map_iff. exists j. split; [reflexivity|apply in_seqZ; lia].
Qed.

Lemma length_grid rows cols :
  0 <= rows -> 0 <= cols -> Z.of_nat (length (grid rows cols)) = rows * cols.
Proof.
  intros Hr Hc. rewrite <- (Z2Nat.id rows Hr).
  induction (Z.to_nat rows) as [|k IH].
  - now rewrite grid_nil_rows.
  - rewrite Nat2Z.inj_succ, <- Z.add_1_r, grid_snoc by lia.
    rewrite length_app, length_map, length_seqZ, Nat2Z.inj_add, IH. lia.
Qed.

(** In loop order the ids are [1, 2, 3, ...]. *)
Lemma grid_ids rows cols :
  0 <= rows -> 0 <= cols ->
  map (fun ij => grid_id cols ij.1 ij.2) (grid rows cols) = seqZ 1 (rows * cols).
Proof.
  intros Hr Hc. rewrite <- (Z2Nat.id rows Hr).
  induction (Z.to_nat rows) as [|k IH].
  - rewrite grid_nil_rows by lia. now rewrite seqZ_nil by lia.
  - rewrite Nat2Z.inj_succ, <- Z.add_1_r, grid_snoc by lia.
    rewrite map_app, IH, map_map. cbn [fst snd].
    replace ((Z.of_nat k + 1) * cols) with (Z.of_nat k * cols + cols) by lia.
    rewrite (seqZ_app 1) by lia. f_equal.
    replace (1 + Z.of_nat k * cols) with (1 + Z.of_nat k * cols + 0) by lia.
    rewrite <- (fmap_add_seqZ (1 + Z.of_nat k * cols) 0 cols).
    change (map (fun j => grid_id cols (Z.of_nat k) j) (seqZ 0 cols)
            = map (Z.add (1 + Z.of_nat k * cols)) (seqZ 0 cols)). apply map_ext. intros j. unfold grid_id. lia.
Qed.

(** The position of [(i, j)] in loop order. *)
Lemma grid_lookup rows cols i j :
  0 <= i < rows -> 0 <= j < cols ->
  nth_error (grid rows cols) (Z.to_nat (i * cols + j)) = Some (i, j).
Proof.
  intros Hi Hj.
  assert (Hr : 0 <= rows) by lia. revert Hi. rewrite <- (Z2Nat.id rows Hr).
  induction (Z.to_nat rows) as [|k IH]; intros Hi; [lia|].
  rewrite Nat2Z.inj_succ, <- Z.add_1_r, grid_snoc by lia.
  assert (Hlen : length (grid (Z.of_nat k) cols) = Z.to_nat (Z.of_nat k * cols)).
  { rewrite <- (length_grid (Z.of_nat k) cols) by lia. now rewrite Nat2Z.id. }
  destruct (Z_lt_ge_dec i (Z.of_nat k)) as [Hlt|Hge].
  - rewrite nth_error_app1 by (rewrite Hlen; nia). apply IH. lia.
  - assert (i = Z.of_nat k) by lia. subst i.
    rewrite nth_error_app2 by (rewrite Hlen; nia).
    rewrite Hlen. replace (_ - _)%nat with (Z.to_nat j) by nia.
    rewrite nth_error_map.
    assert (Hs : nth_error (seqZ 0 cols) (Z.to_nat j) = Some j).
    { rewrite nth_error_list_lookup. apply lookup_seqZ. lia. }
    now rewrite Hs.
Qed.

End Grid.

(** ** The two passes *)

Section Passes.

Variables np_radians np_cos np_sin : float -> float.
Variables (radius element_size : float) (nc : Z).

Open Scope string_scope.

Abbreviation node_step' := (node_step np_radians np_cos np_sin radius nc).
Abbreviation node_ring' := (node_ring np_radians np_cos np_sin radius element_size nc).
Abbreviation pt := (node_point np_radians np_cos np_sin radius element_size nc).
Abbreviation ring_nodes' := (ring_nodes np_radians np_cos np_sin radius element_size nc).
Abbreviation rings_nodes' := (rings_nodes np_radians np_cos np_sin radius element_size nc).
Abbreviation ring_inv' := (ring_inv np_radians np_cos np_sin radius element_size nc).
Abbreviation rings_inv' := (rings_inv np_radians np_cos np_sin radius element_size nc).
Abbreviation ring_elements' := (ring_elements nc).
Abbreviation element_ring_inv' := (element_ring_inv nc).
Abbreviation elements_inv' := (elements_inv nc).


Lemma rings_nodes_snoc rows :
  0 <= rows -> rings_nodes' (rows + 1) = (rings_nodes' rows ++ ring_nodes' rows nc)%list.
Proof.
  intros Hr. unfold rings_nodes, ring_nodes.
  now rewrite grid_snoc, map_app, map_map by lia.
Qed.

Lemma ring_nodes_snoc i j :
  0 <= j -> ring_nodes' i (j + 1) = (ring_nodes' i j ++ [(grid_id nc i j, pt i j)])%list.
Proof.
  intros Hj. unfold ring_nodes. now rewrite seqZ_snoc, map_app by lia.
Qed.

Lemma node_step_ok i j st :
  0 <= j < nc ->
  node_step' i (ring_z element_size i) j st
  = Ok {| n_output := n_output st ++ node_line (node_id st) (pt i j).1.1 (pt i j).1.2 (pt i j).2;
          node_id := node_id st + 1;
          nodes := <[(i, j) := node_id st]> (nodes st);
          node_coordinates := (node_coordinates st ++ [pt i j])%list |}.
Proof.
  intros Hj. unfold node_step. rewrite int_truediv_ok by lia. reflexivity.
Qed.


Lemma node_ring_ok i st0 :
  0 < nc -> 0 <= i <= max_double -> node_id st0 = grid_id nc i 0 ->
  exists st, node_ring' i st0 = Ok st /\ ring_inv' i st0 nc st.
Proof.
  intros Hnc Hi Hid. unfold node_ring.
  rewrite int_mul_float_ok by lia. cbn [bind]. fold (ring_z element_size i).
  unfold for_range.
  destruct (for_from_invariant (ring_inv' i st0)
              (node_step' i (ring_z element_size i)) (Z.to_nat nc) 0 st0)
    as (st & Hst & Hinv).
  - unfold ring_inv, ring_nodes. rewrite (seqZ_nil 0 0) by lia. cbn [map join fold_right].
    rewrite append_nil_r, app_nil_r. repeat split; auto.
    intros key. destruct (decide _) as [[_ H]|_]; [lia|reflexivity].
  - intros j t Hj (Hout & Hnid & Hco & Hmap).
    rewrite node_step_ok by lia. eexists. split; [reflexivity|].
    unfold ring_inv. cbn [n_output node_id nodes node_coordinates].
    rewrite ring_nodes_snoc by lia. rewrite !map_app, join_app. cbn [map join fold_right].
    rewrite Hout, Hco, Hnid, append_nil_r, append_assoc, <- app_assoc.
    repeat split.
    + unfold grid_id. lia.
    + intros key. destruct (decide (key = (i, j))) as [->|Hne].
      * rewrite lookup_insert_eq. cbn [fst snd].
        destruct (decide _) as [_|H]; [reflexivity|lia].
      * rewrite lookup_insert_ne by congruence. rewrite Hmap.
        destruct key as [a b]. cbn [fst snd].
        destruct (decide (a = i /\ 0 <= b < j)) as [H1|H1];
          destruct (decide (a = i /\ 0 <= b < j + 1)) as [H2|H2];
          try reflexivity; try lia.
        exfalso. apply Hne. f_equal; lia.
  - exists st. split; [exact Hst|].
    now replace (0 + Z.of_nat (Z.to_nat nc)) with nc in Hinv by lia.
Qed.


Lemma node_pass_ok out0 rows :
  0 < nc -> rows <= max_double + 1 ->
  exists st,
    for_range rows node_ring'
      {| n_output := out0; node_id := 1; nodes := ∅; node_coordinates := [] |} = Ok st
    /\ rings_inv' out0 (Z.max rows 0) st.
Proof.
  intros Hnc Hrows. unfold for_range.
  destruct (for_from_invariant (rings_inv' out0) node_ring' (Z.to_nat rows) 0
              {| n_output := out0; node_id := 1; nodes := ∅; node_coordinates := [] |})
    as (st & Hst & Hinv).
  - unfold rings_inv, rings_nodes. rewrite grid_nil_rows by lia.
    cbn [map join fold_right n_output node_id nodes node_coordinates].
    rewrite append_nil_r. repeat split; auto.
    intros key. rewrite lookup_empty. destruct (decide _) as [[H _]|_]; [lia|reflexivity].
  - intros i t Hi (Hout & Hnid & Hco & Hmap).
    destruct (node_ring_ok i t Hnc ltac:(lia) Hnid) as (t' & Ht' & Hout' & Hnid' & Hco' & Hmap').
    exists t'. split; [exact Ht'|].
    unfold rings_inv. rewrite rings_nodes_snoc by lia.
    rewrite !map_app, join_app, Hout', Hco', Hout, Hco, append_assoc.
    repeat split.
    + rewrite Hnid'. unfold grid_id. lia.
    + intros key. rewrite Hmap', Hmap. destruct key as [a b]. cbn [fst snd].
      destruct (decide (a = i /\ 0 <= b < nc)) as [H1|H1];
        destruct (decide (0 <= a < i /\ 0 <= b < nc)) as [H2|H2];
        destruct (decide (0 <= a < i + 1 /\ 0 <= b < nc)) as [H3|H3];
        try reflexivity; try lia.
  - exists st. split; [exact Hst|].
    now replace (0 + Z.of_nat (Z.to_nat rows)) with (Z.max rows 0) in Hinv by lia.
Qed.

(** With no column, no ring writes anything. *)
Lemma node_pass_empty st0 rows :
  nc <= 0 -> rows <= max_double + 1 ->
  for_range rows node_ring' st0 = Ok st0.
Proof.
  intros Hnc Hrows. unfold for_range.
  destruct (for_from_invariant (fun _ st => st = st0) node_ring' (Z.to_nat rows) 0 st0)
    as (st & Hst & ->); auto.
  intros i t Hi ->. exists st0. split; [|reflexivity].
  unfold node_ring. rewrite int_mul_float_ok by lia. cbn [bind].
  now apply for_range_nonpos.
Qed.

(** *** The element pass *)

Variable node_map : gmap (Z * Z) Z.
Variable rows : Z.
Hypothesis node_map_grid :
  forall i j, 0 <= i < rows -> 0 <= j < nc -> node_map !! (i, j) = Some (grid_id nc i j).


Lemma element_table_snoc n :
  0 <= n -> element_table nc (n + 1) = (element_table nc n ++ ring_elements' n nc)%list.
Proof.
  intros Hn. unfold element_table, ring_elements.
  now rewrite grid_snoc, map_app, map_map by lia.
Qed.

Lemma ring_elements_snoc i j :
  0 <= j ->
  ring_elements' i (j + 1) = (ring_elements' i j ++ [(grid_id nc i j, quad nc i j)])%list.
Proof.
  intros Hj. unfold ring_elements. now rewrite seqZ_snoc, map_app by lia.
Qed.

Lemma subscript_grid i j :
  0 <= i < rows -> 0 <= j < nc -> subscript node_map (i, j) = Ok (grid_id nc i j).
Proof.
  intros Hi Hj. unfold subscript. now rewrite node_map_grid.
Qed.

Lemma element_step_ok i j st :
  0 <= i -> i + 1 < rows -> 0 <= j < nc ->
  element_step node_map nc i j st
  = Ok {| e_output := e_output st ++ render_element (element_id st, quad nc i j);
          element_id := element_id st + 1 |}.
Proof.
  intros Hi Hi' Hj. unfold element_step.
  pose proof (Z.mod_pos_bound (j + 1) nc ltac:(lia)) as Hm.
  rewrite subscript_grid by lia. cbn [bind].
  rewrite int_mod_ok by lia. cbn [bind].
  rewrite !subscript_grid by lia. reflexivity.
Qed.


Lemma element_ring_ok i st0 :
  0 < nc -> 0 <= i -> i + 1 < rows -> element_id st0 = grid_id nc i 0 ->
  exists st, element_ring node_map nc i st0 = Ok st /\ element_ring_inv' i st0 nc st.
Proof.
  intros Hnc Hi Hi' Hid. unfold element_ring, for_range.
  destruct (for_from_invariant (element_ring_inv' i st0)
              (element_step node_map nc i) (Z.to_nat nc) 0 st0)
    as (st & Hst & Hinv).
  - unfold element_ring_inv, ring_elements. rewrite (seqZ_nil 0 0) by lia.
    cbn [map join fold_right]. now rewrite append_nil_r.
  - intros j t Hj (Hout & Heid).
    rewrite element_step_ok by lia. eexists. split; [reflexivity|].
    unfold element_ring_inv. cbn [e_output element_id].
    rewrite ring_elements_snoc by lia. rewrite map_app, join_app. cbn [map join fold_right].
    rewrite Hout, Heid, append_nil_r, append_assoc.
    split; [reflexivity|unfold grid_id; lia].
  - exists st. split; [exact Hst|].
    now replace (0 + Z.of_nat (Z.to_nat nc)) with nc in Hinv by lia.
Qed.


Lemma element_pass_ok out0 nv :
  0 < nc -> nv + 1 <= rows ->
  exists st,
    for_range nv (element_ring node_map nc) {| e_output := out0; element_id := 1 |} = Ok st
    /\ elements_inv' out0 (Z.max nv 0) st.
Proof.
  intros Hnc Hnv. unfold for_range.
  destruct (for_from_invariant (elements_inv' out0) (element_ring node_map nc)
              (Z.to_nat nv) 0 {| e_output := out0; element_id := 1 |})
    as (st & Hst & Hinv).
  - unfold elements_inv, element_table. rewrite grid_nil_rows by lia.
    cbn [map join fold_right e_output element_id]. now rewrite append_nil_r.
  - intros i t Hi (Hout & Heid).
    destruct (element_ring_ok i t Hnc ltac:(lia) ltac:(lia) Heid) as (t' & Ht' & Hout' & Heid').
    exists t'. split; [exact Ht'|].
    unfold elements_inv. rewrite element_table_snoc by lia.
    rewrite map_app, join_app, Hout', Hout, append_assoc.
    split; [reflexivity|]. rewrite Heid'. unfold grid_id. lia.
  - exists st. split; [exact Hst|].
    now replace (0 + Z.of_nat (Z.to_nat nv)) with (Z.max nv 0) in Hinv by lia.
Qed.

Lemma element_pass_empty st0 nv :
  nc <= 0 -> for_range nv (element_ring node_map nc) st0 = Ok st0.
Proof.
  intros Hnc. unfold for_range.
  destruct (for_from_invariant (fun _ st => st = st0) (element_ring node_map nc)
              (Z.to_nat nv) 0 st0)
    as (st & Hst & ->); auto.
  intros i t Hi ->. exists st0. split; [|reflexivity].
  unfold element_ring. now apply for_range_nonpos.
Qed.

End Passes.

(** ** The formatted numbers *)

Section FmtFacts.

Import Fmt.
Open Scope string_scope.

Lemma all_ascii_string_of_uint d :
  Utf8.all_ascii (NilEmpty.string_of_uint d) = true.
Proof. induction d; cbn; auto. Qed.

Lemma all_ascii_nilzero_uint d :
  Utf8.all_ascii (NilZero.string_of_uint d) = true.
Proof.
  unfold NilZero.string_of_uint.
  destruct d; try reflexivity; apply all_ascii_string_of_uint.
Qed.

Lemma all_ascii_str_int n : Utf8.all_ascii (str_int n) = true.
Proof.
  unfold str_int, NilZero.string_of_int.
  destruct (Z.to_int n) as [d|d]; [apply all_ascii_nilzero_uint|].
  cbn [Utf8.all_ascii]. rewrite all_ascii_nilzero_uint. reflexivity.
Qed.

Lemma all_ascii_sign s : Utf8.all_ascii (sign s) = true.
Proof. destruct s; reflexivity. Qed.

Lemma digit_cases k :
  0 <= k <= 9 ->
  In (digit k) ["0"; "1"; "2"; "3"; "4"; "5"; "6"; "7"; "8"; "9"].
Proof.
  intros Hk.
  assert (H : k = 0 \/ k = 1 \/ k = 2 \/ k = 3 \/ k = 4 \/ k = 5 \/ k = 6
              \/ k = 7 \/ k = 8 \/ k = 9) by lia.
  cbn [In].
  repeat (destruct H as [->|H]; [tauto|]). subst. tauto.
Qed.

Lemma all_ascii_digit k : 0 <= k <= 9 -> Utf8.all_ascii (digit k) = true.
Proof.
  intros Hk. pose proof (digit_cases k Hk) as H. cbn [In] in H.
  repeat (destruct H as [<-|H]; [reflexivity|]). destruct H.
Qed.

Lemma all_ascii_pad3 n : 0 <= n < 1000 -> Utf8.all_ascii (pad3 n) = true.
Proof.
  intros Hn. unfold pad3.
  assert (0 <= n / 100 <= 9)
    by (split; [apply Z.div_pos; lia|apply Z.lt_succ_r, Z.div_lt_upper_bound; lia]).
  pose proof (Z.mod_pos_bound (n / 10) 10 ltac:(lia)).
  pose proof (Z.mod_pos_bound n 10 ltac:(lia)).
  rewrite !all_ascii_app, !all_ascii_digit by lia. reflexivity.
Qed.

Lemma all_ascii_format_3f x : Utf8.all_ascii (format_3f x) = true.
Proof.
  unfold format_3f. destruct (Py.SF x) as [s|s| |s m e];
    rewrite ?all_ascii_app, ?all_ascii_sign; try reflexivity.
  rewrite all_ascii_str_int, all_ascii_pad3; [reflexivity|].
  apply Z.mod_pos_bound. lia.
Qed.

Lemma all_ascii_zeros n : Utf8.all_ascii (zeros n) = true.
Proof. induction n as [|n IH]; [reflexivity|exact IH]. Qed.

Lemma all_ascii_exponent_suffix x : Utf8.all_ascii (exponent_suffix x) = true.
Proof.
  unfold exponent_suffix.
  destruct (x <? 0)%Z, (Z.abs x <? 10)%Z;
    rewrite ?all_ascii_app, ?all_ascii_str_int; reflexivity.
Qed.

Lemma all_ascii_repr_layout ds decpt :
  Utf8.all_ascii ds = true -> Utf8.all_ascii (repr_layout ds decpt) = true.
Proof.
  intros Hds. unfold repr_layout.
  repeat match goal with
         | |- context [if ?b then _ else _] => destruct b
         end;
    rewrite ?all_ascii_app, ?all_ascii_substring, ?all_ascii_zeros,
      ?all_ascii_exponent_suffix, ?Hds by exact Hds; reflexivity.
Qed.

Lemma all_ascii_float_repr x : Utf8.all_ascii (float_repr x) = true.
Proof.
  unfold float_repr. destruct (Py.SF x) as [s|s| |s m e];
    rewrite ?all_ascii_app, ?all_ascii_sign; try reflexivity.
  unfold repr_finite.
  destruct (shortest _ _ _ _ _) as [D0 p0]. destruct (strip_zeros _ _ _) as [D p].
  apply all_ascii_repr_layout, all_ascii_str_int.
Qed.

Lemma all_ascii_node_line id x y z : Utf8.all_ascii (node_line id x y z) = true.
Proof.
  unfold node_line.
  rewrite !all_ascii_app, all_ascii_str_int, !all_ascii_format_3f. reflexivity.
Qed.

Lemma all_ascii_element_line id n1 n2 n3 n4 :
  Utf8.all_ascii (element_line id n1 n2 n3 n4) = true.
Proof.
  unfold element_line. rewrite !all_ascii_app, !all_ascii_str_int. reflexivity.
Qed.

Lemma all_ascii_render_element e : Utf8.all_ascii (render_element e) = true.
Proof.
  unfold render_element.
  destruct e.2 as [|n1 [|n2 [|n3 [|n4 [|n5 l]]]]]; try reflexivity.
  apply all_ascii_element_line.
Qed.

Lemma all_ascii_trailer t E : Utf8.all_ascii (trailer t E) = true.
Proof.
  unfold trailer. rewrite !all_ascii_app, !all_ascii_float_repr. reflexivity.
Qed.

(** [.3f] writes a finite value with exactly three digits after the
    decimal point. *)
Lemma format_3f_finite x :
  finite x ->
  exists (s : bool) (ip d1 d2 d3 : Z),
    0 <= ip /\ 0 <= d1 <= 9 /\ 0 <= d2 <= 9 /\ 0 <= d3 <= 9
    /\ format_3f x = sign s ++ str_int ip ++ "." ++ digit d1 ++ digit d2 ++ digit d3.
Proof.
  unfold finite, format_3f. destruct (Py.SF x) as [s|s| |s m e]; intros H; try destruct H.
  - exists s, 0, 0, 0, 0. repeat split; try lia.
  - set (n := thousandths m e).
    assert (Hn : 0 <= n).
    { unfold n, thousandths, round_half_even.
      destruct (0 <=? e)%Z eqn:He.
      - apply Z.leb_le in He.
        assert (0 < 2 ^ e) by (apply Z.pow_pos_nonneg; lia). nia.
      - assert (0 < 2 ^ (- e)) by (apply Z.pow_pos_nonneg; lia).
        assert (0 <= Z.pos m * 1000 / 2 ^ (- e)) by (apply Z.div_pos; lia).
        destruct (_ ?= _)%Z; try lia. destruct (Z.even _); lia. }
    pose proof (Z.mod_pos_bound n 1000 ltac:(lia)) as Hr.
    exists s, (n / 1000), (n mod 1000 / 100), ((n mod 1000 / 10) mod 10), ((n mod 1000) mod 10).
    split; [apply Z.div_pos; lia|].
    split; [split; [apply Z.div_pos; lia|apply Z.lt_succ_r, Z.div_lt_upper_bound; lia]|].
    split; [pose proof (Z.mod_pos_bound (n mod 1000 / 10) 10 ltac:(lia)); lia|].
    split; [pose proof (Z.mod_pos_bound (n mod 1000) 10 ltac:(lia)); lia|].
    reflexivity.
Qed.

End FmtFacts.

(** ** The generator computes the document of its mesh *)

Section Correctness.

Variables np_radians np_cos np_sin : float -> float.

Open Scope string_scope.

Abbreviation generate := (generate_abaqus_input np_radians np_cos np_sin).
Abbreviation doc := (document np_radians np_cos np_sin).
Abbreviation table := (node_table np_radians np_cos np_sin).

Lemma grid_max_rows rows cols : grid (Z.max rows 0) cols = grid rows cols.
Proof.
  destruct (Z_le_gt_dec rows 0).
  - now rewrite !grid_nil_rows by lia.
  - now replace (Z.max rows 0) with rows by lia.
Qed.

Lemma num_vertical_bound h e nv : num_vertical h e = Ok nv -> nv <= max_double.
Proof.
  unfold num_vertical. destruct (Py.float_truediv h e) as [q|]; [|discriminate].
  cbn [bind]. intros H. apply float_int_bound in H. lia.
Qed.

(** The five writes before the node pass, and the thirteen after the
    element pass. *)
Lemma header_writes :
  write (write (write (write (write ""
    ("** Abaqus Input File for Shell Model of a Vessel" ++ Fmt.nl))
    ("*Heading" ++ Fmt.nl))
    ("Pressure Vessel Model" ++ Fmt.nl ++ Fmt.nl))
    ("*Part, name=Vessel" ++ Fmt.nl))
    ("*Node" ++ Fmt.nl)
  = header.
Proof. reflexivity. Qed.

Lemma trailer_writes out t E :
  write (write (write (write (write (write (write (write (write (write (write
    (write (write out
    ("*End Part" ++ Fmt.nl ++ Fmt.nl))
    ("*Material, name=Steel" ++ Fmt.nl))
    ("*Elastic" ++ Fmt.nl))
    (Fmt.float_repr E ++ ", 0.3" ++ Fmt.nl ++ Fmt.nl))
    ("*Shell Section, elset=ALL_ELEMENTS, material=Steel, thickness="
       ++ Fmt.float_repr t ++ Fmt.nl))
    ("*Assembly, name=Assembly" ++ Fmt.nl))
    ("*Instance, name=Vessel-1, part=Vessel" ++ Fmt.nl))
    ("*End Instance" ++ Fmt.nl))
    ("*End Assembly" ++ Fmt.nl ++ Fmt.nl))
    ("*Step, name=StaticStep, nlgeom=YES" ++ Fmt.nl))
    ("*Static" ++ Fmt.nl))
    ("1.0, 1.0, 1e-05, 1.0" ++ Fmt.nl ++ Fmt.nl))
    ("*End Step" ++ Fmt.nl)
  = out ++ trailer t E.
Proof. unfold write, trailer. rewrite !append_assoc. reflexivity. Qed.

Lemma all_ascii_document d t E e nc nv : Utf8.all_ascii (doc d t E e nc nv) = true.
Proof.
  unfold document. rewrite !all_ascii_app, all_ascii_trailer.
  rewrite !all_ascii_join; [reflexivity| |].
  - apply List.Forall_forall. intros s Hs. apply in_map_iff in Hs as (x & <- & _).
    apply all_ascii_render_element.
  - apply List.Forall_forall. intros s Hs. apply in_map_iff in Hs as (x & <- & _).
    apply all_ascii_node_line.
Qed.

(** Once the two counts are computed the generator cannot fail: it
    returns the document of the mesh, the bytes of that document, and
    the coordinates of the node table. *)
Theorem generate_ok d t h E e nc nv :
  num_circumferential d e = Ok nc ->
  num_vertical h e = Ok nv ->
  generate d t h E e
  = Ok (doc d t E e nc nv, ascii_bytes (doc d t E e nc nv),
        map snd (table (d / 2)%float e nc nv)).
Proof.
  intros Hnc Hnv. pose proof (num_vertical_bound h e nv Hnv) as Hb.
  unfold generate_abaqus_input.
  rewrite float_truediv_int_2, Hnc, Hnv. cbn [bind]. cbv zeta.
  rewrite header_writes.
  change ("*Element, type=S4" ++ Fmt.nl) with element_header.
  destruct (Z_le_gt_dec nc 0) as [Hle|Hgt].
  - rewrite node_pass_empty by lia. cbn [bind n_output nodes node_coordinates].
    rewrite element_pass_empty by lia. cbn [bind e_output].
    rewrite trailer_writes.
    assert (Hdoc : doc d t E e nc nv = write header element_header ++ trailer t E).
    { unfold document, node_table, element_table, write.
      rewrite !grid_nil_cols by lia. cbn [map join fold_right].
      now rewrite append_nil_l, append_assoc. }
    rewrite <- Hdoc, encode_ascii by apply all_ascii_document. cbn [bind].
    unfold node_table. now rewrite grid_nil_cols by lia.
  - destruct (node_pass_ok np_radians np_cos np_sin (d / 2)%float e nc header (nv + 1))
      as (st & -> & Hout & Hnid & Hco & Hmap); [lia|lia|].
    cbn [bind].
    destruct (element_pass_ok nc (nodes st) (Z.max (nv + 1) 0)
                (fun i j Hi Hj => eq_trans (Hmap (i, j))
                   (decide_True (Some (grid_id nc i j)) None (conj Hi Hj)))
                (write (n_output st) element_header) nv)
      as (est & -> & Heout & Heid); [lia|lia|].
    cbn [bind]. rewrite trailer_writes.
    unfold rings_nodes in Hout, Hco. rewrite grid_max_rows in Hout, Hco.
    unfold element_table in Heout. rewrite grid_max_rows in Heout.
    assert (Hdoc : doc d t E e nc nv = e_output est ++ trailer t E).
    { rewrite Heout. unfold write. rewrite Hout.
      unfold document, node_table, element_table.
      now rewrite !append_assoc. }
    rewrite <- Hdoc, encode_ascii by apply all_ascii_document. cbn [bind].
    now rewrite Hco.
Qed.

End Correctness.

(** ** The mesh topology *)

Section Topology.

Lemma quad_wrap nc j :
  0 < nc -> 0 <= j < nc ->
  (j + 1) mod nc = if decide (j = nc - 1) then 0 else j + 1.
Proof.
  intros Hnc Hj. destruct (decide (j = nc - 1)) as [->|Hne].
  - replace (nc - 1 + 1) with nc by lia. apply Z.mod_same. lia.
  - apply Z.mod_small. lia.
Qed.

Lemma in_element_table nc nv el :
  In el (element_table nc nv) <->
  exists i j, 0 <= i < nv /\ 0 <= j < nc /\ el = (grid_id nc i j, quad nc i j).
Proof.
  unfold element_table. rewrite in_map_iff. split.
  - intros ([i j] & <- & Hin). apply in_grid in Hin. exists i, j. cbn [fst snd]. tauto.
  - intros (i & j & Hi & Hj & ->). exists (i, j). split; [reflexivity|].
    apply in_grid. tauto.
Qed.

Lemma in_node_ids nc nv n :
  0 <= nc -> 0 <= nv + 1 ->
  In n (map (fun ij => grid_id nc ij.1 ij.2) (grid (nv + 1) nc))
  <-> 1 <= n <= (nv + 1) * nc.
Proof.
  intros Hnc Hnv. rewrite grid_ids by lia. rewrite in_seqZ. lia.
Qed.

(** The four corners of an element of a mesh with at least two columns
    are pairwise different. *)
Lemma quad_NoDup nc i j : 2 <= nc -> 0 <= j < nc -> NoDup (quad nc i j).
Proof.
  intros Hnc Hj. unfold quad. rewrite quad_wrap by lia.
  unfold grid_id.
  destruct (decide (j = nc - 1)) as [->|Hne];
    repeat (apply NoDup_cons; split;
            [rewrite ?elem_of_cons, elem_of_nil; lia|]);
    apply NoDup_nil; exact I.
Qed.

Lemma quad_in_range nc nv i j n :
  0 < nc -> 0 <= i < nv -> 0 <= j < nc -> In n (quad nc i j) ->
  1 <= n <= (nv + 1) * nc.
Proof.
  intros Hnc Hi Hj Hin. unfold quad in Hin. rewrite quad_wrap in Hin by lia.
  unfold grid_id in Hin. cbn [In] in Hin.
  assert (i * nc + nc <= nv * nc) by nia.
  destruct (decide (j = nc - 1)); nia.
Qed.

(** Every node id is a corner of some element. *)
Lemma node_id_covered nc nv n :
  0 < nc -> 1 <= nv -> 1 <= n <= (nv + 1) * nc ->
  exists i j, 0 <= i < nv /\ 0 <= j < nc /\ In n (quad nc i j).
Proof.
  intros Hnc Hnv Hn.
  pose proof (Z.div_mod (n - 1) nc ltac:(lia)) as Hdm.
  pose proof (Z.mod_pos_bound (n - 1) nc ltac:(lia)) as Hm.
  set (i := (n - 1) / nc) in *. set (j := (n - 1) mod nc) in *.
  assert (Hi : 0 <= i <= nv) by nia.
  destruct (Z_lt_ge_dec i nv) as [Hlt|Hge].
  - exists i, j. repeat split; try lia.
    unfold quad, grid_id. left. lia.
  - exists (nv - 1), j. repeat split; try lia.
    unfold quad, grid_id. right. right. right. left. nia.
Qed.

End Topology.

(** ** Float comparisons and signs *)

Section FloatOrder.


Lemma ltb_0_positive x : (0 <? x)%float = true -> positive_SF (Py.SF x).
Proof.
  rewrite FloatAxioms.ltb_spec. unfold Py.SF.
  change (Prim2SF 0) with (S754_zero false).
  destruct (Prim2SF x) as [s|[]| |[] m e]; cbn; intros H; try discriminate; exact I.
Qed.

Lemma ltb_0_nonzero x : (0 <? x)%float = true -> (x =? 0)%float = false.
Proof.
  intros H. apply ltb_0_positive in H. rewrite FloatAxioms.eqb_spec.
  unfold Py.SF in H. change (Prim2SF 0) with (S754_zero false).
  destruct (Prim2SF x) as [s|[]| |[] m e]; cbn in *; try destruct H; reflexivity.
Qed.

Lemma compare_cont_Eq m1 m2 : Pos.compare_cont Eq m1 m2 = Eq -> m1 = m2.
Proof. apply Pos.compare_eq. Qed.

(** On positive values [==] is identity. *)
Lemma eqb_positive_eq x y :
  (0 <? x)%float = true -> (x =? y)%float = true -> x = y.
Proof.
  intros Hx Heq. apply ltb_0_positive in Hx. rewrite FloatAxioms.eqb_spec in Heq.
  apply Prim2SF_inj. unfold Py.SF in Hx.
  destruct (Prim2SF x) as [s|[]| |[] m e]; try destruct Hx;
    destruct (Prim2SF y) as [s'|[]| |[] m' e']; try discriminate Heq; try reflexivity.
  unfold SFeqb, SFcompare in Heq.
  destruct (Z.compare_spec e e') as [->|Hlt|Hgt]; try discriminate Heq.
  destruct (Pos.compare_cont Eq m m') eqn:Hc; try discriminate Heq.
  apply Pos.compare_eq in Hc. now subst.
Qed.

Lemma binary_round_aux_sign sx mx ex lx :
  match binary_round_aux prec emax sx mx ex lx with
  | S754_zero s | S754_finite s _ _ | S754_infinity s => s = sx
  | S754_nan => True
  end.
Proof.
  unfold binary_round_aux.
  destruct (shr_fexp prec emax mx ex lx) as [mrs e1].
  destruct (shr_fexp prec emax _ e1 loc_Exact) as [mrs2 e2].
  destruct (shr_m mrs2); try reflexivity; try exact I.
  destruct (e2 <=? emax - prec); reflexivity.
Qed.

Lemma SFmul_unsigned x y :
  unsigned_SF x -> unsigned_SF y -> unsigned_SF (SF64mul x y).
Proof.
  unfold unsigned_SF, SF64mul, SFmul.
  destruct x as [s|s| |s m e], y as [s'|s'| |s' m' e']; intros Hx Hy; subst;
    try exact I; try reflexivity.
  pose proof (binary_round_aux_sign (xorb false false) (Z.pos (m * m')) (e + e') loc_Exact) as H.
  destruct (binary_round_aux _ _ _ _ _ _); auto.
Qed.

Lemma SFdiv_unsigned x y :
  unsigned_SF x -> unsigned_SF y -> unsigned_SF (SF64div x y).
Proof.
  unfold unsigned_SF, SF64div, SFdiv.
  destruct x as [s|s| |s m e], y as [s'|s'| |s' m' e']; intros Hx Hy; subst;
    try exact I; try reflexivity.
  destruct (SFdiv_core_binary prec emax (Z.pos m) e (Z.pos m') e') as [[mz ez] lz].
  pose proof (binary_round_aux_sign (xorb false false) mz ez lz) as H.
  destruct (binary_round_aux _ _ _ _ _ _); auto.
Qed.

Lemma positive_unsigned x : positive_SF x -> unsigned_SF x.
Proof. destruct x as [s|[]| |[] m e]; cbn; intros H; try destruct H; reflexivity. Qed.

(** The two quotients of positive arguments are not negative. *)
Lemma circumferential_quotient_unsigned d e :
  (0 <? d)%float = true -> (0 <? e)%float = true ->
  unsigned_SF (Py.SF (lit_3_1416 * d / e)).
Proof.
  intros Hd He. unfold Py.SF. rewrite FloatAxioms.div_spec, FloatAxioms.mul_spec.
  apply SFdiv_unsigned; [apply SFmul_unsigned|].
  - reflexivity.
  - now apply positive_unsigned, ltb_0_positive.
  - now apply positive_unsigned, ltb_0_positive.
Qed.

Lemma vertical_quotient_unsigned h e :
  (0 <? h)%float = true -> (0 <? e)%float = true ->
  unsigned_SF (Py.SF (h / e)).
Proof.
  intros Hh He. unfold Py.SF. rewrite FloatAxioms.div_spec.
  apply SFdiv_unsigned; now apply positive_unsigned, ltb_0_positive.
Qed.

(** *** The integer part of a double, as a real number *)

Lemma IZR_pow2 k : 0 <= k -> IZR (2 ^ k) = powerRZ 2 k.
Proof.
  intros Hk. rewrite <- (Z2Nat.id k Hk), <- pow_powerRZ, <- pow_IZR. reflexivity.
Qed.

Lemma shiftl_floor m e :
  is_floor (IZR (Z.pos m) * powerRZ 2 e) (Z.shiftl (Z.pos m) e).
Proof.
  unfold is_floor. destruct (Z_le_gt_dec 0 e) as [Hpos|Hneg].
  - rewrite Z.shiftl_mul_pow2, mult_IZR, IZR_pow2 by lia. lra.
  - assert (Hk : exists k, 0 < k /\ e = - k) by (exists (- e); lia).
    destruct Hk as (k & Hk & ->).
    rewrite Z.shiftl_div_pow2, Z.opp_involutive by lia.
    rewrite powerRZ_neg', <- IZR_pow2 by lia.
    set (p := 2 ^ k).
    assert (Hp : 0 < p) by (apply Z.pow_pos_nonneg; lia).
    pose proof (Z.mul_div_le (Z.pos m) p Hp) as H1.
    pose proof (Z.mul_succ_div_gt (Z.pos m) p Hp) as H2.
    apply IZR_le in H1. apply IZR_lt in H2.
    rewrite mult_IZR in H1. rewrite mult_IZR, succ_IZR in H2.
    assert (HP : (0 < IZR p)%R) by now apply IZR_lt.
    split.
    + apply Rmult_le_reg_r with (IZR p); [exact HP|].
      rewrite Rmult_assoc, Rinv_l by lra. lra.
    + apply Rmult_lt_reg_r with (IZR p); [exact HP|].
      rewrite Rmult_assoc, Rinv_l by lra. lra.
Qed.

(** [int()] of a double that is not negative is the floor of its
    value. *)
Lemma float_int_floor x n :
  unsigned_SF (Py.SF x) -> Py.float_int x = Ok n -> is_floor (F2R x) n.
Proof.
  unfold Py.float_int, F2R, unsigned_SF.
  destruct (Py.SF x) as [s|s| |s m e]; intros Hs H; try discriminate.
  - inversion H. unfold is_floor. cbn. lra.
  - subst s. inversion H.
    replace (1 * IZR (Z.pos m) * powerRZ 2 e)%R with (IZR (Z.pos m) * powerRZ 2 e)%R by lra.
    apply shiftl_floor.
Qed.

End FloatOrder.

(** ** The generator, case by case *)

Section Outcome.

Variables np_radians np_cos np_sin : float -> float.

(** The only steps of the generator that can fail are the two count
    computations. *)
Lemma generate_eq d t h E e :
  generate_abaqus_input np_radians np_cos np_sin d t h E e
  = (let* nc := num_circumferential d e in
     let* nv := num_vertical h e in
     Ok (document np_radians np_cos np_sin d t E e nc nv,
         ascii_bytes (document np_radians np_cos np_sin d t E e nc nv),
         map snd (node_table np_radians np_cos np_sin (d / 2)%float e nc nv))).
Proof.
  destruct (num_circumferential d e) as [nc|x] eqn:Hnc.
  - destruct (num_vertical h e) as [nv|x] eqn:Hnv.
    + now apply generate_ok.
    + unfold generate_abaqus_input.
      now rewrite float_truediv_int_2, Hnc, Hnv.
  - unfold generate_abaqus_input. now rewrite float_truediv_int_2, Hnc.
Qed.

Lemma generate_Ok_inv d t h E e r :
  generate_abaqus_input np_radians np_cos np_sin d t h E e = Ok r ->
  exists nc nv,
    num_circumferential d e = Ok nc /\ num_vertical h e = Ok nv
    /\ r = (document np_radians np_cos np_sin d t E e nc nv,
            ascii_bytes (document np_radians np_cos np_sin d t E e nc nv),
            map snd (node_table np_radians np_cos np_sin (d / 2)%float e nc nv)).
Proof.
  rewrite generate_eq.
  destruct (num_circumferential d e) as [nc|x]; [|discriminate].
  destruct (num_vertical h e) as [nv|x]; [|discriminate].
  cbn [bind]. intros [= <-]. now exists nc, nv.
Qed.

Lemma length_node_table radius e nc nv :
  0 <= nc -> 0 <= nv + 1 ->
  Z.of_nat (length (node_table np_radians np_cos np_sin radius e nc nv)) = (nv + 1) * nc.
Proof.
  intros Hnc Hnv. unfold node_table. rewrite length_map. now apply length_grid.
Qed.

Lemma length_element_table nc nv :
  0 <= nc -> 0 <= nv -> Z.of_nat (length (element_table nc nv)) = nv * nc.
Proof.
  intros Hnc Hnv. unfold element_table. rewrite length_map. now apply length_grid.
Qed.

Lemma node_table_ids radius e nc nv :
  0 <= nc -> 0 <= nv + 1 ->
  map fst (node_table np_radians np_cos np_sin radius e nc nv) = seqZ 1 ((nv + 1) * nc).
Proof.
  intros Hnc Hnv. unfold node_table. rewrite map_map. cbn [fst].
  now apply grid_ids.
Qed.

Lemma element_table_ids nc nv :
  0 <= nc -> 0 <= nv -> map fst (element_table nc nv) = seqZ 1 (nv * nc).
Proof.
  intros Hnc Hnv. unfold element_table. rewrite map_map. cbn [fst].
  now apply grid_ids.
Qed.

End Outcome.

(** * The properties of the specification *)

(** ** The constant 3.1416 and the number pi *)

Section Pi.

Open Scope R_scope.

Lemma PI_upper : PI < 4282 / 1363.
Proof.
  destruct (PI_2_3_7_ineq 3) as [_ Hup].
  unfold sum_f_R0, tg_alt, PI_2_3_7_tg, Ratan_seq in Hup.
  simpl in Hup. lra.
Qed.

(** A positive double with a negative exponent, as a fraction. *)
Lemma F2R_fraction x m k :
  Py.SF x = S754_finite false m (Z.neg k) ->
  F2R x = IZR (Z.pos m) / IZR (2 ^ Z.pos k).
Proof.
  intros Hx. unfold F2R. rewrite Hx.
  change (Z.neg k) with (- Z.pos k)%Z.
  rewrite powerRZ_neg', <- IZR_pow2 by lia. unfold Rdiv. lra.
Qed.

Lemma F2R_1363 : F2R 1363 = 1363.
Proof.
  rewrite (F2R_fraction 1363 5994537394634752 42) by reflexivity.
  change (2 ^ 42)%Z with 4398046511104%Z. lra.
Qed.

Lemma F2R_1 : F2R 1 = 1.
Proof.
  rewrite (F2R_fraction 1 4503599627370496 52) by reflexivity.
  change (2 ^ 52)%Z with 4503599627370496%Z. lra.
Qed.

End Pi.

(** C2, as stated, fails: for diameter 1363.0 and element size 1.0 the
    generator uses 4282 columns, while the floor of pi * 1363 / 1 with the
    exact pi is 4281. *)
Lemma exact_pi_counterexample :
  (0 <? 1363)%float = true /\ (0 <? 1)%float = true
  /\ num_circumferential 1363 1 = Ok 4282
  /\ ~ is_floor (PI * F2R 1363 / F2R 1) 4282.
Proof.
  split; [reflexivity|]. split; [reflexivity|]. split; [reflexivity|].
  rewrite F2R_1363, F2R_1. unfold is_floor. intros [Hlo _].
  pose proof PI_upper. lra.
Qed.

(** C2, amended: for positive diameter, height and element size, the two
    counts the generator uses are the floors (truncation, not rounding) of
    the double-precision quotients [(3.1416 * diameter) / elementSize] and
    [height / elementSize], where [3.1416] is the decimal constant of the
    source, not pi. *)
Theorem counts_are_floors
    (np_radians np_cos np_sin : float -> float) (d t h E e : float) (nc nv : Z) :
  (0 <? d)%float = true -> (0 <? h)%float = true -> (0 <? e)%float = true ->
  num_circumferential d e = Ok nc ->
  num_vertical h e = Ok nv ->
  is_floor (F2R (lit_3_1416 * d / e)) nc
  /\ is_floor (F2R (h / e)) nv
  /\ 0 <= nc /\ 0 <= nv
  /\ exists text byte_data,
       generate_abaqus_input np_radians np_cos np_sin d t h E e
       = Ok (text, byte_data,
             map snd (node_table np_radians np_cos np_sin (d / 2)%float e nc nv)).
Proof.
  intros Hd Hh He Hnc Hnv.
  pose proof (ltb_0_nonzero e He) as Hz.
  unfold num_circumferential, num_vertical, Py.float_truediv in Hnc, Hnv.
  rewrite Hz in Hnc, Hnv. cbn [bind] in Hnc, Hnv.
  pose proof (float_int_floor _ _ (circumferential_quotient_unsigned d e Hd He) Hnc) as Hfc.
  pose proof (float_int_floor _ _ (vertical_quotient_unsigned h e Hh He) Hnv) as Hfv.
  assert (Hpos : forall x n, unsigned_SF (Py.SF x) -> Py.float_int x = Ok n -> 0 <= n).
  { intros x n Hu Hi. unfold Py.float_int in Hi. unfold unsigned_SF in Hu.
    destruct (Py.SF x) as [s|s| |s m e']; try discriminate.
    - inversion Hi. lia.
    - subst s. inversion Hi. apply Z.shiftl_nonneg. lia. }
  split; [exact Hfc|]. split; [exact Hfv|].
  split; [apply (Hpos _ _ (circumferential_quotient_unsigned d e Hd He) Hnc)|].
  split; [apply (Hpos _ _ (vertical_quotient_unsigned h e Hh He) Hnv)|].
  eexists _, _. apply generate_ok.
  - unfold num_circumferential, Py.float_truediv. now rewrite Hz.
  - unfold num_vertical, Py.float_truediv. now rewrite Hz.
Qed.

Lemma counts_are_floors_witness :
  is_floor (F2R (lit_3_1416 * 120 / 6)) 62 /\ is_floor (F2R (270 / 6)) 45.
Proof.
  pose proof (counts_are_floors Ref.radians Ref.cos Ref.sin
                120 0.125 270 200000 6 62 45 eq_refl eq_refl eq_refl eq_refl eq_refl) as H.
  exact (conj (proj1 H) (proj1 (proj2 H))).
Defined.

(** ** When the counts exist *)

Section Counts.

(** [int(x / e)]: the three ways it ends. *)
Lemma int_quotient_cases x e :
  match (let* q := Py.float_truediv x e in Py.float_int q) with
  | Ok _ => (e =? 0)%float = false /\ finite (x / e)
  | Raise err =>
      ((e =? 0)%float = true /\ err = ZeroDivisionError)
      \/ ((e =? 0)%float = false /\ ~ finite (x / e)
          /\ (err = OverflowError \/ err = ValueError))
  end.
Proof.
  unfold Py.float_truediv. destruct (e =? 0)%float; cbn [bind]; [now left|].
  unfold Py.float_int, finite.
  destruct (Py.SF (x / e)); auto; right; repeat split; auto.
Qed.

Lemma num_circumferential_finite d e :
  (e =? 0)%float = false -> finite (lit_3_1416 * d / e) ->
  exists nc, num_circumferential d e = Ok nc.
Proof.
  intros Hz Hf. unfold num_circumferential, Py.float_truediv. rewrite Hz.
  cbn [bind]. now apply float_int_finite.
Qed.

Lemma num_vertical_finite h e :
  (e =? 0)%float = false -> finite (h / e) ->
  exists nv, num_vertical h e = Ok nv.
Proof.
  intros Hz Hf. unfold num_vertical, Py.float_truediv. rewrite Hz.
  cbn [bind]. now apply float_int_finite.
Qed.

End Counts.

(** C1, as stated, fails: with diameter 1.0, height 1.0 and element size
    10.0 both counts are 0, and the generator returns a document (with no
    node and no element) instead of failing. *)
Lemma degenerate_input_accepted :
  num_circumferential 1 10 = Ok 0
  /\ num_vertical 1 10 = Ok 0
  /\ generate_abaqus_input Ref.radians Ref.cos Ref.sin 1 0.125 1 200000 10
     = Ok ((header ++ element_header ++ trailer 0.125 200000)%string,
           ascii_bytes (header ++ element_header ++ trailer 0.125 200000)%string,
           []).
Proof.
  split; [reflexivity|]. split; [reflexivity|].
  now rewrite (generate_ok Ref.radians Ref.cos Ref.sin 1 0.125 1 200000 10 0 0).
Qed.

(** C1, amended: the generator has no geometry check.  It fails, before
    writing anything, exactly when one of the two count computations
    fails: with ZeroDivisionError when the element size is zero, and with
    OverflowError or ValueError when a count quotient is infinite or NaN.
    On every other input, positive or not, degenerate or not, it returns
    the document of the mesh with those counts. *)
Theorem failure_only_in_counts
    (np_radians np_cos np_sin : float -> float) (d t h E e : float) :
  let qc := (lit_3_1416 * d / e)%float in
  let qv := (h / e)%float in
  match generate_abaqus_input np_radians np_cos np_sin d t h E e with
  | Raise err =>
      ((e =? 0)%float = true /\ err = ZeroDivisionError)
      \/ ((e =? 0)%float = false /\ (~ finite qc \/ ~ finite qv)
          /\ (err = OverflowError \/ err = ValueError))
  | Ok r =>
      (e =? 0)%float = false /\ finite qc /\ finite qv
      /\ exists nc nv,
           num_circumferential d e = Ok nc /\ num_vertical h e = Ok nv
           /\ r = (document np_radians np_cos np_sin d t E e nc nv,
                   ascii_bytes (document np_radians np_cos np_sin d t E e nc nv),
                   map snd (node_table np_radians np_cos np_sin (d / 2)%float e nc nv))
  end.
Proof.
  intros qc qv. rewrite generate_eq.
  pose proof (int_quotient_cases (lit_3_1416 * d) e) as Hc.
  pose proof (int_quotient_cases h e) as Hv.
  fold (num_circumferential d e) in Hc. fold (num_vertical h e) in Hv.
  destruct (num_circumferential d e) as [nc|x] eqn:Hnc; cbn [bind].
  - destruct (num_vertical h e) as [nv|x] eqn:Hnv; cbn [bind].
    + destruct Hc as [Hz Hfc]. destruct Hv as [_ Hfv].
      repeat split; auto. now exists nc, nv.
    + destruct Hv as [[Hz ->]|(Hz & Hnf & Herr)]; [now left|].
      right. repeat split; auto.
  - destruct Hc as [[Hz ->]|(Hz & Hnf & Herr)]; [now left|].
    right. repeat split; auto.
Qed.

(** C10, as stated, fails: a positive element size does not keep the
    generator from raising.  With diameter 2^1000 and element size 2^-100
    the quotient of line 9 is infinite and [int()] raises OverflowError. *)
Lemma positive_element_size_raises :
  (0 <? 0x1p-100)%float = true
  /\ generate_abaqus_input Ref.radians Ref.cos Ref.sin 0x1p1000 0.125 1 200000 0x1p-100
     = Raise OverflowError.
Proof. split; reflexivity. Qed.

(** C10, amended: for every input with a positive element size whose two
    count quotients are finite doubles, the generator returns normally,
    also when the counts are degenerate: the document keeps its skeleton,
    the node block is empty when there is no column or no ring, the
    element block is empty when there is no column or no ring of elements,
    and with a single column every element names each of its two nodes
    twice. *)
Theorem returns_on_finite_quotients
    (np_radians np_cos np_sin : float -> float) (d t h E e : float) :
  (0 <? e)%float = true ->
  finite (lit_3_1416 * d / e) ->
  finite (h / e) ->
  exists nc nv,
    num_circumferential d e = Ok nc /\ num_vertical h e = Ok nv
    /\ let ns := node_table np_radians np_cos np_sin (d / 2)%float e nc nv in
       let es := element_table nc nv in
       generate_abaqus_input np_radians np_cos np_sin d t h E e
       = Ok ((header ++ join (map render_node ns) ++ element_header
                ++ join (map render_element es) ++ trailer t E)%string,
             ascii_bytes (document np_radians np_cos np_sin d t E e nc nv),
             map snd ns)
       /\ (nc <= 0 \/ nv < 0 -> ns = [])
       /\ (nc <= 0 \/ nv <= 0 -> es = [])
       /\ (nc = 1 -> forall el, In el es -> exists a b, el.2 = [a; a; b; b]).
Proof.
  intros He Hfc Hfv. pose proof (ltb_0_nonzero e He) as Hz.
  destruct (num_circumferential_finite d e Hz Hfc) as [nc Hnc].
  destruct (num_vertical_finite h e Hz Hfv) as [nv Hnv].
  exists nc, nv. split; [exact Hnc|]. split; [exact Hnv|].
  intros ns es. split; [now apply generate_ok|]. split; [|split].
  - unfold ns, node_table. intros [H|H].
    + now rewrite grid_nil_cols.
    + now rewrite grid_nil_rows by lia.
  - unfold es, element_table. intros [H|H].
    + now rewrite grid_nil_cols.
    + now rewrite grid_nil_rows by lia.
  - intros -> el Hel. apply in_element_table in Hel as (i & j & Hi & Hj & ->).
    assert (j = 0) by lia. subst j. cbn [snd]. unfold quad.
    exists (grid_id 1 i 0), (grid_id 1 (i + 1) 0). reflexivity.
Qed.

Lemma returns_on_finite_quotients_witness :
  exists nc nv,
    num_circumferential 1 10 = Ok nc /\ num_vertical 1 10 = Ok nv
    /\ (nc <= 0 \/ nv <= 0 -> element_table nc nv = []).
Proof.
  destruct (returns_on_finite_quotients Ref.radians Ref.cos Ref.sin
              1 0.125 1 200000 10 eq_refl I I)
    as (nc & nv & Hnc & Hnv & H).
  cbv zeta in H. exists nc, nv.
  exact (conj Hnc (conj Hnv (proj1 (proj2 (proj2 H))))).
Defined.

(** C9: whenever the generator returns, its second result is the UTF-8
    encoding of its first; the text is ASCII, so the encoding is one byte
    per character and the encoding step is never the one that fails. *)
Theorem bytes_are_utf8_of_text
    (np_radians np_cos np_sin : float -> float) (d t h E e : float) :
  match generate_abaqus_input np_radians np_cos np_sin d t h E e with
  | Ok (inp_content, byte_data, _) =>
      Utf8.encode inp_content = Ok byte_data
      /\ Utf8.all_ascii inp_content = true
      /\ byte_data = ascii_bytes inp_content
  | Raise err => err <> UnicodeEncodeError
  end.
Proof.
  rewrite generate_eq.
  pose proof (int_quotient_cases (lit_3_1416 * d) e) as Hc.
  pose proof (int_quotient_cases h e) as Hv.
  fold (num_circumferential d e) in Hc. fold (num_vertical h e) in Hv.
  destruct (num_circumferential d e) as [nc|x]; cbn [bind].
  - destruct (num_vertical h e) as [nv|x]; cbn [bind].
    + pose proof (all_ascii_document np_radians np_cos np_sin d t E e nc nv) as Ha.
      split; [now apply encode_ascii|]. split; [exact Ha|reflexivity].
    + destruct Hv as [[_ ->]|(_ & _ & [->| ->])]; discriminate.
  - destruct Hc as [[_ ->]|(_ & _ & [->| ->])]; discriminate.
Qed.

(** ** The layout of the document *)

Section Layout.

Variables np_radians np_cos np_sin : float -> float.

Open Scope string_scope.

Lemma unlines_app l1 l2 : unlines (l1 ++ l2)%list = unlines l1 ++ unlines l2.
Proof. unfold unlines. now rewrite map_app, join_app. Qed.

Lemma render_node_text n : render_node n = node_text n ++ Fmt.nl.
Proof.
  unfold render_node, node_text, node_line. cbn [String.concat].
  now rewrite !append_assoc.
Qed.

Lemma render_element_text nc i j :
  render_element (grid_id nc i j, quad nc i j)
  = element_text (grid_id nc i j, quad nc i j) ++ Fmt.nl.
Proof.
  unfold render_element, element_text, element_line, quad.
  cbn [fst snd map String.concat]. now rewrite !append_assoc.
Qed.

Lemma unlines_node_text ns : unlines (map node_text ns) = join (map render_node ns).
Proof.
  unfold unlines. rewrite map_map. f_equal. apply map_ext.
  intros n. now rewrite render_node_text.
Qed.

Lemma unlines_element_text nc nv :
  unlines (map element_text (element_table nc nv))
  = join (map render_element (element_table nc nv)).
Proof.
  unfold unlines, element_table. rewrite !map_map. f_equal. apply map_ext.
  intros [i j]. cbn [fst snd]. now rewrite render_element_text.
Qed.

(** The document the generator writes is the layout of section 6. *)
Lemma document_layout d t E e nc nv :
  document np_radians np_cos np_sin d t E e nc nv
  = section6_document "Abaqus Input File for Shell Model of a Vessel"
      "Pressure Vessel Model"
      (node_table np_radians np_cos np_sin (d / 2)%float e nc nv)
      (element_table nc nv)
      (Fmt.float_repr E) (Fmt.float_repr t).
Proof.
  unfold document, section6_document.
  rewrite !unlines_app, unlines_node_text, unlines_element_text.
  f_equal. f_equal. f_equal. f_equal.
  unfold trailer, unlines. cbn [map join fold_right].
  rewrite !append_assoc, append_nil_r. reflexivity.
Qed.

Lemma grid_head rows cols :
  0 < rows -> 0 < cols -> exists l, grid rows cols = (0, 0) :: l.
Proof.
  intros Hr Hc. pose proof (grid_lookup rows cols 0 0 ltac:(lia) ltac:(lia)) as H.
  change (Z.to_nat (0 * cols + 0)) with O in H.
  destruct (grid rows cols) as [|x l]; [discriminate|].
  inversion H. now exists l.
Qed.

End Layout.

(** * Further properties of the code *)

(** ** Which exception, and when *)

Section Exceptions.

Variables np_radians np_cos np_sin : float -> float.

(** A call, step by step: the zero test of line 9, then the two [int()]
    of lines 9 and 10, then the document. *)
Lemma generate_by_cases d t h E e :
  generate_abaqus_input np_radians np_cos np_sin d t h E e
  = if (e =? 0)%float then Raise ZeroDivisionError
    else
      match Py.float_int (lit_3_1416 * d / e), Py.float_int (h / e) with
      | Ok nc, Ok nv =>
          Ok (document np_radians np_cos np_sin d t E e nc nv,
              ascii_bytes (document np_radians np_cos np_sin d t E e nc nv),
              map snd (node_table np_radians np_cos np_sin (d / 2)%float e nc nv))
      | Ok _, Raise err => Raise err
      | Raise err, _ => Raise err
      end.
Proof.
  rewrite generate_eq. unfold num_circumferential, num_vertical, Py.float_truediv.
  destruct (e =? 0)%float; [reflexivity|]. cbn [bind].
  destruct (Py.float_int (lit_3_1416 * d / e)); [|reflexivity]. cbn [bind].
  destruct (Py.float_int (h / e)); reflexivity.
Qed.

Lemma float_int_by_cases x :
  Py.float_int x
  = match Py.SF x with
    | S754_nan => Raise ValueError
    | S754_infinity _ => Raise OverflowError
    | S754_zero _ => Ok 0
    | S754_finite s m e => Ok (if s then - Z.shiftl (Z.pos m) e else Z.shiftl (Z.pos m) e)
    end.
Proof. reflexivity. Qed.

End Exceptions.

(** X1: the exception of a failing call is decided by the element size and
    the two quotients, line 9 before line 10: ZeroDivisionError exactly
    when the element size equals zero; otherwise ValueError exactly when
    the first quotient that is not finite is a NaN, and OverflowError
    exactly when it is an infinity.  KeyError and UnicodeEncodeError are
    never raised. *)
Theorem exception_by_quotients
    (np_radians np_cos np_sin : float -> float) (d t h E e : float) :
  let r := generate_abaqus_input np_radians np_cos np_sin d t h E e in
  let qc := (lit_3_1416 * d / e)%float in
  let qv := (h / e)%float in
  (r = Raise ZeroDivisionError <-> (e =? 0)%float = true)
  /\ (r = Raise ValueError <->
        (e =? 0)%float = false
        /\ (Py.SF qc = S754_nan \/ (finite qc /\ Py.SF qv = S754_nan)))
  /\ (r = Raise OverflowError <->
        (e =? 0)%float = false
        /\ ((exists s, Py.SF qc = S754_infinity s)
            \/ (finite qc /\ exists s, Py.SF qv = S754_infinity s)))
  /\ r <> Raise KeyError
  /\ r <> Raise UnicodeEncodeError.
Proof.
  intros r qc qv. unfold r. rewrite generate_by_cases, !float_int_by_cases.
  fold qc qv. unfold finite.
  destruct (e =? 0)%float.
  - repeat split; try discriminate; try tauto; intros [H _]; discriminate.
  - destruct (Py.SF qc) as [sc|sc| |sc mc ec]; destruct (Py.SF qv) as [sv|sv| |sv mv ev];
      repeat split; try discriminate; try tauto; eauto;
      try (intros [_ [H|[H1 H2]]]; try discriminate; try tauto;
           try (destruct H as [? H]; discriminate);
           try (destruct H2 as [? H2]; discriminate)).
Qed.


(** X2: thickness and modulus are never examined: they decide neither the
    success of a call nor its exception, and change nothing of the result
    but the text after the element block; the text before it and the
    coordinates stay the same. *)
Theorem thickness_and_modulus_only_in_trailer
    (np_radians np_cos np_sin : float -> float) (d t h E e t' E' : float) :
  match generate_abaqus_input np_radians np_cos np_sin d t h E e,
        generate_abaqus_input np_radians np_cos np_sin d t' h E' e with
  | Ok (text, _, coordinates), Ok (text', _, coordinates') =>
      coordinates = coordinates'
      /\ exists body,
           text = (body ++ trailer t E)%string
           /\ text' = (body ++ trailer t' E')%string
  | Raise err, Raise err' => err = err'
  | _, _ => False
  end.
Proof.
  rewrite !generate_eq.
  destruct (num_circumferential d e) as [nc|x]; cbn [bind]; [|reflexivity].
  destruct (num_vertical h e) as [nv|x]; cbn [bind]; [|reflexivity].
  split; [reflexivity|].
  exists (header
            ++ join (map render_node
                       (node_table np_radians np_cos np_sin (d / 2)%float e nc nv))
            ++ element_header ++ join (map render_element (element_table nc nv)))%string.
  unfold document. now rewrite !append_assoc.
Qed.

(** ** Arguments that are not numbers, or not finite *)

Section Special.

Lemma SFmul_nan_r x : SF64mul x S754_nan = S754_nan.
Proof. destruct x; reflexivity. Qed.

Lemma SFdiv_nan_l y : SF64div S754_nan y = S754_nan.
Proof. reflexivity. Qed.

Lemma SFdiv_nan_r x : SF64div x S754_nan = S754_nan.
Proof. destruct x; reflexivity. Qed.

Lemma eqb_nan_false x : Py.SF x = S754_nan -> (x =? 0)%float = false.
Proof.
  intros H. rewrite FloatAxioms.eqb_spec. unfold Py.SF in H. rewrite H. reflexivity.
Qed.

Lemma eqb_infinity_false x s : Py.SF x = S754_infinity s -> (x =? 0)%float = false.
Proof.
  intros H. rewrite FloatAxioms.eqb_spec. unfold Py.SF in H. rewrite H.
  destruct s; reflexivity.
Qed.

(** A finite value divided by an infinity is a zero. *)
Lemma SFdiv_infinity_r x s :
  match x with S754_zero _ | S754_finite _ _ _ => True | _ => False end ->
  exists s', SF64div x (S754_infinity s) = S754_zero s'.
Proof. destruct x; intros H; try destruct H; cbn; eauto. Qed.

End Special.

(** X3: a NaN among the arguments the counts use is reported as
    ValueError: a NaN diameter with a non-zero element size, a NaN element
    size, and a NaN height once the count of line 9 is computed. *)
Theorem nan_argument_raises_ValueError
    (np_radians np_cos np_sin : float -> float) (d t h E e : float) :
  (Py.SF d = S754_nan /\ (e =? 0)%float = false)
  \/ Py.SF e = S754_nan
  \/ (Py.SF h = S754_nan /\ (e =? 0)%float = false /\ finite (lit_3_1416 * d / e)) ->
  generate_abaqus_input np_radians np_cos np_sin d t h E e = Raise ValueError.
Proof.
  intros H. rewrite generate_by_cases, !float_int_by_cases.
  unfold Py.SF in *. unfold finite, Py.SF in H.
  rewrite !FloatAxioms.div_spec, FloatAxioms.mul_spec in *.
  destruct H as [[Hd Hz]|[He|(Hh & Hz & Hf)]].
  - rewrite Hz, Hd, SFmul_nan_r, SFdiv_nan_l. reflexivity.
  - rewrite (eqb_nan_false e He), He, !SFdiv_nan_r. reflexivity.
  - rewrite Hz, Hh, SFdiv_nan_l.
    destruct (SF64div _ _); try destruct Hf; reflexivity.
Qed.

Lemma nan_argument_raises_ValueError_witness :
  generate_abaqus_input Ref.radians Ref.cos Ref.sin nan 1.125 270 29000000 6
  = Raise ValueError.
Proof.
  apply (nan_argument_raises_ValueError Ref.radians Ref.cos Ref.sin nan 1.125 270 29000000 6).
  left. split; reflexivity.
Defined.

(** X4: an infinite element size is accepted: with a finite product
    [3.1416 * diameter] and a finite height both counts are 0, and the
    call returns the document with no node and no element. *)
Theorem infinite_element_size_gives_empty_mesh
    (np_radians np_cos np_sin : float -> float) (d t h E e : float) (s : bool) :
  Py.SF e = S754_infinity s ->
  finite (lit_3_1416 * d) -> finite h ->
  num_circumferential d e = Ok 0
  /\ num_vertical h e = Ok 0
  /\ generate_abaqus_input np_radians np_cos np_sin d t h E e
     = Ok ((header ++ element_header ++ trailer t E)%string,
           ascii_bytes (header ++ element_header ++ trailer t E)%string,
           []).
Proof.
  intros He Hd Hh.
  assert (Hc : num_circumferential d e = Ok 0).
  { unfold num_circumferential, Py.float_truediv.
    rewrite (eqb_infinity_false e s He). cbn [bind].
    rewrite float_int_by_cases. unfold finite, Py.SF in *.
    rewrite FloatAxioms.div_spec, He.
    destruct (SFdiv_infinity_r (Prim2SF (lit_3_1416 * d)) s Hd) as [s' ->]. reflexivity. }
  assert (Hv : num_vertical h e = Ok 0).
  { unfold num_vertical, Py.float_truediv.
    rewrite (eqb_infinity_false e s He). cbn [bind].
    rewrite float_int_by_cases. unfold finite, Py.SF in *.
    rewrite FloatAxioms.div_spec, He.
    destruct (SFdiv_infinity_r (Prim2SF h) s Hh) as [s' ->]. reflexivity. }
  split; [exact Hc|]. split; [exact Hv|].
  now rewrite (generate_ok np_radians np_cos np_sin d t h E e 0 0 Hc Hv).
Qed.

Lemma infinite_element_size_gives_empty_mesh_witness :
  num_circumferential 120 infinity = Ok 0 /\ num_vertical 270 infinity = Ok 0.
Proof.
  pose proof (infinite_element_size_gives_empty_mesh Ref.radians Ref.cos Ref.sin
                120 1.125 270 29000000 infinity false eq_refl I I) as H.
  exact (conj (proj1 H) (proj1 (proj2 H))).
Defined.


(** ** Arguments of opposite signs *)

Section Signs.

Lemma ltb_0_negative x : (x <? 0)%float = true -> negative_SF (Py.SF x).
Proof.
  rewrite FloatAxioms.ltb_spec. unfold Py.SF.
  change (Prim2SF 0) with (S754_zero false).
  destruct (Prim2SF x) as [s|[]| |[] m e]; cbn; intros H; try discriminate; exact I.
Qed.

Lemma negative_signed x : negative_SF x -> signed_SF true x.
Proof. destruct x as [s|[]| |[] m e]; cbn; intros H; try destruct H; reflexivity. Qed.

Lemma positive_signed x : positive_SF x -> signed_SF false x.
Proof. destruct x as [s|[]| |[] m e]; cbn; intros H; try destruct H; reflexivity. Qed.

(** The sign of a product and of a quotient is the exclusive or of the
    signs. *)
Lemma SFmul_signed s1 s2 x y :
  signed_SF s1 x -> signed_SF s2 y -> signed_SF (xorb s1 s2) (SF64mul x y).
Proof.
  unfold signed_SF, SF64mul, SFmul.
  destruct x as [s|s| |s m e], y as [s'|s'| |s' m' e']; intros Hx Hy; subst;
    try exact I; try reflexivity.
  pose proof (binary_round_aux_sign (xorb s1 s2) (Z.pos (m * m')) (e + e') loc_Exact) as H.
  destruct (binary_round_aux _ _ _ _ _ _); auto.
Qed.

Lemma SFdiv_signed s1 s2 x y :
  signed_SF s1 x -> signed_SF s2 y -> signed_SF (xorb s1 s2) (SF64div x y).
Proof.
  unfold signed_SF, SF64div, SFdiv.
  destruct x as [s|s| |s m e], y as [s'|s'| |s' m' e']; intros Hx Hy; subst;
    try exact I; try reflexivity.
  destruct (SFdiv_core_binary prec emax (Z.pos m) e (Z.pos m') e') as [[mz ez] lz].
  pose proof (binary_round_aux_sign (xorb s1 s2) mz ez lz) as H.
  destruct (binary_round_aux _ _ _ _ _ _); auto.
Qed.

(** [int()] of a value with a minus sign is not positive. *)
Lemma float_int_nonpositive x n :
  signed_SF true (Py.SF x) -> Py.float_int x = Ok n -> n <= 0.
Proof.
  rewrite float_int_by_cases. unfold signed_SF.
  destruct (Py.SF x) as [s|s| |s m e]; intros Hs H; try discriminate.
  - inversion H. lia.
  - subst s. inversion H.
    pose proof (Z.shiftl_nonneg (Z.pos m) e). lia.
Qed.

Lemma opposite_signs x y :
  ((0 <? x)%float = true /\ (y <? 0)%float = true)
  \/ ((x <? 0)%float = true /\ (0 <? y)%float = true) ->
  exists sx sy, signed_SF sx (Py.SF x) /\ signed_SF sy (Py.SF y) /\ xorb sx sy = true
                /\ (y =? 0)%float = false.
Proof.
  intros [[Hx Hy]|[Hx Hy]].
  - exists false, true. repeat split.
    + now apply positive_signed, ltb_0_positive.
    + now apply negative_signed, ltb_0_negative.
    + apply ltb_0_negative in Hy. rewrite FloatAxioms.eqb_spec. unfold Py.SF in Hy.
      change (Prim2SF 0) with (S754_zero false).
      destruct (Prim2SF y) as [s|[]| |[] m e]; cbn in *; try destruct Hy; reflexivity.
  - exists true, false. repeat split.
    + now apply negative_signed, ltb_0_negative.
    + now apply positive_signed, ltb_0_positive.
    + now apply ltb_0_nonzero.
Qed.

Lemma num_circumferential_opposite d e nc :
  ((0 <? d)%float = true /\ (e <? 0)%float = true)
  \/ ((d <? 0)%float = true /\ (0 <? e)%float = true) ->
  num_circumferential d e = Ok nc -> nc <= 0.
Proof.
  intros Hs Hnc. destruct (opposite_signs d e Hs) as (sd & se & Hd & He & Hx & Hz).
  unfold num_circumferential, Py.float_truediv in Hnc. rewrite Hz in Hnc. cbn [bind] in Hnc.
  apply (float_int_nonpositive _ _) in Hnc; [exact Hnc|].
  unfold Py.SF in *. rewrite FloatAxioms.div_spec, FloatAxioms.mul_spec.
  rewrite <- Hx. apply SFdiv_signed; [|exact He].
  replace sd with (xorb false sd) by reflexivity.
  apply SFmul_signed; [reflexivity|exact Hd].
Qed.

Lemma num_vertical_opposite h e nv :
  ((0 <? h)%float = true /\ (e <? 0)%float = true)
  \/ ((h <? 0)%float = true /\ (0 <? e)%float = true) ->
  num_vertical h e = Ok nv -> nv <= 0.
Proof.
  intros Hs Hnv. destruct (opposite_signs h e Hs) as (sh & se & Hh & He & Hx & Hz).
  unfold num_vertical, Py.float_truediv in Hnv. rewrite Hz in Hnv. cbn [bind] in Hnv.
  apply (float_int_nonpositive _ _) in Hnv; [exact Hnv|].
  unfold Py.SF in *. rewrite FloatAxioms.div_spec.
  rewrite <- Hx. now apply SFdiv_signed.
Qed.

End Signs.

(** X5: a diameter and an element size of opposite signs are accepted: the
    count of columns is then zero or negative, and when both counts are
    computed the call returns the document with no node and no element,
    and no coordinate. *)
Theorem opposite_signs_give_empty_mesh
    (np_radians np_cos np_sin : float -> float) (d t h E e : float) (nc nv : Z) :
  ((0 <? d)%float = true /\ (e <? 0)%float = true)
  \/ ((d <? 0)%float = true /\ (0 <? e)%float = true) ->
  num_circumferential d e = Ok nc ->
  num_vertical h e = Ok nv ->
  nc <= 0
  /\ generate_abaqus_input np_radians np_cos np_sin d t h E e
     = Ok ((header ++ element_header ++ trailer t E)%string,
           ascii_bytes (header ++ element_header ++ trailer t E)%string,
           []).
Proof.
  intros Hs Hnc Hnv.
  pose proof (num_circumferential_opposite d e nc Hs Hnc) as Hle.
  split; [exact Hle|].
  rewrite (generate_ok np_radians np_cos np_sin d t h E e nc nv Hnc Hnv).
  unfold document, node_table, element_table.
  rewrite !grid_nil_cols by lia. reflexivity.
Qed.

Lemma opposite_signs_give_empty_mesh_witness :
  generate_abaqus_input Ref.radians Ref.cos Ref.sin 120 1.125 270 29000000 (-6)
  = Ok ((header ++ element_header ++ trailer 1.125 29000000)%string,
        ascii_bytes (header ++ element_header ++ trailer 1.125 29000000)%string,
        []).
Proof.
  refine (proj2 (opposite_signs_give_empty_mesh Ref.radians Ref.cos Ref.sin
                   120 1.125 270 29000000 (-6) (-62) (-45) _ eq_refl eq_refl)).
  left. split; reflexivity.
Defined.

(** X6: a height and an element size of opposite signs are accepted too:
    the count of rings is zero or negative, no element is written, and the
    nodes written are those of ring 0 alone when the count is zero (the
    quotient lies above -1) and none otherwise. *)
Theorem negative_height_gives_no_element
    (np_radians np_cos np_sin : float -> float) (d t h E e : float) (nc nv : Z) :
  ((0 <? h)%float = true /\ (e <? 0)%float = true)
  \/ ((h <? 0)%float = true /\ (0 <? e)%float = true) ->
  num_circumferential d e = Ok nc ->
  num_vertical h e = Ok nv ->
  let ns := node_table np_radians np_cos np_sin (d / 2)%float e nc nv in
  nv <= 0
  /\ generate_abaqus_input np_radians np_cos np_sin d t h E e
     = Ok ((header ++ join (map render_node ns) ++ element_header ++ trailer t E)%string,
           ascii_bytes (document np_radians np_cos np_sin d t E e nc nv),
           map snd ns)
  /\ Z.of_nat (length ns) = (if nv =? 0 then Z.max nc 0 else 0).
Proof.
  intros Hs Hnc Hnv ns.
  pose proof (num_vertical_opposite h e nv Hs Hnv) as Hle.
  split; [exact Hle|]. split.
  - rewrite (generate_ok np_radians np_cos np_sin d t h E e nc nv Hnc Hnv).
    unfold document, element_table. rewrite (grid_nil_rows nv nc) by lia. reflexivity.
  - unfold ns, node_table. rewrite length_map.
    destruct (Z.eqb_spec nv 0) as [->|Hne].
    + destruct (Z_le_gt_dec nc 0).
      * rewrite grid_nil_cols by lia. cbn. lia.
      * rewrite length_grid by lia. lia.
    + rewrite grid_nil_rows by lia. reflexivity.
Qed.

Lemma negative_height_gives_no_element_witness :
  Z.of_nat (length (node_table Ref.radians Ref.cos Ref.sin (120 / 2)%float 6 62 0))
  = (if 0 =? 0 then Z.max 62 0 else 0).
Proof.
  refine (proj2 (proj2 (negative_height_gives_no_element Ref.radians Ref.cos Ref.sin
                   120 1.125 (-1) 29000000 6 62 0 _ eq_refl eq_refl))).
  right. split; reflexivity.
Defined.


(** ** The coordinates returned and the node lines written *)

Section Numbering.

Lemma render_by_index (l : list (Z * point)) : forall a,
  map fst l = seqZ a (Z.of_nat (length l)) ->
  map render_node l
  = imap (fun k p => node_line (a + Z.of_nat k) p.1.1 p.1.2 p.2) (map snd l).
Proof.
  induction l as [|[id p] l IH]; intros a Hl; [reflexivity|].
  cbn [length map] in *. rewrite Nat2Z.inj_succ, seqZ_cons in Hl by lia.
  inversion Hl as [[Hid Htl]]. cbn [fst] in *.
  rewrite Z.pred_succ in Htl. rewrite imap_cons. f_equal.
  - unfold render_node. cbn [fst snd]. now rewrite Z.add_0_r.
  - rewrite (IH (Z.succ a) Htl). apply imap_ext. intros k q _. cbn.
    f_equal. lia.
Qed.

End Numbering.

(** X7: the coordinates returned are those of the node lines, in the same
    order: numbering the returned list from 1 and formatting each triple
    gives back the node block of the text, line for line, whatever the
    counts. *)
Theorem coordinates_match_node_lines
    (np_radians np_cos np_sin : float -> float) (d t h E e : float) :
  match generate_abaqus_input np_radians np_cos np_sin d t h E e with
  | Ok (inp_content, _, node_coordinates) =>
      exists nc nv,
        num_circumferential d e = Ok nc /\ num_vertical h e = Ok nv
        /\ inp_content
           = (header
                ++ join (imap (fun k p => node_line (1 + Z.of_nat k) p.1.1 p.1.2 p.2)
                           node_coordinates)
                ++ element_header
                ++ join (map render_element (element_table nc nv))
                ++ trailer t E)%string
  | Raise _ => True
  end.
Proof.
  rewrite generate_eq.
  destruct (num_circumferential d e) as [nc|x] eqn:Hnc; cbn [bind]; [|exact I].
  destruct (num_vertical h e) as [nv|x] eqn:Hnv; cbn [bind]; [|exact I].
  exists nc, nv. split; [reflexivity|]. split; [reflexivity|].
  unfold document. f_equal. f_equal. f_equal.
  set (ns := node_table np_radians np_cos np_sin (d / 2)%float e nc nv).
  apply render_by_index.
  destruct (Z_le_gt_dec nc 0) as [Hle|Hgt].
  - unfold ns, node_table. now rewrite grid_nil_cols by lia.
  - destruct (Z_le_gt_dec (nv + 1) 0) as [Hle'|Hgt'].
    + unfold ns, node_table. now rewrite grid_nil_rows by lia.
    + unfold ns. rewrite node_table_ids by lia.
      f_equal. symmetry. apply length_node_table; lia.
Qed.


(** ** The lines of the text *)

Section Lines.

Import Fmt.
Open Scope string_scope.

Lemma newlines_app s1 s2 : newlines (s1 ++ s2) = (newlines s1 + newlines s2)%nat.
Proof.
  induction s1 as [|c s1 IH]; [reflexivity|].
  rewrite append_cons. cbn [newlines]. rewrite IH. lia.
Qed.

Lemma newlines_join_map {A : Type} (f : A -> string) (l : list A) (k : nat) :
  (forall a, newlines (f a) = k) ->
  newlines (join (map f l)) = (k * length l)%nat.
Proof.
  intros Hf. induction l as [|a l IH]; [cbn; lia|].
  change (join (map f (a :: l))) with (f a ++ join (map f l)).
  rewrite newlines_app, Hf, IH. cbn [length]. lia.
Qed.

Lemma newlines_string_of_uint d : newlines (NilEmpty.string_of_uint d) = O.
Proof. induction d; cbn; auto. Qed.

Lemma newlines_str_int n : newlines (str_int n) = O.
Proof.
  unfold str_int, NilZero.string_of_int, NilZero.string_of_uint.
  destruct (Z.to_int n) as [d|d]; destruct d; try reflexivity;
    cbn [newlines]; try apply newlines_string_of_uint;
    try (change (Ascii.eqb "-" "010") with false; cbn [Nat.add];
         try reflexivity; apply newlines_string_of_uint).
Qed.

Lemma newlines_sign s : newlines (sign s) = O.
Proof. destruct s; reflexivity. Qed.

Lemma newlines_digit k : 0 <= k <= 9 -> newlines (digit k) = O.
Proof.
  intros Hk. pose proof (digit_cases k Hk) as H. cbn [In] in H.
  repeat (destruct H as [<-|H]; [reflexivity|]). destruct H.
Qed.

Lemma newlines_pad3 n : 0 <= n < 1000 -> newlines (pad3 n) = O.
Proof.
  intros Hn. unfold pad3.
  assert (0 <= n / 100 <= 9)
    by (split; [apply Z.div_pos; lia|apply Z.lt_succ_r, Z.div_lt_upper_bound; lia]).
  pose proof (Z.mod_pos_bound (n / 10) 10 ltac:(lia)).
  pose proof (Z.mod_pos_bound n 10 ltac:(lia)).
  rewrite !newlines_app, !newlines_digit by lia. reflexivity.
Qed.

Lemma newlines_format_3f x : newlines (format_3f x) = O.
Proof.
  unfold format_3f. destruct (Py.SF x) as [s|s| |s m e];
    rewrite ?newlines_app, ?newlines_sign; try reflexivity.
  rewrite newlines_str_int, newlines_pad3; [reflexivity|].
  apply Z.mod_pos_bound. lia.
Qed.

Lemma newlines_substring s : newlines s = O ->
  forall n m, newlines (substring n m s) = O.
Proof.
  induction s as [|c s IH]; intros Hs n m.
  - destruct n, m; reflexivity.
  - cbn [newlines] in Hs.
    destruct n as [|n]; cbn [substring].
    + destruct m as [|m]; [reflexivity|]. cbn [newlines].
      rewrite IH by lia. lia.
    + apply IH. lia.
Qed.

Lemma newlines_zeros n : newlines (zeros n) = O.
Proof. induction n as [|n IH]; [reflexivity|exact IH]. Qed.

Lemma newlines_exponent_suffix x : newlines (exponent_suffix x) = O.
Proof.
  unfold exponent_suffix.
  destruct (x <? 0)%Z, (Z.abs x <? 10)%Z;
    rewrite ?newlines_app, ?newlines_str_int; reflexivity.
Qed.

Lemma newlines_repr_layout ds decpt :
  newlines ds = O -> newlines (repr_layout ds decpt) = O.
Proof.
  intros Hds. unfold repr_layout.
  repeat match goal with
         | |- context [if ?b then _ else _] => destruct b
         end;
    rewrite ?newlines_app, ?newlines_substring, ?newlines_zeros,
      ?newlines_exponent_suffix, ?Hds by exact Hds; reflexivity.
Qed.

Lemma newlines_float_repr x : newlines (float_repr x) = O.
Proof.
  unfold float_repr. destruct (Py.SF x) as [s|s| |s m e];
    rewrite ?newlines_app, ?newlines_sign; try reflexivity.
  unfold repr_finite.
  destruct (shortest _ _ _ _ _) as [D0 p0]. destruct (strip_zeros _ _ _) as [D p].
  apply newlines_repr_layout, newlines_str_int.
Qed.

Lemma newlines_render_node n : newlines (render_node n) = 1%nat.
Proof.
  unfold render_node, node_line.
  rewrite !newlines_app, newlines_str_int, !newlines_format_3f. reflexivity.
Qed.

Lemma newlines_render_element nc i j :
  newlines (render_element (grid_id nc i j, quad nc i j)) = 1%nat.
Proof.
  unfold render_element, quad, element_line. cbn [fst snd].
  rewrite !newlines_app, !newlines_str_int. reflexivity.
Qed.

Lemma newlines_trailer t E : newlines (trailer t E) = 17%nat.
Proof.
  unfold trailer. rewrite !newlines_app, !newlines_float_repr. reflexivity.
Qed.

Lemma length_grid_max rows cols :
  Z.of_nat (length (grid rows cols)) = Z.max rows 0 * Z.max cols 0.
Proof.
  destruct (Z_le_gt_dec rows 0); [rewrite grid_nil_rows by lia; cbn; lia|].
  destruct (Z_le_gt_dec cols 0); [rewrite grid_nil_cols by lia; cbn; lia|].
  rewrite length_grid by lia. lia.
Qed.

Lemma newlines_document np_radians np_cos np_sin d t E e nc nv :
  Z.of_nat (newlines (document np_radians np_cos np_sin d t E e nc nv))
  = 24 + Z.max (nv + 1) 0 * Z.max nc 0 + Z.max nv 0 * Z.max nc 0.
Proof.
  unfold document. rewrite !newlines_app, newlines_trailer.
  rewrite (newlines_join_map render_node _ 1) by apply newlines_render_node.
  unfold element_table. rewrite map_map.
  rewrite (newlines_join_map _ _ 1) by (intros [i j]; apply newlines_render_element).
  unfold node_table. rewrite length_map.
  change (newlines header) with 6%nat. change (newlines element_header) with 1%nat.
  rewrite !Nat2Z.inj_add, !Nat2Z.inj_mul, !length_grid_max. lia.
Qed.

End Lines.

(** X8: the text has one line for each node and each element beside its 24
    fixed lines: for counts [nc] and [nv] it holds exactly
    [24 + max(nv+1,0) * max(nc,0) + max(nv,0) * max(nc,0)] newline
    characters, and the coordinates returned are as many as the node
    lines. *)
Theorem text_line_count
    (np_radians np_cos np_sin : float -> float) (d t h E e : float) :
  match generate_abaqus_input np_radians np_cos np_sin d t h E e with
  | Ok (inp_content, _, node_coordinates) =>
      exists nc nv,
        num_circumferential d e = Ok nc /\ num_vertical h e = Ok nv
        /\ Z.of_nat (newlines inp_content)
           = 24 + Z.max (nv + 1) 0 * Z.max nc 0 + Z.max nv 0 * Z.max nc 0
        /\ Z.of_nat (length node_coordinates) = Z.max (nv + 1) 0 * Z.max nc 0
  | Raise _ => True
  end.
Proof.
  rewrite generate_eq.
  destruct (num_circumferential d e) as [nc|x] eqn:Hnc; cbn [bind]; [|exact I].
  destruct (num_vertical h e) as [nv|x] eqn:Hnv; cbn [bind]; [|exact I].
  exists nc, nv. split; [reflexivity|]. split; [reflexivity|].
  split; [apply newlines_document|].
  unfold node_table. rewrite !length_map. apply length_grid_max.
Qed.

Section Conformity.

Lemma grid_id_inj nc a b i j :
  0 <= b < nc -> 0 <= j < nc -> grid_id nc a b = grid_id nc i j -> a = i /\ b = j.
Proof.
  unfold grid_id. intros Hb Hj Heq.
  assert (a = i); [|subst; lia].
  destruct (Z.lt_trichotomy a i) as [Hlt|[Heq'|Hgt]]; [|assumption|].
  - assert ((a + 1) * nc <= i * nc) by (apply Z.mul_le_mono_nonneg_r; lia). lia.
  - assert ((i + 1) * nc <= a * nc) by (apply Z.mul_le_mono_nonneg_r; lia). lia.
Qed.

Lemma pred_wrap nc j :
  0 < nc -> 0 <= j < nc ->
  (j - 1) mod nc = if decide (j = 0) then nc - 1 else j - 1.
Proof.
  intros Hnc Hj. destruct (decide (j = 0)) as [->|Hne].
  - symmetry. apply (Z.mod_unique (0 - 1) nc (-1)); lia.
  - apply Z.mod_small. lia.
Qed.

Lemma pred_col nc b j :
  0 < nc -> 0 <= b < nc -> 0 <= j < nc ->
  (b + 1) mod nc = j <-> b = (j - 1) mod nc.
Proof.
  intros Hnc Hb Hj. rewrite quad_wrap, pred_wrap by lia.
  destruct (decide (b = nc - 1)), (decide (j = 0)); lia.
Qed.

Lemma mod_col nc j : 0 < nc -> 0 <= j mod nc < nc.
Proof. intros. apply Z.mod_pos_bound. lia. Qed.

Lemma in_quad nc a b i j :
  0 < nc -> 0 <= b < nc -> 0 <= j < nc ->
  In (grid_id nc i j) (quad nc a b) <->
  (a = i \/ a = i - 1) /\ (b = j \/ b = (j - 1) mod nc).
Proof.
  intros Hnc Hb Hj. pose proof (mod_col nc (b + 1) Hnc) as Hm.
  pose proof (pred_col nc b j Hnc Hb Hj) as Hp.
  unfold quad. cbn [In]. split.
  - intros [H|[H|[H|[H|[]]]]]; apply grid_id_inj in H; try lia;
      destruct H as [Ha H]; try apply Hp in H; lia.
  - intros [[->| ->] [->|Hb']].
    + now left.
    + right; left. f_equal. now apply Hp.
    + right; right; right; left. f_equal. lia.
    + right; right; left. f_equal; [lia|now apply Hp].
Qed.

Lemma elements_at_members nc nv i j el :
  0 < nc -> 0 <= j < nc ->
  In el (elements_at nc nv (grid_id nc i j)) <->
  exists a b, el = (grid_id nc a b, quad nc a b)
    /\ 0 <= a < nv /\ (a = i \/ a = i - 1) /\ (b = j \/ b = (j - 1) mod nc).
Proof.
  intros Hnc Hj. unfold elements_at. rewrite filter_In, in_element_table.
  unfold has_corner. rewrite existsb_exists. split.
  - intros [(a & b & Ha & Hb & ->) (n & Hin & Hn)]. cbn [snd] in Hin.
    apply Z.eqb_eq in Hn. subst n. apply in_quad in Hin; [|lia..].
    exists a, b. tauto.
  - intros (a & b & -> & Ha & Hai & Hbj).
    assert (Hb : 0 <= b < nc).
    { destruct Hbj as [->| ->]; [lia|now apply mod_col]. }
    split; [now exists a, b|].
    exists (grid_id nc i j). split; [|apply Z.eqb_refl].
    cbn [snd]. apply in_quad; [lia..|]. tauto.
Qed.

Lemma NoDup_element_table nc nv : List.NoDup (element_table nc nv).
Proof.
  apply (NoDup_map_inv fst).
  destruct (Z_le_gt_dec nv 0) as [Hv|Hv].
  { unfold element_table. rewrite grid_nil_rows by lia. constructor. }
  destruct (Z_le_gt_dec nc 0) as [Hc|Hc].
  { unfold element_table. rewrite grid_nil_cols by lia. constructor. }
  rewrite element_table_ids by lia. apply NoDup_ListNoDup, NoDup_seqZ.
Qed.

Lemma same_members_same_length {A : Type} (l l' : list A) :
  List.NoDup l -> List.NoDup l' -> (forall x, In x l <-> In x l') -> length l = length l'.
Proof.
  intros Hl Hl' Hin. apply Permutation.Permutation_length.
  now apply Permutation.NoDup_Permutation.
Qed.

Lemma NoDup_by_ids nc (l : list (Z * Z)) :
  List.NoDup (map (fun ab => grid_id nc ab.1 ab.2) l) ->
  List.NoDup (map (fun ab => (grid_id nc ab.1 ab.2, quad nc ab.1 ab.2)) l).
Proof.
  intros H. apply (NoDup_map_inv fst). now rewrite map_map.
Qed.

Lemma elements_at_length nc nv i j (l : list (Z * Z)) :
  0 < nc -> 0 <= j < nc ->
  List.NoDup (map (fun ab => grid_id nc ab.1 ab.2) l) ->
  (forall a b, In (a, b) l <->
     0 <= a < nv /\ (a = i \/ a = i - 1) /\ (b = j \/ b = (j - 1) mod nc)) ->
  length (elements_at nc nv (grid_id nc i j)) = length l.
Proof.
  intros Hnc Hj Hnd Hl.
  rewrite <- (length_map (fun ab => (grid_id nc ab.1 ab.2, quad nc ab.1 ab.2)) l).
  apply same_members_same_length.
  - apply List.NoDup_filter, NoDup_element_table.
  - now apply NoDup_by_ids.
  - intros el. rewrite elements_at_members by lia. rewrite in_map_iff. split.
    + intros (a & b & -> & H). exists (a, b). split; [reflexivity|]. now apply Hl.
    + intros ([a b] & <- & H). exists a, b. split; [reflexivity|]. now apply Hl.
Qed.

End Conformity.

(** ** The caller *)

Section CallerFacts.

Variables np_radians np_cos np_sin : float -> float.

Lemma unpack3_zip_star (l : list point) :
  unpack3 (zip_star l)
  = match l with
    | [] => Raise ValueError
    | _ :: _ => Ok (map (fun p => p.1.1) l, map (fun p => p.1.2) l, map (fun p => p.2) l)
    end.
Proof. now destruct l. Qed.

Lemma node_table_nil radius e nc nv :
  nc <= 0 \/ nv < 0 -> node_table np_radians np_cos np_sin radius e nc nv = [].
Proof.
  intros [H|H]; unfold node_table.
  - now rewrite grid_nil_cols.
  - rewrite grid_nil_rows by lia. reflexivity.
Qed.

Lemma node_table_lookup radius e nc nv i j :
  0 <= i <= nv -> 0 <= j < nc ->
  nth_error (map snd (node_table np_radians np_cos np_sin radius e nc nv))
    (Z.to_nat (i * nc + j))
  = Some (node_point np_radians np_cos np_sin radius e nc i j).
Proof.
  intros Hi Hj. unfold node_table.
  rewrite map_map, nth_error_map, grid_lookup by lia. reflexivity.
Qed.

End CallerFacts.

(** X11: what the page does after the call (lines 79 and 97).  An exception
    of the generator goes through.  When the generator returns a mesh
    without nodes, that is with [nc <= 0] or [nv < 0], the unpacking of
    line 97 raises ValueError.  Otherwise [x_vals], [y_vals] and [z_vals]
    are three sequences of [(nv + 1) * nc] numbers: the coordinates of the
    nodes in the order of their ids. *)
Theorem mesh_columns_outcome
    (np_radians np_cos np_sin : float -> float) (d t h E e : float) :
  match num_circumferential d e, num_vertical h e with
  | Ok nc, Ok nv =>
      if decide (1 <= nc /\ 0 <= nv) then
        exists x_vals y_vals z_vals,
          mesh_columns np_radians np_cos np_sin d t h E e
          = Ok (x_vals, y_vals, z_vals)
          /\ Z.of_nat (length x_vals) = (nv + 1) * nc
          /\ length y_vals = length x_vals
          /\ length z_vals = length x_vals
          /\ forall i j, 0 <= i <= nv -> 0 <= j < nc ->
               let k := Z.to_nat (grid_id nc i j - 1) in
               let p := node_point np_radians np_cos np_sin (d / 2)%float e nc i j in
               nth_error x_vals k = Some p.1.1
               /\ nth_error y_vals k = Some p.1.2
               /\ nth_error z_vals k = Some p.2
      else mesh_columns np_radians np_cos np_sin d t h E e = Raise ValueError
  | Ok _, Raise x | Raise x, _ =>
      mesh_columns np_radians np_cos np_sin d t h E e = Raise x
  end.
Proof.
  unfold mesh_columns. rewrite generate_eq.
  destruct (num_circumferential d e) as [nc|x]; [|reflexivity].
  destruct (num_vertical h e) as [nv|x]; [|reflexivity].
  cbn [bind snd]. rewrite unpack3_zip_star.
  set (ns := node_table np_radians np_cos np_sin (d / 2)%float e nc nv).
  destruct (decide (1 <= nc /\ 0 <= nv)) as [[Hnc Hnv]|Hdeg].
  - pose proof (length_node_table np_radians np_cos np_sin (d / 2)%float e nc nv
                  ltac:(lia) ltac:(lia)) as Hlen.
    fold ns in Hlen.
    assert (Hpos : 0 < (nv + 1) * nc) by nia.
    destruct (map snd ns) as [|p l] eqn:Hns.
    { apply (f_equal (@length _)) in Hns. rewrite length_map in Hns.
      cbn [length] in Hns. lia. }
    rewrite <- Hns. eexists _, _, _. split; [reflexivity|].
    rewrite !length_map. split; [exact Hlen|]. split; [reflexivity|].
    split; [reflexivity|].
    intros i j Hi Hj. cbv zeta.
    replace (grid_id nc i j - 1) with (i * nc + j) by (unfold grid_id; lia).
    set (cs := map snd ns). rewrite !nth_error_map. unfold cs, ns.
    rewrite node_table_lookup by lia. repeat split.
  - unfold ns. rewrite node_table_nil by lia. reflexivity.
Qed.

(** ** The three decimals of a coordinate *)

Section Decimals.

Lemma round_half_even_near N d :
  0 <= N -> 0 < d ->
  let r := Fmt.round_half_even N d in
  0 <= r /\ - d <= 2 * (r * d - N) <= d
  /\ (2 * (r * d - N) = d \/ 2 * (r * d - N) = - d -> Z.even r = true).
Proof.
  intros HN Hd. unfold Fmt.round_half_even.
  pose proof (Z.div_mod N d ltac:(lia)) as Hdm.
  pose proof (Z.mod_pos_bound N d Hd) as Hm.
  pose proof (Z.div_pos N d HN Hd) as Hq.
  set (q := N / d) in *. set (m := N mod d) in *.
  destruct (Z.compare_spec (2 * m) d) as [Heq|Hlt|Hgt].
  - destruct (Z.even q) eqn:Hev; cbv zeta.
    + repeat split; try lia. now intros _.
    + repeat split; try lia. intros _.
      rewrite Z.add_1_r, Z.even_succ, <- Z.negb_even, Hev. reflexivity.
  - cbv zeta. repeat split; try lia.
  - cbv zeta. repeat split; try lia.
Qed.

Lemma thousandths_near m e :
  let n := Fmt.thousandths m e in
  (0 <= n)%Z
  /\ (Rabs (IZR n / 1000 - IZR (Z.pos m) * powerRZ 2 e) <= 1 / 2000)%R
  /\ (Rabs (IZR n / 1000 - IZR (Z.pos m) * powerRZ 2 e) = 1 / 2000 ->
      Z.even n = true)%R.
Proof.
  unfold Fmt.thousandths. destruct (0 <=? e) eqn:He; cbv zeta.
  - apply Z.leb_le in He.
    assert (Hp : 0 < 2 ^ e) by (apply Z.pow_pos_nonneg; lia).
    rewrite !mult_IZR, IZR_pow2 by lia.
    replace (IZR (Z.pos m) * 1000 * powerRZ 2 e / 1000
             - IZR (Z.pos m) * powerRZ 2 e)%R with 0%R by (field; lra).
    rewrite Rabs_R0. split; [nia|]. split; [lra|]. intros H. lra.
  - apply Z.leb_gt in He.
    assert (Hk : exists k, 0 < k /\ e = - k) by (exists (- e); lia).
    destruct Hk as (k & Hk & ->). rewrite Z.opp_involutive.
    set (D := 2 ^ k).
    assert (HD : 0 < D) by (apply Z.pow_pos_nonneg; lia).
    destruct (round_half_even_near (Z.pos m * 1000) D ltac:(lia) HD)
      as (Hr0 & [Hlo Hhi] & Hev).
    set (r := Fmt.round_half_even (Z.pos m * 1000) D) in *.
    rewrite powerRZ_neg', <- IZR_pow2 by lia. fold D.
    apply IZR_le in Hlo, Hhi. apply IZR_lt in HD.
    rewrite opp_IZR in Hlo.
    rewrite !mult_IZR, minus_IZR, !mult_IZR in Hlo, Hhi.
    set (v := (IZR (Z.pos m) * / IZR D)%R).
    assert (Hv : (v * IZR D = IZR (Z.pos m))%R) by (unfold v; field; lra).
    rewrite <- Hv in Hlo, Hhi.
    assert (Hb : (-1 <= 2 * (IZR r - 1000 * v) <= 1)%R) by (split; nra).
    split; [exact Hr0|]. split.
    + apply Rabs_le. lra.
    + intros Htie. apply Hev.
      assert (Hc : (2 * (IZR r - 1000 * v) = 1 \/ 2 * (IZR r - 1000 * v) = -1)%R).
      { revert Htie. unfold Rabs. destruct (Rcase_abs _); intros; lra. }
      assert (Hc' : (2 * (IZR r * IZR D - IZR (Z.pos m) * 1000) = IZR D
                     \/ 2 * (IZR r * IZR D - IZR (Z.pos m) * 1000) = - IZR D)%R).
      { rewrite <- Hv. destruct Hc as [Hc|Hc]; [left|right]; nra. }
      destruct Hc' as [Hc'|Hc']; [left|right]; apply eq_IZR;
        rewrite ?opp_IZR, !mult_IZR, minus_IZR, !mult_IZR; exact Hc'.
Qed.

End Decimals.

(** X12: the [.3f] of line 29 writes a finite coordinate as a sign, an
    integer part and three decimals whose value, [n] thousandths, is the
    coordinate rounded to the nearest thousandth: the number written
    differs from the coordinate by at most 0.0005, and by exactly 0.0005
    only when [n] is even. *)
Theorem format_3f_nearest (x : float) :
  finite x ->
  exists (s : bool) (n : Z),
    0 <= n
    /\ Fmt.format_3f x
       = (Fmt.sign s ++ Fmt.str_int (n / 1000) ++ "." ++ Fmt.pad3 (n mod 1000))%string
    /\ (Rabs ((if s then -1 else 1) * (IZR n / 1000) - F2R x) <= 1 / 2000)%R
    /\ (Rabs ((if s then -1 else 1) * (IZR n / 1000) - F2R x) = 1 / 2000 ->
        Z.even n = true)%R.
Proof.
  unfold finite, Fmt.format_3f, F2R.
  destruct (Py.SF x) as [s|s| |s m e]; intros H; try destruct H.
  - exists s, 0. split; [lia|]. split; [reflexivity|].
    replace ((if s then -1 else 1) * (0 / 1000) - 0)%R with 0%R
      by (destruct s; lra).
    rewrite Rabs_R0. split; [lra|]. intros; lra.
  - destruct (thousandths_near m e) as (Hn & Hle & Htie).
    set (n := Fmt.thousandths m e) in *.
    exists s, n. split; [exact Hn|]. split; [reflexivity|].
    assert (Heq : (Rabs ((if s then -1 else 1) * (IZR n / 1000)
                         - (if s then -1 else 1) * IZR (Z.pos m) * powerRZ 2 e)
                   = Rabs (IZR n / 1000 - IZR (Z.pos m) * powerRZ 2 e))%R).
    { destruct s.
      - rewrite <- (Rabs_Ropp (IZR n / 1000 - IZR (Z.pos m) * powerRZ 2 e)).
        f_equal. lra.
      - f_equal. lra. }
    rewrite Heq. split; assumption.
Qed.

Lemma format_3f_nearest_witness :
  exists (s : bool) (n : Z),
    0 <= n
    /\ Fmt.format_3f 0.0625
       = (Fmt.sign s ++ Fmt.str_int (n / 1000) ++ "." ++ Fmt.pad3 (n mod 1000))%string
    /\ (Rabs ((if s then -1 else 1) * (IZR n / 1000) - F2R 0.0625) <= 1 / 2000)%R
    /\ (Rabs ((if s then -1 else 1) * (IZR n / 1000) - F2R 0.0625) = 1 / 2000 ->
        Z.even n = true)%R.
Proof.
  apply (format_3f_nearest 0.0625). vm_compute. exact I.
Defined.

(** ** The bottom ring *)

Section Bottom.

(** A count of at least one column needs a finite element size other
    than zero. *)
Lemma columns_need_finite_size d e nc :
  num_circumferential d e = Ok nc -> 1 <= nc ->
  exists s m ex, Py.SF e = S754_finite s m ex.
Proof.
  unfold num_circumferential, Py.float_truediv.
  destruct (e =? 0)%float eqn:Hz; [discriminate|]. cbn [bind].
  rewrite float_int_by_cases. unfold Py.SF.
  rewrite FloatAxioms.div_spec.
  rewrite FloatAxioms.eqb_spec in Hz.
  destruct (Prim2SF e) as [s|s| |s m ex].
  - destruct s; discriminate.
  - destruct (Prim2SF (lit_3_1416 * d)) as [s'|s'| |s' m' e']; cbn;
      intros [= <-]; lia.
  - rewrite SFdiv_nan_r. discriminate.
  - intros _ _. now exists s, m, ex.
Qed.

Lemma ring_z_0 e s m ex :
  Py.SF e = S754_finite s m ex -> Py.SF (ring_z e 0) = S754_zero s.
Proof.
  intros He. unfold ring_z, Py.SF in *.
  rewrite FloatAxioms.mul_spec, He. reflexivity.
Qed.

Lemma ltb_0_sign e s m ex :
  Py.SF e = S754_finite s m ex -> (e <? 0)%float = s.
Proof.
  intros He. unfold Py.SF in He. rewrite FloatAxioms.ltb_spec, He.
  destruct s; reflexivity.
Qed.

End Bottom.

(** X14: the mesh starts at height zero: whenever there is a node, every
    node of the first ring, ids [1 .. nc], has a zero for its [z], written
    [0.000] when the element size is positive and [-0.000] when it is
    negative. *)
Theorem bottom_ring_at_zero
    (np_radians np_cos np_sin : float -> float) (d t h E e : float) (nc nv : Z) :
  num_circumferential d e = Ok nc ->
  num_vertical h e = Ok nv ->
  1 <= nc -> 0 <= nv ->
  let ns := node_table np_radians np_cos np_sin (d / 2)%float e nc nv in
  generate_abaqus_input np_radians np_cos np_sin d t h E e
  = Ok ((header ++ join (map render_node ns) ++ element_header
           ++ join (map render_element (element_table nc nv)) ++ trailer t E)%string,
        ascii_bytes (document np_radians np_cos np_sin d t E e nc nv),
        map snd ns)
  /\ forall j, 0 <= j < nc ->
       exists x y z,
         nth_error (map snd ns) (Z.to_nat j) = Some (x, y, z)
         /\ Py.SF z = S754_zero (e <? 0)%float
         /\ nth_error (map render_node ns) (Z.to_nat j)
            = Some (Fmt.str_int (j + 1) ++ ", " ++ Fmt.format_3f x ++ ", "
                      ++ Fmt.format_3f y ++ ", "
                      ++ (if (e <? 0)%float then "-0.000" else "0.000")
                      ++ Fmt.nl)%string.
Proof.
  intros Hnc Hnv H1 H0 ns.
  split; [now apply generate_ok|].
  intros j Hj.
  destruct (columns_need_finite_size d e nc Hnc H1) as (s & m & ex & He).
  pose proof (ring_z_0 e s m ex He) as Hz.
  rewrite (ltb_0_sign e s m ex He).
  eexists _, _, _. split; [|split].
  - replace j with (0 * nc + j) at 1 by lia. unfold ns.
    rewrite node_table_lookup by lia. reflexivity.
  - exact Hz.
  - replace j with (0 * nc + j) at 1 by lia. unfold ns, node_table.
    rewrite map_map, nth_error_map, grid_lookup by lia.
    cbn [option_map fst snd]. unfold render_node, node_line, node_point. cbn [fst snd].
    replace (grid_id nc 0 j) with (j + 1) by (unfold grid_id; lia).
    do 7 f_equal. unfold Fmt.format_3f. rewrite Hz. now destruct s.
Qed.

Lemma bottom_ring_at_zero_witness :
  exists x y z,
    nth_error (map snd (node_table Ref.radians Ref.cos Ref.sin (120 / 2)%float 6 62 45))
      (Z.to_nat 61) = Some (x, y, z)
    /\ Py.SF z = S754_zero (6 <? 0)%float
    /\ nth_error
         (map render_node (node_table Ref.radians Ref.cos Ref.sin (120 / 2)%float 6 62 45))
         (Z.to_nat 61)
       = Some (Fmt.str_int (61 + 1) ++ ", " ++ Fmt.format_3f x ++ ", "
                 ++ Fmt.format_3f y ++ ", "
                 ++ (if (6 <? 0)%float then "-0.000" else "0.000")
                 ++ Fmt.nl)%string.
Proof.
  refine (proj2 (bottom_ring_at_zero
                   Ref.radians Ref.cos Ref.sin 120 1.125 270 29000000 6 62 45
                   _ _ _ _) 61 _);
    first [vm_compute; reflexivity | lia].
Defined.

(** * The text, read back *)

Section Reading.

Import Fmt.
Open Scope string_scope.

(** ** Characters that the numbers never hold *)

Lemma lacks_app c s1 s2 : lacks c (s1 ++ s2) = lacks c s1 && lacks c s2.
Proof.
  induction s1 as [|a s1 IH]; [reflexivity|].
  rewrite append_cons. cbn [lacks]. rewrite IH. now rewrite andb_assoc.
Qed.

Lemma lacks_string_of_uint c d :
  c = ","%char \/ c = "*"%char \/ c = "."%char ->
  lacks c (NilEmpty.string_of_uint d) = true.
Proof. intros [->|[->| ->]]; induction d; cbn; auto. Qed.

Lemma lacks_nilzero_uint c d :
  c = ","%char \/ c = "*"%char \/ c = "."%char ->
  lacks c (NilZero.string_of_uint d) = true.
Proof.
  intros Hc. unfold NilZero.string_of_uint.
  destruct d; try (now apply (lacks_string_of_uint c _ Hc)).
  destruct Hc as [->|[->| ->]]; reflexivity.
Qed.

Lemma lacks_str_int c n :
  c = ","%char \/ c = "*"%char \/ c = "."%char -> lacks c (str_int n) = true.
Proof.
  intros Hc. unfold str_int, NilZero.string_of_int.
  destruct (Z.to_int n) as [d|d]; [now apply lacks_nilzero_uint|].
  cbn [lacks]. rewrite (lacks_nilzero_uint c d Hc).
  destruct Hc as [->|[->| ->]]; reflexivity.
Qed.

Lemma lacks_sign c s : c = ","%char \/ c = "*"%char -> lacks c (sign s) = true.
Proof. intros [->| ->]; destruct s; reflexivity. Qed.

Lemma lacks_digit c k :
  c = ","%char \/ c = "*"%char -> 0 <= k <= 9 -> lacks c (digit k) = true.
Proof.
  intros Hc Hk. pose proof (digit_cases k Hk) as H. cbn [In] in H.
  repeat (destruct H as [<-|H]; [destruct Hc as [->| ->]; reflexivity|]).
  destruct H.
Qed.

Lemma pad3_digits n :
  0 <= n < 1000 ->
  0 <= n / 100 <= 9 /\ 0 <= (n / 10) mod 10 <= 9 /\ 0 <= n mod 10 <= 9.
Proof.
  intros Hn.
  assert (0 <= n / 100 <= 9)
    by (split; [apply Z.div_pos; lia|apply Z.lt_succ_r, Z.div_lt_upper_bound; lia]).
  pose proof (Z.mod_pos_bound (n / 10) 10 ltac:(lia)).
  pose proof (Z.mod_pos_bound n 10 ltac:(lia)). lia.
Qed.

Lemma lacks_pad3 c n :
  c = ","%char \/ c = "*"%char -> 0 <= n < 1000 -> lacks c (pad3 n) = true.
Proof.
  intros Hc Hn. destruct (pad3_digits n Hn) as (H1 & H2 & H3).
  unfold pad3. now rewrite !lacks_app, !lacks_digit.
Qed.

Lemma lacks_format_3f c x :
  c = ","%char \/ c = "*"%char -> lacks c (format_3f x) = true.
Proof.
  intros Hc. unfold format_3f.
  destruct (Py.SF x) as [s|s| |s m e]; rewrite ?lacks_app, ?lacks_sign by exact Hc.
  - destruct Hc as [->| ->]; reflexivity.
  - destruct Hc as [->| ->]; reflexivity.
  - destruct Hc as [->| ->]; reflexivity.
  - rewrite lacks_str_int by tauto.
    rewrite lacks_pad3 by (try exact Hc; apply Z.mod_pos_bound; lia).
    destruct Hc as [->| ->]; reflexivity.
Qed.

Lemma lacks_star_concat (l : list string) :
  Forall (fun s => lacks "*" s = true) l -> lacks "*" (String.concat ", " l) = true.
Proof.
  intros Hl. induction Hl as [|s l Hs Hl IH]; [reflexivity|].
  cbn [String.concat]. destruct l as [|s' l']; [exact Hs|].
  now rewrite !lacks_app, Hs, IH.
Qed.

Lemma lacks_star_node_text n : lacks "*" (node_text n) = true.
Proof.
  unfold node_text. apply lacks_star_concat.
  repeat constructor; first [apply lacks_str_int | apply lacks_format_3f]; tauto.
Qed.

Lemma lacks_star_element_text el : lacks "*" (element_text el) = true.
Proof.
  unfold element_text. apply lacks_star_concat.
  apply List.Forall_forall. intros s Hs. apply in_map_iff in Hs as (n & <- & _).
  apply lacks_str_int. tauto.
Qed.

Lemma lacks_star_not_keyword l : lacks "*" l = true -> Reader.is_keyword l = false.
Proof.
  destruct l as [|c l]; [reflexivity|]. cbn [lacks Reader.is_keyword].
  intros H. apply andb_prop in H as [H _]. now apply negb_true_iff in H.
Qed.

(** ** Lines *)

Lemma newlines_concat (l : list string) :
  Forall (fun s => newlines s = O) l -> newlines (String.concat ", " l) = O.
Proof.
  intros Hl. induction Hl as [|s l Hs Hl IH]; [reflexivity|].
  cbn [String.concat]. destruct l as [|s' l']; [exact Hs|].
  now rewrite !newlines_app, Hs, IH.
Qed.

Lemma newlines_node_text n : newlines (node_text n) = O.
Proof.
  unfold node_text. apply newlines_concat.
  repeat constructor; first [apply newlines_str_int | apply newlines_format_3f].
Qed.

Lemma newlines_element_text el : newlines (element_text el) = O.
Proof.
  unfold element_text. apply newlines_concat.
  apply List.Forall_forall. intros s Hs. apply in_map_iff in Hs as (n & <- & _).
  apply newlines_str_int.
Qed.

Lemma lines_from_line cur l rest :
  newlines l = O ->
  Reader.lines_from cur (l ++ nl ++ rest) = (cur ++ l) :: Reader.lines_from "" rest.
Proof.
  revert cur. induction l as [|c l IH]; intros cur Hl.
  - rewrite append_nil_l, append_nil_r. reflexivity.
  - rewrite append_cons. cbn [newlines] in Hl. cbn [Reader.lines_from].
    destruct (Ascii.eqb c "010"); [discriminate|].
    rewrite IH by exact Hl. f_equal. now rewrite append_assoc.
Qed.

Lemma lines_unlines (ls : list string) :
  Forall (fun l => newlines l = O) ls -> Reader.lines (unlines ls) = ls.
Proof.
  intros Hls. unfold Reader.lines, unlines.
  induction Hls as [|l ls Hl Hls IH]; [reflexivity|].
  cbn [map join fold_right]. rewrite append_assoc, lines_from_line by exact Hl.
  rewrite append_nil_l. f_equal. exact IH.
Qed.

(** ** Fields *)

Lemma fields_from_field cur f rest :
  lacks "," f = true ->
  Reader.fields_from cur (f ++ ", " ++ rest)
  = (cur ++ f) :: Reader.fields_from "" rest.
Proof.
  revert cur. induction f as [|c f IH]; intros cur Hf.
  - rewrite append_nil_l, append_nil_r. reflexivity.
  - cbn [lacks] in Hf. apply andb_prop in Hf as [Hc Hf].
    apply negb_true_iff in Hc.
    rewrite append_cons. cbn [Reader.fields_from].
    specialize (IH (cur ++ String c "") Hf).
    destruct (f ++ ", " ++ rest) as [|c' s''] eqn:Hs.
    { destruct f; discriminate. }
    rewrite Hc. cbn [andb]. rewrite IH.
    f_equal. now rewrite append_assoc.
Qed.

Lemma fields_from_last cur f :
  lacks "," f = true -> Reader.fields_from cur f = [cur ++ f].
Proof.
  revert cur. induction f as [|c f IH]; intros cur Hf.
  - now rewrite append_nil_r.
  - cbn [lacks] in Hf. apply andb_prop in Hf as [Hc Hf].
    apply negb_true_iff in Hc. cbn [Reader.fields_from].
    destruct f as [|c' f']; [reflexivity|].
    rewrite Hc. cbn [andb]. rewrite IH by exact Hf.
    f_equal. now rewrite append_assoc.
Qed.

Lemma fields_concat (l : list string) :
  l <> [] -> Forall (fun s => lacks "," s = true) l ->
  Reader.fields (String.concat ", " l) = l.
Proof.
  intros Hne Hl. unfold Reader.fields.
  induction Hl as [|s l Hs Hl IH]; [congruence|].
  cbn [String.concat]. destruct l as [|s' l'].
  - rewrite fields_from_last by exact Hs. now rewrite append_nil_l.
  - rewrite fields_from_field by exact Hs. rewrite append_nil_l.
    f_equal. apply IH. discriminate.
Qed.

(** ** Numbers *)

Lemma to_int_not_nil n :
  Z.to_int n <> Decimal.Pos Decimal.Nil /\ Z.to_int n <> Decimal.Neg Decimal.Nil.
Proof.
  destruct n as [|p|p]; cbn; split; try discriminate;
    intros [= H]; now apply DecimalPos.Unsigned.to_uint_nonnil in H.
Qed.

Lemma read_int_str_int n : Reader.read_int (str_int n) = Some n.
Proof.
  unfold Reader.read_int, str_int.
  destruct (to_int_not_nil n) as [H1 H2].
  rewrite NilZero.isi by assumption.
  cbn [option_map]. now rewrite DecimalZ.of_to.
Qed.

(** ** Records *)

Lemma read_node_text n : Reader.read_node_line (node_text n) = Some (node_fields n).
Proof.
  unfold Reader.read_node_line, node_text.
  rewrite fields_concat; [|discriminate|].
  - now rewrite read_int_str_int.
  - repeat constructor; first [apply lacks_str_int | apply lacks_format_3f]; tauto.
Qed.

Lemma read_element_text id n1 n2 n3 n4 :
  Reader.read_element_line (element_text (id, [n1; n2; n3; n4]))
  = Some (id, [n1; n2; n3; n4]).
Proof.
  unfold Reader.read_element_line, element_text. cbn [fst snd map].
  rewrite fields_concat; [|discriminate|].
  - now rewrite !read_int_str_int.
  - repeat constructor; apply lacks_str_int; tauto.
Qed.

Lemma read_all_nodes (ns : list (Z * point)) :
  Reader.read_all Reader.read_node_line (map node_text ns) = Some (map node_fields ns).
Proof.
  induction ns as [|n ns IH]; [reflexivity|].
  cbn [map Reader.read_all]. now rewrite read_node_text, IH.
Qed.

Lemma read_all_elements nc nv :
  Reader.read_all Reader.read_element_line (map element_text (element_table nc nv))
  = Some (element_table nc nv).
Proof.
  unfold element_table. induction (grid nv nc) as [|[i j] l IH]; [reflexivity|].
  cbn [map Reader.read_all fst snd]. unfold quad at 1.
  now rewrite read_element_text, IH.
Qed.

(** ** Blocks *)

Lemma not_keyword_neq l kw :
  Reader.is_keyword l = false -> Reader.is_keyword kw = true -> String.eqb l kw = false.
Proof.
  intros Hl Hkw. destruct (String.eqb_spec l kw) as [->|]; [congruence|reflexivity].
Qed.

Lemma after_records (rs : list string) kw rest :
  Forall (fun l => Reader.is_keyword l = false) rs ->
  Reader.is_keyword kw = true ->
  Reader.after kw (rs ++ kw :: rest) = Some rest.
Proof.
  intros Hrs Hkw. induction Hrs as [|l rs Hl Hrs IH].
  - cbn [app Reader.after]. now rewrite String.eqb_refl.
  - cbn [app Reader.after]. now rewrite (not_keyword_neq l kw Hl Hkw).
Qed.

Lemma records_block (rs : list string) kw rest :
  Forall (fun l => Reader.is_keyword l = false) rs ->
  Reader.is_keyword kw = true ->
  Reader.records (rs ++ kw :: rest) = rs.
Proof.
  intros Hrs Hkw. induction Hrs as [|l rs Hl Hrs IH].
  - cbn [app Reader.records]. now rewrite Hkw.
  - cbn [app Reader.records]. now rewrite Hl, IH.
Qed.

Lemma node_texts_not_keywords (ns : list (Z * point)) :
  Forall (fun l => Reader.is_keyword l = false) (map node_text ns).
Proof.
  apply List.Forall_forall. intros l Hl. apply in_map_iff in Hl as (n & <- & _).
  apply lacks_star_not_keyword, lacks_star_node_text.
Qed.

Lemma element_texts_not_keywords (es : list (Z * list Z)) :
  Forall (fun l => Reader.is_keyword l = false) (map element_text es).
Proof.
  apply List.Forall_forall. intros l Hl. apply in_map_iff in Hl as (n & <- & _).
  apply lacks_star_not_keyword, lacks_star_element_text.
Qed.

Lemma after_node_keyword (rest : list string) :
  Reader.after "*Node"
    (["** Abaqus Input File for Shell Model of a Vessel"; "*Heading";
      "Pressure Vessel Model"; ""; "*Part, name=Vessel"; "*Node"] ++ rest)%list
  = Some rest.
Proof. reflexivity. Qed.

Lemma after_element_keyword (ns : list (Z * point)) (rest : list string) :
  Reader.after "*Element, type=S4"
    (["** Abaqus Input File for Shell Model of a Vessel"; "*Heading";
      "Pressure Vessel Model"; ""; "*Part, name=Vessel"; "*Node"]
       ++ map node_text ns ++ "*Element, type=S4" :: rest)%list
  = Some rest.
Proof.
  change (Reader.after "*Element, type=S4"
            (map node_text ns ++ "*Element, type=S4" :: rest)%list = Some rest).
  apply after_records; [apply node_texts_not_keywords|reflexivity].
Qed.

(** The lines of the layout of section 6 are its lines. *)
Lemma lines_section6 (ns : list (Z * point)) (es : list (Z * list Z)) (modulus thickness : string) :
  newlines modulus = O -> newlines thickness = O ->
  exists rest,
    Reader.lines (section6_document "Abaqus Input File for Shell Model of a Vessel"
                    "Pressure Vessel Model" ns es modulus thickness)
    = (["** Abaqus Input File for Shell Model of a Vessel"; "*Heading";
        "Pressure Vessel Model"; ""; "*Part, name=Vessel"; "*Node"]
         ++ map node_text ns ++ "*Element, type=S4"
         :: map element_text es ++ "*End Part" :: rest)%list.
Proof.
  intros Hm Ht. unfold section6_document. eexists.
  rewrite lines_unlines; [reflexivity|].
  repeat first [apply Forall_app; split | apply Forall_cons; split | apply Forall_nil];
    try reflexivity.
  - apply List.Forall_forall. intros l Hl. apply in_map_iff in Hl as (n & <- & _).
    apply newlines_node_text.
  - apply List.Forall_forall. intros l Hl. apply in_map_iff in Hl as (n & <- & _).
    apply newlines_element_text.
  - now rewrite newlines_app, Hm.
  - now rewrite newlines_app, Ht.
Qed.

End Reading.

Section ReadingTheDocument.

Variables np_radians np_cos np_sin : float -> float.

(** What a reader finds in the document of a mesh: its nodes and its
    elements, whatever the counts. *)
Lemma read_document d t E e nc nv :
  let text := document np_radians np_cos np_sin d t E e nc nv in
  Reader.read_nodes text
  = Some (map node_fields (node_table np_radians np_cos np_sin (d / 2)%float e nc nv))
  /\ Reader.read_elements text = Some (element_table nc nv).
Proof.
  intros text. unfold text. rewrite document_layout.
  destruct (lines_section6
              (node_table np_radians np_cos np_sin (d / 2)%float e nc nv)
              (element_table nc nv) (Fmt.float_repr E) (Fmt.float_repr t)
              (newlines_float_repr E) (newlines_float_repr t)) as [rest Hlines].
  unfold Reader.read_nodes, Reader.read_elements, Reader.block.
  rewrite Hlines. split.
  - rewrite after_node_keyword. cbn [option_map].
    rewrite records_block;
      [apply read_all_nodes|apply node_texts_not_keywords|reflexivity].
  - rewrite after_element_keyword. cbn [option_map].
    rewrite records_block;
      [apply read_all_elements|apply element_texts_not_keywords|reflexivity].
Qed.

End ReadingTheDocument.

(** ** Decimals *)

Section ReadingDecimals.

Import Fmt.
Open Scope string_scope.

Lemma lacks_minus_uint d : lacks "-" (NilEmpty.string_of_uint d) = true.
Proof. induction d; cbn; auto. Qed.

Lemma str_int_nonneg n :
  0 <= n ->
  exists u, u <> Decimal.Nil /\ str_int n = NilZero.string_of_uint u /\ Z.of_uint u = n.
Proof.
  intros Hn. unfold str_int. pose proof (DecimalZ.of_to n) as Hof.
  destruct (to_int_not_nil n) as [H1 _].
  destruct (Z.to_int n) as [u|u] eqn:Hu.
  - exists u. split; [congruence|]. split; [reflexivity|exact Hof].
  - destruct n as [|p|p]; cbn in Hu; try discriminate. lia.
Qed.

Lemma read_digits_str_int n : 0 <= n -> Reader.read_digits (str_int n) = Some n.
Proof.
  intros Hn. destruct (str_int_nonneg n Hn) as (u & Hu & -> & Hof).
  unfold Reader.read_digits. now rewrite NilZero.usu, <- Hof.
Qed.

Lemma lacks_minus_str_int n : 0 <= n -> lacks "-" (str_int n) = true.
Proof.
  intros Hn. destruct (str_int_nonneg n Hn) as (u & Hu & -> & _).
  unfold NilZero.string_of_uint. destruct u; try apply lacks_minus_uint. congruence.
Qed.

Lemma read_pad3_all :
  forallb (fun k => match Reader.read_digits (pad3 k) with
                    | Some v => (v =? k)%Z && Nat.eqb (String.length (pad3 k)) 3
                    | None => false
                    end) (seqZ 0 1000) = true.
Proof. vm_compute. reflexivity. Qed.

Lemma read_pad3 k :
  0 <= k < 1000 ->
  Reader.read_digits (pad3 k) = Some k /\ String.length (pad3 k) = 3%nat.
Proof.
  intros Hk. pose proof read_pad3_all as H.
  rewrite forallb_forall in H. specialize (H k).
  destruct (Reader.read_digits (pad3 k)) as [v|].
  - apply andb_prop in H as [H1 H2]; [|apply in_seqZ; lia].
    apply Z.eqb_eq in H1. apply Nat.eqb_eq in H2. now subst.
  - discriminate H. apply in_seqZ. lia.
Qed.

Lemma split_point_found cur a b :
  lacks "." a = true ->
  Reader.split_point cur (a ++ "." ++ b) = Some (cur ++ a, b).
Proof.
  revert cur. induction a as [|c a IH]; intros cur Ha.
  - rewrite append_nil_l, append_nil_r. reflexivity.
  - cbn [lacks] in Ha. apply andb_prop in Ha as [Hc Ha].
    apply negb_true_iff in Hc.
    rewrite append_cons. cbn [Reader.split_point]. rewrite Hc.
    rewrite IH by exact Ha. now rewrite append_assoc.
Qed.

(** A decimal of [n] thousandths, as [.3f] lays it out, reads back. *)
Lemma read_fixed3_layout (s : bool) n :
  0 <= n ->
  Reader.read_fixed3 (sign s ++ str_int (n / 1000) ++ "." ++ pad3 (n mod 1000))
  = Some (s, n).
Proof.
  intros Hn.
  assert (Hip : 0 <= n / 1000) by (apply Z.div_pos; lia).
  pose proof (Z.mod_pos_bound n 1000 ltac:(lia)) as Hfr.
  destruct (read_pad3 (n mod 1000) Hfr) as [Hr Hlen].
  assert (Hbody : Reader.read_fixed3 (sign s ++ str_int (n / 1000) ++ "." ++ pad3 (n mod 1000))
                  = match Reader.split_point "" (str_int (n / 1000) ++ "." ++ pad3 (n mod 1000)) with
                    | Some (ip, fr) =>
                        if Nat.eqb (String.length fr) 3 then
                          match Reader.read_digits ip, Reader.read_digits fr with
                          | Some a, Some b => Some (s, a * 1000 + b)
                          | _, _ => None
                          end
                        else None
                    | None => None
                    end).
  { unfold Reader.read_fixed3. destruct s.
    - reflexivity.
    - cbn [sign]. rewrite append_nil_l.
      pose proof (lacks_minus_str_int (n / 1000) Hip) as Hm.
      destruct (str_int (n / 1000)) as [|c r]; [reflexivity|].
      cbn [lacks] in Hm. apply andb_prop in Hm as [Hc _].
      apply negb_true_iff in Hc. rewrite append_cons, Hc. reflexivity. }
  rewrite Hbody, split_point_found by (apply lacks_str_int; tauto).
  rewrite append_nil_l, Hlen, read_digits_str_int, Hr by exact Hip.
  cbn [Nat.eqb]. do 2 f_equal. pose proof (Z.div_mod n 1000 ltac:(lia)). lia.
Qed.

(** [.3f] writes every double as section 6 asks. *)
Lemma format_3f_written x : written_3f x (format_3f x).
Proof.
  unfold written_3f, format_3f, F2R.
  destruct (Py.SF x) as [s|s| |s m e].
  - exists (s, 0). split; [now destruct s|]. split; [cbn; lia|].
    unfold fixed3_value. cbn [fst snd].
    replace ((if s then -1 else 1) * (0 / 1000) - 0)%R with 0%R
      by (destruct s; lra).
    rewrite Rabs_R0. split; [lra|]. intros; lra.
  - now destruct s.
  - reflexivity.
  - destruct (thousandths_near m e) as (Hn & Hle & Htie).
    set (n := thousandths m e) in *.
    exists (s, n). split; [now apply read_fixed3_layout|]. split; [exact Hn|].
    unfold fixed3_value. cbn [fst snd].
    assert (Heq : (Rabs ((if s then -1 else 1) * (IZR n / 1000)
                         - (if s then -1 else 1) * IZR (Z.pos m) * powerRZ 2 e)
                   = Rabs (IZR n / 1000 - IZR (Z.pos m) * powerRZ 2 e))%R).
    { destruct s.
      - rewrite <- (Rabs_Ropp (IZR n / 1000 - IZR (Z.pos m) * powerRZ 2 e)).
        f_equal. lra.
      - f_equal. lra. }
    rewrite Heq. split; assumption.
Qed.

End ReadingDecimals.

(** ** A call, and what a reader finds in its text *)

Section CallAndRead.

Variables np_radians np_cos np_sin : float -> float.

Lemma map_fst_node_fields (ns : list (Z * point)) :
  map fst (map node_fields ns) = map fst ns.
Proof. rewrite map_map. reflexivity. Qed.

Lemma generate_read d t h E e nc nv :
  num_circumferential d e = Ok nc ->
  num_vertical h e = Ok nv ->
  let ns := node_table np_radians np_cos np_sin (d / 2)%float e nc nv in
  exists text byte_data,
    generate_abaqus_input np_radians np_cos np_sin d t h E e
    = Ok (text, byte_data, map snd ns)
    /\ text = document np_radians np_cos np_sin d t E e nc nv
    /\ Reader.read_nodes text = Some (map node_fields ns)
    /\ Reader.read_elements text = Some (element_table nc nv).
Proof.
  intros Hnc Hnv ns. eexists _, _. split; [now apply generate_ok|].
  split; [reflexivity|]. apply read_document.
Qed.

Lemma node_fields_lookup radius e nc nv i j :
  0 <= i <= nv -> 0 <= j < nc ->
  nth_error (map node_fields (node_table np_radians np_cos np_sin radius e nc nv))
    (Z.to_nat (grid_id nc i j - 1))
  = Some (node_fields (grid_id nc i j, node_point np_radians np_cos np_sin radius e nc i j)).
Proof.
  intros Hi Hj. unfold node_table.
  replace (grid_id nc i j - 1) with (i * nc + j) by (unfold grid_id; lia).
  rewrite map_map, nth_error_map, grid_lookup by lia. reflexivity.
Qed.

Lemma node_coordinates_lookup radius e nc nv i j :
  0 <= i <= nv -> 0 <= j < nc ->
  nth_error (map snd (node_table np_radians np_cos np_sin radius e nc nv))
    (Z.to_nat (grid_id nc i j - 1))
  = Some (node_point np_radians np_cos np_sin radius e nc i j).
Proof.
  intros Hi Hj.
  replace (grid_id nc i j - 1) with (i * nc + j) by (unfold grid_id; lia).
  now apply node_table_lookup.
Qed.

Lemma element_lookup nc nv i j :
  0 <= i < nv -> 0 <= j < nc ->
  nth_error (element_table nc nv) (Z.to_nat (i * nc + j))
  = Some (grid_id nc i j, quad nc i j).
Proof.
  intros Hi Hj. unfold element_table.
  rewrite nth_error_map, grid_lookup by lia. reflexivity.
Qed.

End CallAndRead.

(** * The properties of the specification, on the text read back *)

(** C3: on a valid input (at least 3 columns and 1 ring of elements) the
    text of the call holds [(verticalCount + 1) * circumferentialCount]
    node records and [verticalCount * circumferentialCount] element
    records, as many coordinates are returned as there are nodes, and
    both the node ids and the element ids read [1, 2, 3, ...] in the order
    written. *)
Theorem node_and_element_counts
    (np_radians np_cos np_sin : float -> float) (d t h E e : float) (nc nv : Z) :
  num_circumferential d e = Ok nc ->
  num_vertical h e = Ok nv ->
  3 <= nc -> 1 <= nv ->
  exists text byte_data node_coordinates nodes elements,
    generate_abaqus_input np_radians np_cos np_sin d t h E e
    = Ok (text, byte_data, node_coordinates)
    /\ Reader.read_nodes text = Some nodes
    /\ Reader.read_elements text = Some elements
    /\ Z.of_nat (length nodes) = (nv + 1) * nc
    /\ Z.of_nat (length node_coordinates) = (nv + 1) * nc
    /\ Z.of_nat (length elements) = nv * nc
    /\ map fst nodes = seqZ 1 ((nv + 1) * nc)
    /\ map fst elements = seqZ 1 (nv * nc).
Proof.
  intros Hnc Hnv H3 H1.
  destruct (generate_read np_radians np_cos np_sin d t h E e nc nv Hnc Hnv)
    as (text & byte_data & Hgen & _ & Hnodes & Helements).
  eexists _, _, _, _, _.
  split; [exact Hgen|]. split; [exact Hnodes|]. split; [exact Helements|].
  rewrite !length_map, map_fst_node_fields.
  split; [apply length_node_table; lia|].
  split; [apply length_node_table; lia|].
  split; [apply length_element_table; lia|].
  split; [apply node_table_ids; lia|apply element_table_ids; lia].
Qed.

Lemma node_and_element_counts_witness :
  exists text byte_data node_coordinates nodes elements,
    generate_abaqus_input Ref.radians Ref.cos Ref.sin 1 0.125 1 200000 1
    = Ok (text, byte_data, node_coordinates)
    /\ Reader.read_nodes text = Some nodes
    /\ Reader.read_elements text = Some elements
    /\ Z.of_nat (length nodes) = (1 + 1) * 3
    /\ Z.of_nat (length node_coordinates) = (1 + 1) * 3
    /\ Z.of_nat (length elements) = 1 * 3
    /\ map fst nodes = seqZ 1 ((1 + 1) * 3)
    /\ map fst elements = seqZ 1 (1 * 3).
Proof.
  exact (node_and_element_counts Ref.radians Ref.cos Ref.sin
           1 0.125 1 200000 1 3 1 eq_refl eq_refl ltac:(lia) ltac:(lia)).
Defined.

(** C4: on a valid input every element record of the text references
    exactly four node ids, pairwise different, each the id of a node
    record of the same text; and every node id of the text is referenced
    by some element. *)
Theorem elements_reference_nodes
    (np_radians np_cos np_sin : float -> float) (d t h E e : float) (nc nv : Z) :
  num_circumferential d e = Ok nc ->
  num_vertical h e = Ok nv ->
  3 <= nc -> 1 <= nv ->
  exists text byte_data node_coordinates nodes elements,
    generate_abaqus_input np_radians np_cos np_sin d t h E e
    = Ok (text, byte_data, node_coordinates)
    /\ Reader.read_nodes text = Some nodes
    /\ Reader.read_elements text = Some elements
    /\ (forall el, In el elements ->
          length el.2 = 4%nat /\ NoDup el.2
          /\ forall n, In n el.2 -> In n (map fst nodes))
    /\ (forall n, In n (map fst nodes) <-> exists el, In el elements /\ In n el.2).
Proof.
  intros Hnc Hnv H3 H1.
  destruct (generate_read np_radians np_cos np_sin d t h E e nc nv Hnc Hnv)
    as (text & byte_data & Hgen & _ & Hnodes & Helements).
  eexists _, _, _, _, _.
  split; [exact Hgen|]. split; [exact Hnodes|]. split; [exact Helements|].
  rewrite map_fst_node_fields.
  set (ns := node_table np_radians np_cos np_sin (d / 2)%float e nc nv).
  assert (Hids : forall n, In n (map fst ns) <-> 1 <= n <= (nv + 1) * nc).
  { intros n. unfold ns. rewrite node_table_ids by lia. rewrite in_seqZ. lia. }
  split.
  - intros el Hel. apply in_element_table in Hel as (i & j & Hi & Hj & ->).
    cbn [snd]. split; [reflexivity|]. split; [apply quad_NoDup; lia|].
    intros n Hn. apply Hids. apply (quad_in_range nc nv i j); auto; lia.
  - intros n. rewrite Hids. split.
    + intros Hn. destruct (node_id_covered nc nv n) as (i & j & Hi & Hj & Hin); try lia.
      exists (grid_id nc i j, quad nc i j). split; [|exact Hin].
      apply in_element_table. now exists i, j.
    + intros (el & Hel & Hin).
      apply in_element_table in Hel as (i & j & Hi & Hj & ->).
      apply (quad_in_range nc nv i j); auto; lia.
Qed.

Lemma elements_reference_nodes_witness :
  exists text byte_data node_coordinates nodes elements,
    generate_abaqus_input Ref.radians Ref.cos Ref.sin 1 0.125 1 200000 1
    = Ok (text, byte_data, node_coordinates)
    /\ Reader.read_nodes text = Some nodes
    /\ Reader.read_elements text = Some elements
    /\ (forall el, In el elements ->
          length el.2 = 4%nat /\ NoDup el.2
          /\ forall n, In n el.2 -> In n (map fst nodes))
    /\ (forall n, In n (map fst nodes) <-> exists el, In el elements /\ In n el.2).
Proof.
  exact (elements_reference_nodes Ref.radians Ref.cos Ref.sin
           1 0.125 1 200000 1 3 1 eq_refl eq_refl ltac:(lia) ltac:(lia)).
Defined.

(** C5: on a valid input the mesh is closed at the seam: in every ring
    [i] the element record of the last column, [circumferentialCount - 1],
    has as its second and third node ids those of the nodes of column 0 of
    rings [i] and [i + 1], which are node records of the text; and the
    column of every corner of every element record lies in
    [0 .. circumferentialCount - 1]. *)
Theorem seam_closed
    (np_radians np_cos np_sin : float -> float) (d t h E e : float) (nc nv : Z) :
  num_circumferential d e = Ok nc ->
  num_vertical h e = Ok nv ->
  3 <= nc -> 1 <= nv ->
  exists text byte_data node_coordinates nodes elements,
    generate_abaqus_input np_radians np_cos np_sin d t h E e
    = Ok (text, byte_data, node_coordinates)
    /\ Reader.read_nodes text = Some nodes
    /\ Reader.read_elements text = Some elements
    /\ (forall i, 0 <= i < nv ->
          exists a b,
            nth_error elements (Z.to_nat (i * nc + (nc - 1)))
            = Some (grid_id nc i (nc - 1),
                    [grid_id nc i (nc - 1); a; b; grid_id nc (i + 1) (nc - 1)])
            /\ a = grid_id nc i 0 /\ b = grid_id nc (i + 1) 0
            /\ (exists written, nth_error nodes (Z.to_nat (a - 1)) = Some (a, written))
            /\ (exists written, nth_error nodes (Z.to_nat (b - 1)) = Some (b, written))
            /\ nth_error node_coordinates (Z.to_nat (a - 1))
               = Some (node_point np_radians np_cos np_sin (d / 2)%float e nc i 0)
            /\ nth_error node_coordinates (Z.to_nat (b - 1))
               = Some (node_point np_radians np_cos np_sin (d / 2)%float e nc (i + 1) 0))
    /\ (forall el, In el elements ->
          exists i j c, 0 <= i < nv /\ 0 <= j < nc /\ 0 <= c < nc
            /\ el.2 = [grid_id nc i j; grid_id nc i c;
                       grid_id nc (i + 1) c; grid_id nc (i + 1) j]).
Proof.
  intros Hnc Hnv H3 H1.
  destruct (generate_read np_radians np_cos np_sin d t h E e nc nv Hnc Hnv)
    as (text & byte_data & Hgen & _ & Hnodes & Helements).
  eexists _, _, _, _, _.
  split; [exact Hgen|]. split; [exact Hnodes|]. split; [exact Helements|].
  split.
  - intros i Hi. exists (grid_id nc i 0), (grid_id nc (i + 1) 0).
    split; [|split; [reflexivity|split; [reflexivity|]]].
    + rewrite element_lookup by lia. unfold quad. rewrite quad_wrap by lia.
      destruct (decide (nc - 1 = nc - 1)); [reflexivity|lia].
    + rewrite !node_fields_lookup, !node_coordinates_lookup by lia.
      unfold node_fields. cbn [fst snd]. repeat split; eexists; reflexivity.
  - intros el Hel. apply in_element_table in Hel as (i & j & Hi & Hj & ->).
    exists i, j, ((j + 1) mod nc). repeat split; try lia.
    + apply Z.mod_pos_bound. lia.
    + apply Z.mod_pos_bound. lia.
Qed.

Lemma seam_closed_witness :
  exists text byte_data node_coordinates nodes elements,
    generate_abaqus_input Ref.radians Ref.cos Ref.sin 1 0.125 1 200000 1
    = Ok (text, byte_data, node_coordinates)
    /\ Reader.read_nodes text = Some nodes
    /\ Reader.read_elements text = Some elements
    /\ nth_error elements 2 = Some (3, [3; 1; 4; 6]).
Proof.
  destruct (seam_closed Ref.radians Ref.cos Ref.sin
              1 0.125 1 200000 1 3 1 eq_refl eq_refl ltac:(lia) ltac:(lia))
    as (text & byte_data & node_coordinates & nodes & elements
        & Hgen & Hnodes & Helements & Hseam & _).
  exists text, byte_data, node_coordinates, nodes, elements.
  split; [exact Hgen|]. split; [exact Hnodes|]. split; [exact Helements|].
  destruct (Hseam 0 ltac:(lia)) as (a & b & Hel & -> & -> & _). exact Hel.
Defined.

(** C7: for diameter 120.0, height 270.0 and element size 6.0 the counts
    are 62 and 45, the text holds 2852 node records and 2790 element
    records, 2852 coordinates are returned, and the first node record is
    [1, 60.000, 0.000, 0.000], the first line after [*Node] (numpy's
    [radians], [cos] and [sin] being exact at 0). *)
Theorem example_120_270_6
    (np_radians np_cos np_sin : float -> float) (t E : float) :
  np_radians 0%float = 0%float -> np_cos 0%float = 1%float ->
  np_sin 0%float = 0%float ->
  num_circumferential 120 6 = Ok 62
  /\ num_vertical 270 6 = Ok 45
  /\ exists text byte_data node_coordinates nodes elements rest,
       generate_abaqus_input np_radians np_cos np_sin 120 t 270 E 6
       = Ok (text, byte_data, node_coordinates)
       /\ Reader.read_nodes text = Some nodes
       /\ Reader.read_elements text = Some elements
       /\ Z.of_nat (length nodes) = 2852
       /\ Z.of_nat (length node_coordinates) = 2852
       /\ Z.of_nat (length elements) = 2790
       /\ nth_error nodes 0
          = Some (1, ("60.000", "0.000", "0.000")%string)
       /\ nth_error node_coordinates 0 = Some (60, 0, 0)%float
       /\ text = (header ++ "1, 60.000, 0.000, 0.000" ++ Fmt.nl ++ rest)%string.
Proof.
  intros Hr Hc Hs.
  split; [reflexivity|]. split; [reflexivity|].
  destruct (generate_read np_radians np_cos np_sin 120 t 270 E 6 62 45 eq_refl eq_refl)
    as (text & byte_data & Hgen & Htext & Hnodes & Helements).
  destruct (grid_head (45 + 1) 62 ltac:(lia) ltac:(lia)) as [l Hl].
  assert (Hp : node_point np_radians np_cos np_sin (120 / 2)%float 6 62 0 0
               = (60, 0, 0)%float).
  { unfold node_point. change (angle 62 0) with 0%float.
    rewrite Hr, Hc, Hs. reflexivity. }
  assert (Hns : exists others,
             node_table np_radians np_cos np_sin (120 / 2)%float 6 62 45
             = (1, (60, 0, 0)%float) :: others).
  { eexists. unfold node_table. rewrite Hl. cbn [map fst snd]. rewrite Hp. reflexivity. }
  destruct Hns as [others Hns].
  eexists _, _, _, _, _, _.
  split; [exact Hgen|]. split; [exact Hnodes|]. split; [exact Helements|].
  rewrite !length_map.
  split; [rewrite length_node_table by lia; reflexivity|].
  split; [rewrite length_node_table by lia; reflexivity|].
  split; [rewrite length_element_table by lia; reflexivity|].
  rewrite Htext. unfold document. rewrite Hns. cbn [map nth_error].
  split; [reflexivity|]. split; [reflexivity|].
  change (join (render_node (1, (60, 0, 0)%float) :: map render_node others))
    with (render_node (1, (60, 0, 0)%float) ++ join (map render_node others))%string.
  change (render_node (1, (60, 0, 0)%float))
    with ("1, 60.000, 0.000, 0.000" ++ Fmt.nl)%string.
  rewrite !append_assoc. reflexivity.
Qed.

Lemma example_120_270_6_witness :
  num_circumferential 120 6 = Ok 62 /\ num_vertical 270 6 = Ok 45.
Proof.
  pose proof (example_120_270_6 Ref.radians Ref.cos Ref.sin 1.125 29000000
                eq_refl eq_refl eq_refl) as H.
  exact (conj (proj1 H) (proj1 (proj2 H))).
Defined.

(** C8, as stated, fails: not every coordinate of a valid input is
    written with three decimals.  With the largest double for the height
    and a third of [2^1023] for the diameter and the element size, all
    five parameters are positive and the counts are 3 and 6, but
    [6 * element_size] overflows and the nodes of the top ring, ids 19 to
    21, have their [z] written [inf]. *)
Lemma top_ring_written_inf :
  (0 <? 0x1.5555555555555p+1021)%float = true
  /\ (0 <? 1.125)%float = true
  /\ (0 <? 0x1.fffffffffffffp+1023)%float = true
  /\ (0 <? 29000000)%float = true
  /\ num_circumferential 0x1.5555555555555p+1021 0x1.5555555555555p+1021 = Ok 3
  /\ num_vertical 0x1.fffffffffffffp+1023 0x1.5555555555555p+1021 = Ok 6
  /\ exists text byte_data node_coordinates nodes fx fy,
       generate_abaqus_input Ref.radians Ref.cos Ref.sin
         0x1.5555555555555p+1021 1.125 0x1.fffffffffffffp+1023 29000000
         0x1.5555555555555p+1021
       = Ok (text, byte_data, node_coordinates)
       /\ Reader.read_nodes text = Some nodes
       /\ nth_error nodes 18 = Some (19, (fx, fy, "inf"%string))
       /\ Reader.read_fixed3 "inf" = None.
Proof.
  do 6 (split; [vm_compute; reflexivity|]).
  destruct (generate_read Ref.radians Ref.cos Ref.sin
              0x1.5555555555555p+1021 1.125 0x1.fffffffffffffp+1023 29000000
              0x1.5555555555555p+1021 3 6 eq_refl eq_refl)
    as (text & byte_data & Hgen & _ & Hnodes & _).
  assert (Hz : Fmt.format_3f (ring_z 0x1.5555555555555p+1021 6) = "inf"%string)
    by (vm_compute; reflexivity).
  eexists text, byte_data, _, _, _, _.
  split; [exact Hgen|]. split; [exact Hnodes|]. split; [|reflexivity].
  change 18%nat with (Z.to_nat (grid_id 3 6 0 - 1)).
  rewrite node_fields_lookup by lia.
  unfold node_fields, node_point. cbn [fst snd]. rewrite Hz. reflexivity.
Qed.

(** C8, amended: the text written follows the fixed layout of section 6
    with its exact keyword lines; each node record carries the three
    coordinates of its node as [.3f] writes them: a finite coordinate as
    the decimal with exactly three decimals nearest to it, an infinite
    one or a NaN as [inf], [-inf] or [nan]; the coordinates of the node of
    ring [i], column [j] are those of the algorithm, its [z] being
    [i * element_size] in double precision; the material line is the
    caller's modulus followed by [, 0.3] and the section line ends in
    [thickness=] followed by the caller's thickness, both as [str()] writes
    them: [29000000.0] and [1.125] for the values 29000000.0 and 1.125. *)
Theorem document_follows_layout
    (np_radians np_cos np_sin : float -> float) (d t h E e : float) (nc nv : Z) :
  num_circumferential d e = Ok nc ->
  num_vertical h e = Ok nv ->
  exists text byte_data node_coordinates nodes,
    generate_abaqus_input np_radians np_cos np_sin d t h E e
    = Ok (text, byte_data, node_coordinates)
    /\ text = section6_document "Abaqus Input File for Shell Model of a Vessel"
                "Pressure Vessel Model"
                (node_table np_radians np_cos np_sin (d / 2)%float e nc nv)
                (element_table nc nv)
                (Fmt.float_repr E) (Fmt.float_repr t)
    /\ Reader.read_nodes text = Some nodes
    /\ length nodes = length node_coordinates
    /\ (forall k id fx fy fz x y z,
          nth_error nodes k = Some (id, (fx, fy, fz)) ->
          nth_error node_coordinates k = Some (x, y, z) ->
          written_3f x fx /\ written_3f y fy /\ written_3f z fz)
    /\ (forall i j, 0 <= i <= nv -> 0 <= j < nc ->
          nth_error node_coordinates (Z.to_nat (grid_id nc i j - 1))
          = Some ((d / 2 * np_cos (np_radians (angle nc j)))%float,
                  (d / 2 * np_sin (np_radians (angle nc j)))%float,
                  ring_z e i))
    /\ Fmt.float_repr 29000000 = "29000000.0"%string
    /\ Fmt.float_repr 1.125 = "1.125"%string.
Proof.
  intros Hnc Hnv.
  destruct (generate_read np_radians np_cos np_sin d t h E e nc nv Hnc Hnv)
    as (text & byte_data & Hgen & Htext & Hnodes & _).
  eexists text, byte_data, _, _.
  split; [exact Hgen|].
  split; [rewrite Htext; apply document_layout|].
  split; [exact Hnodes|].
  split; [now rewrite !length_map|].
  split; [|split; [|split; vm_compute; reflexivity]].
  - intros k id fx fy fz x y z Hn Hc.
    rewrite nth_error_map in Hn, Hc.
    destruct (nth_error _ k) as [[id' [[x' y'] z']]|]; [|discriminate].
    cbn [option_map] in Hn, Hc. unfold node_fields in Hn. cbn [fst snd] in Hn, Hc.
    inversion Hn; inversion Hc; subst.
    repeat split; apply format_3f_written.
  - intros i j Hi Hj. now rewrite node_coordinates_lookup by lia.
Qed.

Lemma document_follows_layout_witness :
  exists text byte_data node_coordinates nodes,
    generate_abaqus_input Ref.radians Ref.cos Ref.sin 1 0.125 1 200000 1
    = Ok (text, byte_data, node_coordinates)
    /\ Reader.read_nodes text = Some nodes
    /\ length nodes = length node_coordinates
    /\ (forall k id fx fy fz x y z,
          nth_error nodes k = Some (id, (fx, fy, fz)) ->
          nth_error node_coordinates k = Some (x, y, z) ->
          written_3f x fx /\ written_3f y fy /\ written_3f z fz).
Proof.
  destruct (document_follows_layout Ref.radians Ref.cos Ref.sin
              1 0.125 1 200000 1 3 1 eq_refl eq_refl)
    as (text & byte_data & node_coordinates & nodes
        & Hgen & _ & Hnodes & Hlen & Hwritten & _).
  exists text, byte_data, node_coordinates, nodes.
  exact (conj Hgen (conj Hnodes (conj Hlen Hwritten))).
Defined.

(** * Further properties, on the text read back *)

(** X9: on a valid mesh neighbouring elements share whole edges.  The
    element record at ring [i], column [j] has the id of its first corner;
    its fourth and third corners are the nodes [nc] ids after its first
    and second; its right edge (corners 2 and 3) is the left edge (corners
    1 and 4) of the element of the next column around the ring, and its
    top edge (corners 4 and 3) is the bottom edge (corners 1 and 2) of the
    element above it. *)
Theorem neighbouring_elements_share_edges
    (np_radians np_cos np_sin : float -> float) (d t h E e : float) (nc nv : Z) :
  num_circumferential d e = Ok nc ->
  num_vertical h e = Ok nv ->
  3 <= nc -> 1 <= nv ->
  exists text byte_data node_coordinates elements,
    generate_abaqus_input np_radians np_cos np_sin d t h E e
    = Ok (text, byte_data, node_coordinates)
    /\ Reader.read_elements text = Some elements
    /\ forall i j, 0 <= i < nv -> 0 <= j < nc ->
         exists n1 n2 n3 n4,
           nth_error elements (Z.to_nat (i * nc + j)) = Some (n1, [n1; n2; n3; n4])
           /\ n1 = i * nc + j + 1 /\ n4 = n1 + nc /\ n3 = n2 + nc
           /\ (exists m2 m3,
                 nth_error elements (Z.to_nat (i * nc + (j + 1) mod nc))
                 = Some (n2, [n2; m2; m3; n3]))
           /\ (i + 1 < nv ->
                 exists m3,
                   nth_error elements (Z.to_nat ((i + 1) * nc + j))
                   = Some (n4, [n4; n3; m3; n4 + nc])).
Proof.
  intros Hnc Hnv H3 H1.
  destruct (generate_read np_radians np_cos np_sin d t h E e nc nv Hnc Hnv)
    as (text & byte_data & Hgen & _ & _ & Helements).
  eexists text, byte_data, _, _.
  split; [exact Hgen|]. split; [exact Helements|].
  intros i j Hi Hj.
  assert (Hm : 0 <= (j + 1) mod nc < nc) by (apply mod_col; lia).
  exists (grid_id nc i j), (grid_id nc i ((j + 1) mod nc)),
         (grid_id nc (i + 1) ((j + 1) mod nc)), (grid_id nc (i + 1) j).
  split; [|split; [|split; [|split; [|split]]]].
  - now rewrite element_lookup by lia.
  - reflexivity.
  - unfold grid_id. lia.
  - unfold grid_id. lia.
  - eexists _, _. rewrite element_lookup by lia. reflexivity.
  - intros Hi'. eexists. rewrite element_lookup by lia.
    unfold quad. do 3 f_equal. f_equal. f_equal. f_equal. unfold grid_id. lia.
Qed.

Lemma neighbouring_elements_share_edges_witness :
  exists text byte_data node_coordinates elements,
    generate_abaqus_input Ref.radians Ref.cos Ref.sin 1 0.125 2 200000 1
    = Ok (text, byte_data, node_coordinates)
    /\ Reader.read_elements text = Some elements
    /\ exists n1 n2 n3 n4,
         nth_error elements (Z.to_nat (0 * 3 + 2)) = Some (n1, [n1; n2; n3; n4])
         /\ n1 = 0 * 3 + 2 + 1 /\ n4 = n1 + 3 /\ n3 = n2 + 3
         /\ (exists m2 m3,
               nth_error elements (Z.to_nat (0 * 3 + (2 + 1) mod 3))
               = Some (n2, [n2; m2; m3; n3]))
         /\ (0 + 1 < 2 ->
               exists m3,
                 nth_error elements (Z.to_nat ((0 + 1) * 3 + 2))
                 = Some (n4, [n4; n3; m3; n4 + 3])).
Proof.
  destruct (neighbouring_elements_share_edges Ref.radians Ref.cos Ref.sin
              1 0.125 2 200000 1 3 2 eq_refl eq_refl ltac:(lia) ltac:(lia))
    as (text & byte_data & node_coordinates & elements & Hgen & Helements & H).
  exists text, byte_data, node_coordinates, elements.
  exact (conj Hgen (conj Helements (H 0 2 ltac:(lia) ltac:(lia)))).
Defined.

(** X10: on a valid mesh every node of an inner ring is a corner of
    exactly four element records of the text, and every node of the bottom
    ring and of the top ring of exactly two. *)
Theorem node_valence
    (np_radians np_cos np_sin : float -> float) (d t h E e : float) (nc nv : Z) :
  num_circumferential d e = Ok nc ->
  num_vertical h e = Ok nv ->
  3 <= nc -> 1 <= nv ->
  exists text byte_data node_coordinates elements,
    generate_abaqus_input np_radians np_cos np_sin d t h E e
    = Ok (text, byte_data, node_coordinates)
    /\ Reader.read_elements text = Some elements
    /\ forall i j, 0 <= i <= nv -> 0 <= j < nc ->
         length (List.filter (has_corner (grid_id nc i j)) elements)
         = if decide (i = 0 \/ i = nv) then 2%nat else 4%nat.
Proof.
  intros Hnc Hnv H3 H1.
  destruct (generate_read np_radians np_cos np_sin d t h E e nc nv Hnc Hnv)
    as (text & byte_data & Hgen & _ & _ & Helements).
  eexists text, byte_data, _, _.
  split; [exact Hgen|]. split; [exact Helements|].
  intros i j Hi Hj.
  change (List.filter (has_corner (grid_id nc i j)) (element_table nc nv))
    with (elements_at nc nv (grid_id nc i j)).
  pose proof (pred_wrap nc j ltac:(lia) Hj) as Hp.
  set (pj := (j - 1) mod nc) in *.
  assert (Hpj : 0 <= pj < nc /\ pj <> j) by (destruct (decide (j = 0)); lia).
  assert (Hid : forall a b a' b', 0 <= b < nc -> 0 <= b' < nc ->
                  (a, b) <> (a', b') -> grid_id nc a b <> grid_id nc a' b').
  { intros a b a' b' Hb Hb' Hne Heq. apply grid_id_inj in Heq; [|lia..].
    destruct Heq; congruence. }
  destruct (decide (i = 0 \/ i = nv)) as [[Hz|Hz]|Hz].
  - rewrite (elements_at_length nc nv i j [(i, j); (i, pj)]); [reflexivity|lia..| |].
    + cbn [map fst snd]. repeat constructor; cbn [In].
      * intros [H|[]]. revert H. apply Hid; [lia..|]. intros [=]. lia.
      * tauto.
    + intros a b. cbn [In]. split.
      * intros [[= <- <-]|[[= <- <-]|[]]]; lia.
      * intros (Ha & Hai & [->| ->]); [left|right; left]; f_equal; lia.
  - rewrite (elements_at_length nc nv i j [(i - 1, j); (i - 1, pj)]); [reflexivity|lia..| |].
    + cbn [map fst snd]. repeat constructor; cbn [In].
      * intros [H|[]]. revert H. apply Hid; [lia..|]. intros [=]. lia.
      * tauto.
    + intros a b. cbn [In]. split.
      * intros [[= <- <-]|[[= <- <-]|[]]]; lia.
      * intros (Ha & Hai & [->| ->]); [left|right; left]; f_equal; lia.
  - rewrite (elements_at_length nc nv i j
               [(i, j); (i, pj); (i - 1, j); (i - 1, pj)]); [reflexivity|lia..| |].
    + cbn [map fst snd]. repeat constructor; cbn [In].
      * intros [H|[H|[H|[]]]]; revert H; (apply Hid; [lia..|]); intros [=]; lia.
      * intros [H|[H|[]]]; revert H; (apply Hid; [lia..|]); intros [=]; lia.
      * intros [H|[]]; revert H; (apply Hid; [lia..|]); intros [=]; lia.
      * tauto.
    + intros a b. cbn [In]. split.
      * intros [[= <- <-]|[[= <- <-]|[[= <- <-]|[[= <- <-]|[]]]]]; lia.
      * intros (Ha & [->| ->] & [->| ->]); tauto.
Qed.

Lemma node_valence_witness :
  exists text byte_data node_coordinates elements,
    generate_abaqus_input Ref.radians Ref.cos Ref.sin 1 0.125 2 200000 1
    = Ok (text, byte_data, node_coordinates)
    /\ Reader.read_elements text = Some elements
    /\ length (List.filter (has_corner (grid_id 3 1 0)) elements)
       = if decide (1 = 0 \/ 1 = 2) then 2%nat else 4%nat.
Proof.
  destruct (node_valence Ref.radians Ref.cos Ref.sin
              1 0.125 2 200000 1 3 2 eq_refl eq_refl ltac:(lia) ltac:(lia))
    as (text & byte_data & node_coordinates & elements & Hgen & Helements & H).
  exists text, byte_data, node_coordinates, elements.
  exact (conj Hgen (conj Helements (H 1 0 ltac:(lia) ltac:(lia)))).
Defined.

(** X13: on a valid mesh the four corners of the element record at ring
    [i], column [j] are, in the returned coordinates, the nodes at columns
    [j] and [(j + 1) mod nc] of rings [i] and [i + 1]: corners 1 and 4
    have the same [x] and [y], so have corners 2 and 3; corners 1 and 2
    have the [z] of ring [i], corners 3 and 4 that of ring [i + 1]. *)
Theorem element_corner_coordinates
    (np_radians np_cos np_sin : float -> float) (d t h E e : float) (nc nv : Z) :
  num_circumferential d e = Ok nc ->
  num_vertical h e = Ok nv ->
  3 <= nc -> 1 <= nv ->
  exists text byte_data node_coordinates elements,
    generate_abaqus_input np_radians np_cos np_sin d t h E e
    = Ok (text, byte_data, node_coordinates)
    /\ Reader.read_elements text = Some elements
    /\ forall i j, 0 <= i < nv -> 0 <= j < nc ->
         exists id n1 n2 n3 n4 x y x' y',
           nth_error elements (Z.to_nat (i * nc + j)) = Some (id, [n1; n2; n3; n4])
           /\ x = ((d / 2) * np_cos (np_radians (angle nc j)))%float
           /\ y = ((d / 2) * np_sin (np_radians (angle nc j)))%float
           /\ x' = ((d / 2) * np_cos (np_radians (angle nc ((j + 1) mod nc))))%float
           /\ y' = ((d / 2) * np_sin (np_radians (angle nc ((j + 1) mod nc))))%float
           /\ nth_error node_coordinates (Z.to_nat (n1 - 1)) = Some (x, y, ring_z e i)
           /\ nth_error node_coordinates (Z.to_nat (n2 - 1)) = Some (x', y', ring_z e i)
           /\ nth_error node_coordinates (Z.to_nat (n3 - 1))
              = Some (x', y', ring_z e (i + 1))
           /\ nth_error node_coordinates (Z.to_nat (n4 - 1))
              = Some (x, y, ring_z e (i + 1)).
Proof.
  intros Hnc Hnv H3 H1.
  destruct (generate_read np_radians np_cos np_sin d t h E e nc nv Hnc Hnv)
    as (text & byte_data & Hgen & _ & _ & Helements).
  eexists text, byte_data, _, _.
  split; [exact Hgen|]. split; [exact Helements|].
  intros i j Hi Hj.
  assert (Hm : 0 <= (j + 1) mod nc < nc) by (apply Z.mod_pos_bound; lia).
  eexists _, _, _, _, _, _, _, _, _.
  split; [now rewrite element_lookup by lia|].
  do 4 (split; [reflexivity|]).
  rewrite !node_coordinates_lookup by lia. repeat split.
Qed.

Lemma element_corner_coordinates_witness :
  exists text byte_data node_coordinates elements,
    generate_abaqus_input Ref.radians Ref.cos Ref.sin 1 0.125 1 200000 1
    = Ok (text, byte_data, node_coordinates)
    /\ Reader.read_elements text = Some elements
    /\ exists id n1 n2 n3 n4 x y x' y',
         nth_error elements (Z.to_nat (0 * 3 + 2)) = Some (id, [n1; n2; n3; n4])
         /\ x = ((1 / 2) * Ref.cos (Ref.radians (angle 3 2)))%float
         /\ y = ((1 / 2) * Ref.sin (Ref.radians (angle 3 2)))%float
         /\ x' = ((1 / 2) * Ref.cos (Ref.radians (angle 3 ((2 + 1) mod 3))))%float
         /\ y' = ((1 / 2) * Ref.sin (Ref.radians (angle 3 ((2 + 1) mod 3))))%float
         /\ nth_error node_coordinates (Z.to_nat (n1 - 1)) = Some (x, y, ring_z 1 0)
         /\ nth_error node_coordinates (Z.to_nat (n2 - 1)) = Some (x', y', ring_z 1 0)
         /\ nth_error node_coordinates (Z.to_nat (n3 - 1))
            = Some (x', y', ring_z 1 (0 + 1))
         /\ nth_error node_coordinates (Z.to_nat (n4 - 1))
            = Some (x, y, ring_z 1 (0 + 1)).
Proof.
  destruct (element_corner_coordinates Ref.radians Ref.cos Ref.sin
              1 0.125 1 200000 1 3 1 eq_refl eq_refl ltac:(lia) ltac:(lia))
    as (text & byte_data & node_coordinates & elements & Hgen & Helements & H).
  exists text, byte_data, node_coordinates, elements.
  exact (conj Hgen (conj Helements (H 0 2 ltac:(lia) ltac:(lia)))).
Defined.
